(** * News PWA: feed aggregation pipeline and caches

    A shallow embedding of the repository's JavaScript:
    - the application logic (translation memo, [localStorage] cache
      helpers, feed fetching, section aggregation, refresh guard);
    - the two service-worker variants found in the sources (cache name
      [news-pwa-v1] and [news-pwa-v3]).

    Conventions.
    - A JavaScript string is a Rocq [string]; one [ascii] stands for one
      code unit, so [slice] and [length] count the same things as in the
      source.  Strings are taken to be well formed (no lone surrogates),
      so that encoding one into a URL cannot fail.
    - A JavaScript number is an integer of [Z]; [NaN] is [None] in
      [option Z].  The numbers at stake are epoch milliseconds, well
      inside the range in which doubles are exact integers.
    - What the engine provides (date parsing, [JSON], the DOM's text
      extraction, URL encoding) is gathered in the class [Runtime];
      [Ref.runtime] is a small executable instance used in examples.
      What the rendering code needs of the document (the serialisation
      of a text node, the date of the locale) is the class [Dom], with
      the instance [Ref.dom].
    - An [async] function is split at its [await]: [f_begin] is the part
      that runs synchronously when [f] is called, [f_resume] the
      continuation once the awaited promise settles.  [f] itself is the
      two run back to back, i.e. the call awaited on its own. *)

From stdpp Require Import base option list gmap strings pretty sorting.
From Stdlib Require Import ZArith String Ascii Lia.

Set Warnings "-register-all".
Local Open Scope string_scope.
Local Open Scope list_scope.

(** ** JavaScript values *)

Module JS.

(** What [JSON.parse] and [Response.json] produce. *)
Inductive json : Type :=
| JNull
| JBool (b : bool)
| JNum (n : Z)
| JStr (s : string)
| JArr (elems : list json)
| JObj (fields : list (string * json)).

(** A value read out of a property: [undefined], a JSON value, or a
    method found on a prototype (only [String.prototype.link] is ever
    reached by the property names the sources use). *)
Inductive value : Type :=
| VUndefined
| VJson (j : json)
| VBuiltin (name : string).

Inductive Error : Type :=
| TypeError
| SyntaxError
| HttpError (status : Z)
| NetworkError
| QuotaExceededError
| SecurityError.

(** The outcome of evaluating an expression or awaiting a promise. *)
Inductive Completion (A : Type) : Type :=
| Return (a : A)
| Throw (e : Error).
Arguments Return {A} a.
Arguments Throw {A} e.

#[global] Instance Completion_ret : MRet Completion := @Return.
#[global] Instance Completion_bind : MBind Completion :=
  fun A B f m => match m with Return a => f a | Throw e => Throw e end.
#[global] Instance Completion_fmap : FMap Completion :=
  fun A B f m => match m with Return a => Return (f a) | Throw e => Throw e end.

(** [try { body } catch { handler }] *)
Definition try_catch {A} (body : Completion A) (handler : Error -> A) : A :=
  match body with Return a => a | Throw e => handler e end.

#[global] Instance json_inhabited : Inhabited json := populate JNull.

Definition ToBoolean (v : value) : bool :=
  match v with
  | VUndefined => false
  | VBuiltin _ => true
  | VJson JNull => false
  | VJson (JBool b) => b
  | VJson (JNum n) => negb (n =? 0)%Z
  | VJson (JStr s) => negb (String.eqb s "")
  | VJson (JArr _) | VJson (JObj _) => true
  end.

(** [v || d] *)
Definition or_else (v d : value) : value := if ToBoolean v then v else d.

(** Own property of a parsed object: [JSON.parse] keeps the last of
    several members with one name. *)
Fixpoint own_property (fields : list (string * json)) (k : string) : option json :=
  match fields with
  | [] => None
  | (k', v) :: rest =>
      match own_property rest k with
      | Some v' => Some v'
      | None => if String.eqb k' k then Some v else None
      end
  end.

(** [ToString] of a JSON value.  An array prints as its elements
    joined by commas, [null] elements as the empty string.  A plain
    object prints through [Object.prototype.toString]; a member named
    [toString] shadows it with something that cannot be called, and the
    conversion throws. *)
Fixpoint ToString (j : json) : Completion string :=
  match j with
  | JNull => Return "null"
  | JBool true => Return "true"
  | JBool false => Return "false"
  | JNum n => Return (pretty n)
  | JStr s => Return s
  | JArr elems =>
      (fix join (l : list json) : Completion string :=
         match l with
         | [] => Return ""
         | x :: l' =>
             s ← match x with JNull => Return "" | _ => ToString x end;
             match l' with
             | [] => Return s
             | _ :: _ => r ← join l'; Return (s +:+ "," +:+ r)
             end
         end) elems
  | JObj fields =>
      match own_property fields "toString" with
      | Some _ => Throw TypeError
      | None => Return "[object Object]"
      end
  end.

Definition ToString_value (v : value) : Completion string :=
  match v with
  | VUndefined => Return "undefined"
  | VJson j => ToString j
  | VBuiltin name => Return ("function " +:+ name +:+ "() { [native code] }")
  end.

(** [j.k] for the property names the sources read ([status], [items],
    [title], [description], [link], [pubDate], [timestamp]).  Reading a
    property of [null] throws; primitives and arrays have none of these
    names, except that a string finds [link] on [String.prototype]. *)
Definition Get (j : json) (k : string) : Completion value :=
  match j with
  | JNull => Throw TypeError
  | JObj fields =>
      Return (match own_property fields k with Some v => VJson v | None => VUndefined end)
  | JStr _ => Return (if String.eqb k "link" then VBuiltin "link" else VUndefined)
  | JBool _ | JNum _ | JArr _ => Return VUndefined
  end.

(** [j[0]] *)
Definition Get0 (j : json) : Completion value :=
  match j with
  | JNull => Throw TypeError
  | JArr elems => Return (match elems with x :: _ => VJson x | [] => VUndefined end)
  | JStr s =>
      Return (match s with String c _ => VJson (JStr (String c "")) | EmptyString => VUndefined end)
  | JObj fields =>
      Return (match own_property fields "0" with Some v => VJson v | None => VUndefined end)
  | JBool _ | JNum _ => Return VUndefined
  end.

(** [v === s] for a string literal [s] *)
Definition strict_equal_string (v : value) (s : string) : bool :=
  match v with
  | VJson (JStr s') => String.eqb s' s
  | _ => false
  end.

(** [s.slice(0, n)] *)
Definition slice0 (n : nat) (s : string) : string := String.substring 0 n s.

(** [parts.join('')] over values: [undefined] and [null] print as empty. *)
Definition join_empty (parts : list value) : Completion string :=
  strs ← mapM (fun v => match v with
                        | VUndefined | VJson JNull => Return ""
                        | _ => ToString_value v
                        end) parts;
  Return (String.concat "" strs).

(** What the engine provides.  [None] in [option Z] is [NaN].
    - [Date_parse s]: the time value of [new Date(s)] for a string.
    - [StringToNumber s]: the numeric value of a string operand.
    - [JSON_parse], [JSON_stringify].
    - [textContent html], [innerText html]: the two text properties of a
      detached [div] after [div.innerHTML = html].
    - [encodeURIComponent], [URLSearchParams_toString]. *)
Class Runtime : Type := {
  Date_parse : string -> option Z;
  StringToNumber : string -> option Z;
  JSON_parse : string -> option json;
  JSON_stringify : json -> string;
  textContent : string -> string;
  innerText : string -> string;
  encodeURIComponent : string -> string;
  URLSearchParams_toString : list (string * string) -> string;
}.

Section WithRuntime.
Context `{rt : Runtime}.

(** Numeric coercion of an operand of [-]. *)
Definition ToNumber (v : value) : Completion (option Z) :=
  match v with
  | VUndefined => Return None
  | VJson JNull => Return (Some 0%Z)
  | VJson (JBool b) => Return (Some (if b then 1%Z else 0%Z))
  | VJson (JNum n) => Return (Some n)
  | _ => s ← ToString_value v; Return (StringToNumber s)
  end.

(** [TimeClip] *)
Definition TimeClip (t : Z) : option Z :=
  if (Z.abs t <=? 8640000000000000)%Z then Some t else None.

(** The time value of [new Date(v)]: a string is parsed, an object is
    first converted to a string, anything else is taken as a number. *)
Definition Date_new (v : value) : Completion (option Z) :=
  match v with
  | VUndefined => Return None
  | VJson JNull => Return (TimeClip 0)
  | VJson (JBool b) => Return (TimeClip (if b then 1%Z else 0%Z))
  | VJson (JNum n) => Return (TimeClip n)
  | _ => s ← ToString_value v; Return (Date_parse s)
  end.

End WithRuntime.

End JS.
Export JS.

(** ** Configuration ([CONFIG], [FEEDS]) *)

Definition CACHE_DURATION_MS : Z := 60 * 60 * 1000.
Definition AUTO_REFRESH_MS : Z := 60 * 60 * 1000.
Definition RSS_PROXY : string := "https://api.rss2json.com/v1/api.json?rss_url=".
Definition MAX_ITEMS_PER_FEED : nat := 10.
Definition TRANSLATE_ENDPOINT : string :=
  "https://translate.googleapis.com/translate_a/single".

Record FeedSource : Type := {
  feed_url : string;
  feed_name : string;
  feed_lang : string;
}.

Definition FEEDS : list (string * list FeedSource) :=
  [ ("czech",
      [ {| feed_url := "https://russian.radio.cz/rss.xml";
           feed_name := "Radio Prague RU"; feed_lang := "ru" |};
        {| feed_url := "https://420on.cz/news/rss";
           feed_name := "420on.cz"; feed_lang := "ru" |};
        {| feed_url := "https://pražský-express.cz/feed";
           feed_name := "Prague Express"; feed_lang := "ru" |};
        {| feed_url := "https://www.novinky.cz/rss";
           feed_name := "Novinky.cz"; feed_lang := "cs" |};
        {| feed_url := "https://servis.idnes.cz/rss.aspx?c=zpravodaj";
           feed_name := "iDNES.cz"; feed_lang := "cs" |};
        {| feed_url := "https://www.irozhlas.cz/rss/irozhlas/section/zpravy-domov";
           feed_name := "iROZHLAS"; feed_lang := "cs" |} ]);
    ("estonia",
      [ {| feed_url := "https://rus.err.ee/rss";
           feed_name := "ERR RUS"; feed_lang := "ru" |};
        {| feed_url := "https://rus.postimees.ee/rss";
           feed_name := "Postimees RUS"; feed_lang := "ru" |};
        {| feed_url := "https://rus.delfi.ee/rss";
           feed_name := "Delfi RUS"; feed_lang := "ru" |};
        {| feed_url := "https://www.err.ee/rss";
           feed_name := "ERR.ee"; feed_lang := "et" |} ]);
    ("vaping",
      [ {| feed_url := "https://www.vapingpost.com/feed/";
           feed_name := "Vaping Post"; feed_lang := "en" |};
        {| feed_url := "https://vaping360.com/feed/";
           feed_name := "Vaping360"; feed_lang := "en" |};
        {| feed_url := "https://www.ecigintelligence.com/feed/";
           feed_name := "ECig Intelligence"; feed_lang := "en" |};
        {| feed_url := "https://www.planetofthevapes.co.uk/news/rss";
           feed_name := "Planet of the Vapes UK"; feed_lang := "en" |};
        {| feed_url := "https://filtermag.org/feed/";
           feed_name := "Filter Magazine"; feed_lang := "en" |} ]) ].

(** Names every object inherits from [Object.prototype]: [FEEDS[name]]
    finds a method (or the prototype itself) under them. *)
Definition Object_prototype_keys : list string :=
  [ "constructor"; "hasOwnProperty"; "isPrototypeOf"; "propertyIsEnumerable";
    "toLocaleString"; "toString"; "valueOf"; "__proto__";
    "__defineGetter__"; "__defineSetter__"; "__lookupGetter__"; "__lookupSetter__" ].

Fixpoint alist_get {A} (k : string) (l : list (string * A)) : option A :=
  match l with
  | [] => None
  | (k', v) :: rest => if String.eqb k' k then Some v else alist_get k rest
  end.

(** ** The network and the mutable state of the page *)

Record Response : Type := {
  ok : bool;
  status : Z;
  (** what [resp.json()] resolves to; [None] when it rejects *)
  json_body : option json;
}.

(** [fetch(url)]: [None] when the promise rejects. *)
Definition Network : Type := string -> option Response.

(** [translationCache] is the module-level [Map]; [requests] records the
    URLs handed to [fetch], oldest first. *)
Record World : Type := {
  translationCache : gmap string string;
  requests : list string;
}.

Definition log_request (url : string) (w : World) : World :=
  {| translationCache := translationCache w; requests := requests w ++ [url] |}.

Definition cache_translation (key translated : string) (w : World) : World :=
  {| translationCache := <[key := translated]> (translationCache w);
     requests := requests w |}.

(** [localStorage]: when [storage_available] is off every access
    throws; a write that would take the stored keys and values beyond
    [storage_quota] code units throws and stores nothing. *)
Record Storage : Type := {
  storage_available : bool;
  storage_items : gmap string string;
  storage_quota : nat;
}.

Definition storage_size (m : gmap string string) : nat :=
  map_fold (fun k v acc => String.length k + String.length v + acc) 0 m.

Definition localStorage_getItem (st : Storage) (key : string) : Completion (option string) :=
  if storage_available st then Return (storage_items st !! key)
  else Throw SecurityError.

Definition localStorage_setItem (st : Storage) (key text : string) : Completion Storage :=
  if storage_available st then
    let items' := <[key := text]> (storage_items st) in
    if (storage_size items' <=? storage_quota st)%nat
    then Return {| storage_available := true;
                   storage_items := items';
                   storage_quota := storage_quota st |}
    else Throw QuotaExceededError
  else Throw SecurityError.

(** ** News items *)

Record NewsItem : Type := {
  title : string;
  description : string;
  link : value;
  pubDate : value;
  source : string;
  lang : string;
  originalTitle : option string;
}.

Section App.
Context `{rt : Runtime}.

(** ** Translation *)

Definition translate_cacheKey (text fromLang : string) : string :=
  fromLang +:+ ":" +:+ slice0 100 text.

Definition translate_url (text fromLang : string) : string :=
  TRANSLATE_ENDPOINT +:+ "?" +:+
  URLSearchParams_toString
    [ ("client", "gtx"); ("sl", fromLang); ("tl", "ru"); ("dt", "t"); ("q", text) ].

(** [data[0].map(part => part[0]).join('')] *)
Definition decode_translation (data : json) : Completion string :=
  first ← Get0 data;
  match first with
  | VJson (JArr parts) => heads ← mapM Get0 parts; join_empty heads
  | _ => Throw TypeError
  end.

(** The [try] block of [translateText] once [fetch] has settled:
    [Return None] is the early [return text] on [!resp.ok]. *)
Definition translateText_try (resp : option Response) : Completion (option string) :=
  match resp with
  | None => Throw NetworkError
  | Some resp =>
      if negb (ok resp) then Return None
      else match json_body resp with
           | None => Throw SyntaxError
           | Some data => translated ← decode_translation data; Return (Some translated)
           end
  end.

(** A call of [translateText] that has run up to its first [await]. *)
Inductive TranslateTask : Type :=
| TDone (result : string)
| TAwait (text cacheKey url : string).

Definition translateText_begin (text fromLang : string) (w : World)
  : TranslateTask * World :=
  if String.eqb text "" || String.eqb fromLang "ru" then (TDone text, w)
  else
    let cacheKey := translate_cacheKey text fromLang in
    match translationCache w !! cacheKey with
    | Some cached => (TDone cached, w)
    | None =>
        let url := translate_url text fromLang in
        (TAwait text cacheKey url, log_request url w)
    end.

Definition translateText_resume (net : Network) (task : TranslateTask) (w : World)
  : string * World :=
  match task with
  | TDone result => (result, w)
  | TAwait text cacheKey url =>
      match translateText_try (net url) with
      | Return (Some translated) => (translated, cache_translation cacheKey translated w)
      | Return None => (text, w)
      | Throw _ => (text, w)
      end
  end.

Definition translateText (net : Network) (text fromLang : string) (w : World)
  : string * World :=
  let '(task, w1) := translateText_begin text fromLang w in
  translateText_resume net task w1.

Inductive ItemTask : Type :=
| IDone (item : NewsItem)
| IAwait (item : NewsItem) (title_task description_task : TranslateTask).

(** [Promise.all] starts both translations before either is resumed. *)
Definition translateItem_begin (item : NewsItem) (fromLang : string) (w : World)
  : ItemTask * World :=
  if String.eqb fromLang "ru" then (IDone item, w)
  else
    let '(t1, w1) := translateText_begin (title item) fromLang w in
    let '(t2, w2) :=
      if negb (String.eqb (description item) "")
      then translateText_begin (description item) fromLang w1
      else (TDone "", w1) in
    (IAwait item t1 t2, w2).

Definition translateItem_resume (net : Network) (task : ItemTask) (w : World)
  : NewsItem * World :=
  match task with
  | IDone item => (item, w)
  | IAwait item t1 t2 =>
      let '(title', w1) := translateText_resume net t1 w in
      let '(description', w2) := translateText_resume net t2 w1 in
      ({| title := title'; description := description';
          link := link item; pubDate := pubDate item;
          source := source item; lang := lang item;
          originalTitle := Some (title item) |}, w2)
  end.

Definition translateItem (net : Network) (item : NewsItem) (fromLang : string) (w : World)
  : NewsItem * World :=
  let '(task, w1) := translateItem_begin item fromLang w in
  translateItem_resume net task w1.

(** ** RSS fetching *)

(** [stripHtml]: [tmp.innerHTML = html] converts its operand to a string. *)
Definition stripHtml (html : value) : Completion string :=
  s ← ToString_value html;
  let text := textContent s in
  if negb (String.eqb text "") then Return text
  else
    let inner := innerText s in
    if negb (String.eqb inner "") then Return inner else Return "".

(** The callback of [data.items.slice(...).map(...)]. *)
Definition rawItem (feedConfig : FeedSource) (item : json) : Completion NewsItem :=
  t ← Get item "title";
  title' ← stripHtml (or_else t (VJson (JStr "")));
  d ← Get item "description";
  description' ← stripHtml (or_else d (VJson (JStr "")));
  l ← Get item "link";
  p ← Get item "pubDate";
  Return {| title := title';
            description := slice0 300 description';
            link := or_else l (VJson (JStr "#"));
            pubDate := or_else p (VJson (JStr ""));
            source := feed_name feedConfig;
            lang := feed_lang feedConfig;
            originalTitle := None |}.

(** The [try] block of [fetchFeed] from the settled [fetch] to
    [rawItems]; the early [return []] is [Return []]. *)
Definition fetchFeed_rawItems (feedConfig : FeedSource) (resp : option Response)
  : Completion (list NewsItem) :=
  match resp with
  | None => Throw NetworkError
  | Some resp =>
      if negb (ok resp) then Throw (HttpError (status resp))
      else match json_body resp with
           | None => Throw SyntaxError
           | Some data =>
               st ← Get data "status";
               if negb (strict_equal_string st "ok") then Return []
               else
                 its ← Get data "items";
                 if negb (ToBoolean its) then Return []
                 else match its with
                      | VJson (JArr entries) =>
                          mapM (rawItem feedConfig) (take MAX_ITEMS_PER_FEED entries)
                      | _ => Throw TypeError
                      end
           end
  end.

(** [rawItems.map(item => translateItem(item, lang))] starts every
    translation; [Promise.all] then waits for all of them. *)
Fixpoint translateItems_begin (items : list NewsItem) (fromLang : string) (w : World)
  : list ItemTask * World :=
  match items with
  | [] => ([], w)
  | item :: rest =>
      let '(task, w1) := translateItem_begin item fromLang w in
      let '(tasks, w2) := translateItems_begin rest fromLang w1 in
      (task :: tasks, w2)
  end.

Fixpoint translateItems_resume (net : Network) (tasks : list ItemTask) (w : World)
  : list NewsItem * World :=
  match tasks with
  | [] => ([], w)
  | task :: rest =>
      let '(item, w1) := translateItem_resume net task w in
      let '(items, w2) := translateItems_resume net rest w1 in
      (item :: items, w2)
  end.

Definition proxyUrl (feedConfig : FeedSource) : string :=
  RSS_PROXY +:+ encodeURIComponent (feed_url feedConfig).

(** [fetchFeed] up to [await fetch(proxyUrl)]. *)
Definition fetchFeed_begin (feedConfig : FeedSource) (w : World) : World :=
  log_request (proxyUrl feedConfig) w.

(** [fetchFeed] from the settled [fetch] on; the [catch] returns [[]]. *)
Definition fetchFeed_resume (net : Network) (feedConfig : FeedSource) (w : World)
  : Completion (list NewsItem) * World :=
  match fetchFeed_rawItems feedConfig (net (proxyUrl feedConfig)) with
  | Throw err => (Return [], w)
  | Return rawItems =>
      if negb (String.eqb (feed_lang feedConfig) "ru") then
        let '(tasks, w1) := translateItems_begin rawItems (feed_lang feedConfig) w in
        let '(translated, w2) := translateItems_resume net tasks w1 in
        (Return translated, w2)
      else (Return rawItems, w)
  end.

Definition fetchFeed (net : Network) (feedConfig : FeedSource) (w : World)
  : Completion (list NewsItem) * World :=
  fetchFeed_resume net feedConfig (fetchFeed_begin feedConfig w).

(** *** Section aggregation *)

(** [(a, b) => new Date(b.pubDate) - new Date(a.pubDate)]; [None] is [NaN]. *)
Definition comparefn (a b : NewsItem) : Completion (option Z) :=
  tb ← Date_new (pubDate b);
  ta ← Date_new (pubDate a);
  Return (match tb, ta with
          | Some tb, Some ta => Some (tb - ta)%Z
          | _, _ => None
          end).

(** [SortCompare]: a comparator result of [NaN] counts as [+0]. *)
Definition SortCompare {A} (cmp : A -> A -> Completion (option Z)) (x y : A)
  : Completion Z :=
  v ← cmp x y; Return (default 0%Z v).

(** [Array.prototype.sort] as a stable insertion sort.  The language fixes
    the result (sorted, equal elements in their original order) when the
    comparator is consistent; any other order is up to the engine. *)
Fixpoint sort_insert {A} (cmp : A -> A -> Completion (option Z)) (x : A) (l : list A)
  : Completion (list A) :=
  match l with
  | [] => Return [x]
  | y :: l' =>
      c ← SortCompare cmp x y;
      if (c <=? 0)%Z then Return (x :: y :: l')
      else r ← sort_insert cmp x l'; Return (y :: r)
  end.

Fixpoint Array_sort {A} (cmp : A -> A -> Completion (option Z)) (l : list A)
  : Completion (list A) :=
  match l with
  | [] => Return []
  | x :: l' => sorted ← Array_sort cmp l'; sort_insert cmp x sorted
  end.

(** [FEEDS[section] || []], then [feeds.map]: a name inherited from
    [Object.prototype] yields something without a [map] method. *)
Definition section_feeds (section : string) : Completion (list FeedSource) :=
  match alist_get section FEEDS with
  | Some feeds => Return feeds
  | None =>
      if bool_decide (section ∈ Object_prototype_keys) then Throw TypeError
      else Return []
  end.

Definition fetchFeeds_begin (feeds : list FeedSource) (w : World) : World :=
  foldl (fun w f => fetchFeed_begin f w) w feeds.

(** One course of the answers: the feeds settle in the order of [feeds],
    each with all its translations before the next.  The results are in
    the order of [feeds] in every course, as [Promise.allSettled] keeps
    it; which translations are taken from the memo depends on the
    course. *)
Fixpoint fetchFeeds_resume (net : Network) (feeds : list FeedSource) (w : World)
  : list (Completion (list NewsItem)) * World :=
  match feeds with
  | [] => ([], w)
  | f :: rest =>
      let '(r, w1) := fetchFeed_resume net f w in
      let '(rs, w2) := fetchFeeds_resume net rest w1 in
      (r :: rs, w2)
  end.

(** [results.filter(r => r.status === 'fulfilled').flatMap(r => r.value)] *)
Definition fulfilled_values {A} (results : list (Completion (list A))) : list A :=
  flat_map (fun r => match r with Return v => v | Throw _ => [] end) results.

Definition fetchSection_begin (section : string) (w : World)
  : Completion (list FeedSource) * World :=
  match section_feeds section with
  | Return feeds => (Return feeds, fetchFeeds_begin feeds w)
  | Throw e => (Throw e, w)
  end.

Definition fetchSection_resume (net : Network) (feeds : Completion (list FeedSource))
  (w : World) : Completion (list NewsItem) * World :=
  match feeds with
  | Throw e => (Throw e, w)
  | Return feeds =>
      let '(results, w1) := fetchFeeds_resume net feeds w in
      (Array_sort comparefn (fulfilled_values results), w1)
  end.

Definition fetchSection (net : Network) (section : string) (w : World)
  : Completion (list NewsItem) * World :=
  let '(feeds, w1) := fetchSection_begin section w in
  fetchSection_resume net feeds w1.

(** ** Cache helpers ([localStorage]) *)

(** A news item as [JSON.stringify] writes it: the properties in the
    order in which they were set, one whose value is a function or
    [undefined] left out. *)
Definition NewsItem_toJSON (item : NewsItem) : json :=
  JObj ([ ("title", JStr (title item)); ("description", JStr (description item)) ]
        ++ match link item with VJson j => [("link", j)] | _ => [] end
        ++ match pubDate item with VJson j => [("pubDate", j)] | _ => [] end
        ++ [ ("source", JStr (source item)); ("lang", JStr (lang item)) ]
        ++ match originalTitle item with Some t => [("originalTitle", JStr t)] | None => [] end).

Definition CacheEntry (timestamp : Z) (items : list NewsItem) : json :=
  JObj [ ("timestamp", JNum timestamp); ("items", JArr (map NewsItem_toJSON items)) ].

Definition storage_key (section : string) : string := "news_" +:+ section.

(** [Date.now() - data.timestamp > CONFIG.CACHE_DURATION_MS]; a
    comparison with [NaN] is false. *)
Definition age_exceeds (now : Z) (timestamp : option Z) : bool :=
  match timestamp with
  | Some t => (CACHE_DURATION_MS <? now - t)%Z
  | None => false
  end.

Definition getCachedData_try (now : Z) (section : string) (st : Storage)
  : Completion (option json) :=
  raw ← localStorage_getItem st (storage_key section);
  match raw with
  | None => Return None
  | Some raw =>
      if String.eqb raw "" then Return None
      else match JSON_parse raw with
           | None => Throw SyntaxError
           | Some data =>
               ts ← Get data "timestamp";
               t ← ToNumber ts;
               if age_exceeds now t then Return None else Return (Some data)
           end
  end.

(** [getCachedData]; [None] is [null]. *)
Definition getCachedData (now : Z) (section : string) (st : Storage) : option json :=
  try_catch (getCachedData_try now section st) (fun _ => None).

Definition setCachedData (now : Z) (section : string) (items : list NewsItem) (st : Storage)
  : Storage :=
  try_catch
    (localStorage_setItem st (storage_key section) (JSON_stringify (CacheEntry now items)))
    (fun _ => st).

(** ** Main app logic *)

(** What [renderItems] is handed: the freshly fetched list, or the
    [items] property of a parsed cache entry. *)
Inductive ItemsArg : Type :=
| FreshItems (items : list NewsItem)
| StoredItems (items : value).

(** The render boundary.  [renderItems now items section] is the markup
    that [renderItems], called at the time [now], assigns to
    [container.innerHTML], or the exception it stops with before
    assigning anything. *)
Class Renderer : Type := {
  renderItems : Z -> ItemsArg -> string -> Completion string;
}.

Context `{rd : Renderer}.

(** The content of a feed container. *)
Inductive Content : Type :=
| Untouched
| Skeletons
| Items (html : string)
| ErrorMsg.

(** The page: the two module-level variables, the elements the code looks
    up by id, [localStorage], and the translation memo with the log of
    requests.  [refresh_btn] holds whether the button carries the class
    [spinning]; [last_updated] holds the time last written to the
    [last-updated] element.  An element that does not exist is [None]. *)
Record Page : Type := {
  currentTab : string;
  isRefreshing : bool;
  containers : gmap string Content;
  refresh_btn : option bool;
  last_updated : option (option Z);
  storage : Storage;
  world : World;
}.

Definition set_container (section : string) (c : Content) (p : Page) : Page :=
  {| currentTab := currentTab p; isRefreshing := isRefreshing p;
     containers := <[section := c]> (containers p);
     refresh_btn := refresh_btn p; last_updated := last_updated p;
     storage := storage p; world := world p |}.

Definition set_storage (st : Storage) (p : Page) : Page :=
  {| currentTab := currentTab p; isRefreshing := isRefreshing p;
     containers := containers p;
     refresh_btn := refresh_btn p; last_updated := last_updated p;
     storage := st; world := world p |}.

Definition set_world (w : World) (p : Page) : Page :=
  {| currentTab := currentTab p; isRefreshing := isRefreshing p;
     containers := containers p;
     refresh_btn := refresh_btn p; last_updated := last_updated p;
     storage := storage p; world := w |}.

Definition set_isRefreshing (b : bool) (p : Page) : Page :=
  {| currentTab := currentTab p; isRefreshing := b;
     containers := containers p;
     refresh_btn := refresh_btn p; last_updated := last_updated p;
     storage := storage p; world := world p |}.

(** [if (btn) btn.classList.add/remove('spinning')] *)
Definition set_spinning (b : bool) (p : Page) : Page :=
  {| currentTab := currentTab p; isRefreshing := isRefreshing p;
     containers := containers p;
     refresh_btn := (fun _ => b) <$> refresh_btn p; last_updated := last_updated p;
     storage := storage p; world := world p |}.

Definition updateTimestamp (now : Z) (p : Page) : Page :=
  {| currentTab := currentTab p; isRefreshing := isRefreshing p;
     containers := containers p;
     refresh_btn := refresh_btn p;
     last_updated := (fun _ => Some now) <$> last_updated p;
     storage := storage p; world := world p |}.

Definition switchTab (tab : string) (p : Page) : Page :=
  {| currentTab := tab; isRefreshing := isRefreshing p;
     containers := containers p;
     refresh_btn := refresh_btn p; last_updated := last_updated p;
     storage := storage p; world := world p |}.

(** [renderItems(container, items, section)] *)
Definition render_into (now : Z) (section : string) (items : ItemsArg) (p : Page)
  : Completion Page :=
  html ← renderItems now items section;
  Return (set_container section (Items html) p).

(** A call of [loadSection] that has run up to [await fetchSection]. *)
Inductive LoadTask : Type :=
| LDone
| LAwait (section : string) (feeds : Completion (list FeedSource)).

Definition loadSection_begin (now : Z) (section : string) (forceRefresh : bool) (p : Page)
  : Completion LoadTask * Page :=
  match containers p !! section with
  | None => (Return LDone, p)
  | Some _ =>
      let fetching :=
        let p1 := set_container section Skeletons p in
        let '(feeds, w1) := fetchSection_begin section (world p1) in
        (Return (LAwait section feeds), set_world w1 p1) in
      if forceRefresh then fetching
      else
        match getCachedData now section (storage p) with
        | Some cached =>
            if ToBoolean (VJson cached) then
              match items ← Get cached "items"; render_into now section (StoredItems items) p with
              | Return p' => (Return LDone, p')
              | Throw e => (Throw e, p)
              end
            else fetching
        | None => fetching
        end
  end.

(** The [catch] block of [loadSection]: the stale entry if it can be
    read and rendered, the error message otherwise. *)
Definition loadSection_catch (now : Z) (section : string) (p : Page) : Page :=
  let stale : Completion (option Page) :=
    raw ← localStorage_getItem (storage p) (storage_key section);
    match raw with
    | None => Return None
    | Some raw =>
        if String.eqb raw "" then Return None
        else match JSON_parse raw with
             | None => Throw SyntaxError
             | Some data =>
                 items ← Get data "items";
                 p' ← render_into now section (StoredItems items) p;
                 Return (Some p')
             end
    end in
  match stale with
  | Return (Some p') => p'
  | Return None | Throw _ => set_container section ErrorMsg p
  end.

Definition loadSection_resume (net : Network) (now : Z) (task : LoadTask) (p : Page) : Page :=
  match task with
  | LDone => p
  | LAwait section feeds =>
      let '(result, w1) := fetchSection_resume net feeds (world p) in
      let p1 := set_world w1 p in
      match result with
      | Return items =>
          let p2 := set_storage (setCachedData now section items (storage p1)) p1 in
          match render_into now section (FreshItems items) p2 with
          | Return p3 => p3
          | Throw _ => loadSection_catch now section p2
          end
      | Throw _ => loadSection_catch now section p1
      end
  end.

(** [Promise.all([loadSection('czech', true), ...])]: the three calls
    start in this order. *)
Fixpoint loadSections_begin (now : Z) (sections : list string) (p : Page)
  : list (Completion LoadTask) * Page :=
  match sections with
  | [] => ([], p)
  | section :: rest =>
      let '(task, p1) := loadSection_begin now section true p in
      let '(tasks, p2) := loadSections_begin now rest p1 in
      (task :: tasks, p2)
  end.

Definition refresh_sections : list string := ["czech"; "estonia"; "vaping"].

(** [refreshAll] up to [await Promise.all(...)]; [None] is the early
    [return] taken while [isRefreshing] is set. *)
Definition refreshAll_begin (now : Z) (p : Page)
  : option (list (Completion LoadTask)) * Page :=
  if isRefreshing p then (None, p)
  else
    let p1 := set_spinning true (set_isRefreshing true p) in
    let '(tasks, p2) := loadSections_begin now refresh_sections p1 in
    (Some tasks, p2).

(** [refreshAll] after [await Promise.all(...)]. *)
Definition refreshAll_finish (now : Z) (p : Page) : Page :=
  set_spinning false (set_isRefreshing false (updateTimestamp now p)).

(** The [visibilitychange] listener. *)
Definition on_visibilitychange (now : Z) (visible : bool) (p : Page)
  : option (list (Completion LoadTask)) * Page :=
  if visible then
    let fresh (section : string) : bool :=
      match getCachedData now section (storage p) with
      | Some cached => ToBoolean (VJson cached)
      | None => false
      end in
    if negb (fresh "czech") || negb (fresh "estonia") || negb (fresh "vaping")
    then refreshAll_begin now p
    else (None, p)
  else (None, p).

(** *** The page as a transition system

    Beside the page the system keeps what is still awaited: for each
    call of [refreshAll] that is waiting, the three loads it started
    (a load that has settled is [Return LDone]), and the initial loads
    that are under way.  An event is the document becoming ready, a call
    of [refreshAll] (button, timer), a visibility change, a tab switch,
    or the settling of one load's fetches. *)
Record System : Type := {
  page : Page;
  in_flight : list (list (Completion LoadTask));
  loading : list LoadTask;
}.

Inductive Event : Type :=
| DOMContentLoaded (now : Z)
| CallRefreshAll (now : Z)
| VisibilityChange (now : Z) (visible : bool)
| SwitchTab (tab : string)
| Settle (net : Network) (now : Z) (i : nat)
| SettleLoad (net : Network) (now : Z) (i : nat).

(** A load still waiting for its fetches. *)
Definition waiting (task : Completion LoadTask) : bool :=
  match task with
  | Return (LAwait _ _) => true
  | Return LDone | Throw _ => false
  end.

Definition rejected {A} (c : Completion A) : bool :=
  match c with Throw _ => true | Return _ => false end.

(** [await Promise.all(loads)] in [refreshAll]: a rejected load ends the
    call there and then, with nothing after the [await] run; when no
    load is waiting any more the rest of [refreshAll] runs; otherwise the
    call goes on waiting. *)
Definition await_all (now : Z) (loads : list (Completion LoadTask)) (p : Page)
  : Page * list (list (Completion LoadTask)) :=
  if existsb rejected loads then (p, [])
  else if existsb waiting loads then (p, [loads])
  else (refreshAll_finish now p, []).

(** The initial loads: [loadSection(section)] without forcing, one
    section after the other.  Only the calls that wait for their fetches
    are kept. *)
Fixpoint initial_loads (now : Z) (sections : list string) (p : Page) : list LoadTask * Page :=
  match sections with
  | [] => ([], p)
  | section :: rest =>
      let '(task, p1) := loadSection_begin now section false p in
      let '(tasks, p2) := initial_loads now rest p1 in
      (match task with Return (LAwait _ _ as t) => [t] | _ => [] end ++ tasks, p2)
  end.

Definition started (now : Z) (r : option (list (Completion LoadTask)) * Page) (s : System)
  : System :=
  match r with
  | (Some loads, p) =>
      let '(p', still) := await_all now loads p in
      {| page := p'; in_flight := in_flight s ++ still; loading := loading s |}
  | (None, p) => {| page := p; in_flight := in_flight s; loading := loading s |}
  end.

(** [Settle net now i]: the fetches of load [i] of the call of
    [refreshAll] that has waited longest settle.  [SettleLoad] does the
    same for an initial load. *)
Definition step (e : Event) (s : System) : System :=
  match e with
  | DOMContentLoaded now =>
      let '(tasks, p) := initial_loads now refresh_sections (page s) in
      {| page := updateTimestamp now p; in_flight := in_flight s;
         loading := loading s ++ tasks |}
  | CallRefreshAll now => started now (refreshAll_begin now (page s)) s
  | VisibilityChange now visible =>
      started now (on_visibilitychange now visible (page s)) s
  | SwitchTab tab =>
      {| page := switchTab tab (page s); in_flight := in_flight s; loading := loading s |}
  | Settle net now i =>
      match in_flight s with
      | [] => s
      | loads :: rest =>
          match loads !! i with
          | Some (Return (LAwait _ _ as task)) =>
              let p := loadSection_resume net now task (page s) in
              let '(p', still) := await_all now (<[i := Return LDone]> loads) p in
              {| page := p'; in_flight := still ++ rest; loading := loading s |}
          | _ => s
          end
      end
  | SettleLoad net now i =>
      match loading s !! i with
      | Some task =>
          {| page := loadSection_resume net now task (page s);
             in_flight := in_flight s; loading := delete i (loading s) |}
      | None => s
      end
  end.

Definition run (events : list Event) (s : System) : System :=
  foldl (fun s e => step e s) s events.

End App.

(** ** Rendering

    What the document provides to the rendering code:
    - [innerHTML_of_text s]: [div.innerHTML] after [div.textContent = s],
      the serialisation of one text node;
    - [toLocaleDateString t]: the day and short month of a valid time
      value in the locale [ru-RU]. *)
Class Dom : Type := {
  innerHTML_of_text : string -> string;
  toLocaleDateString : Z -> string;
}.

(** [s.replace(/c/g, by)] for a pattern of one character [c] *)
Fixpoint replace_all (c : ascii) (replacement s : string) : string :=
  match s with
  | EmptyString => EmptyString
  | String a rest =>
      if Ascii.eqb a c then replacement +:+ replace_all c replacement rest
      else String a (replace_all c replacement rest)
  end.

(** Markup is written as in the source, with a backquote where the
    source has a double quote. *)
Definition markup (s : string) : string := replace_all "`" (String "034" "") s.

Definition escapeAttr_string (s : string) : string :=
  replace_all ">" "&gt;"
    (replace_all "<" "&lt;"
       (replace_all "'" "&#39;"
          (replace_all "034" "&quot;"
             (replace_all "&" "&amp;" s)))).

(** [escapeAttr(str)]: [str.replace] is a function only on a string. *)
Definition escapeAttr (str : value) : Completion string :=
  match str with
  | VJson (JStr s) => Return (escapeAttr_string s)
  | _ => Throw TypeError
  end.

Section Rendering.
Context `{rt : Runtime} `{dom : Dom}.

(** [escapeHtml(str)]: the setter of [textContent] takes [null] and
    [undefined] for the empty string and converts anything else to a
    string. *)
Definition escapeHtml (str : value) : Completion string :=
  match str with
  | VUndefined | VJson JNull => Return (innerHTML_of_text "")
  | _ => s ← ToString_value str; Return (innerHTML_of_text s)
  end.

(** Arithmetic on numbers that may be [NaN]. *)
Definition floor_div (x : option Z) (d : Z) : option Z := (fun v => v / d)%Z <$> x.
Definition less_than (x : option Z) (n : Z) : bool :=
  match x with Some v => (v <? n)%Z | None => false end.
Definition Number_toString (x : option Z) : string :=
  match x with Some v => pretty v | None => "NaN" end.

(** [timeAgo(dateStr)], called at the time [now]. *)
Definition timeAgo (now : Z) (dateStr : value) : Completion string :=
  if negb (ToBoolean dateStr) then Return ""
  else
    date ← Date_new dateStr;
    let diffMs := (fun t => now - t)%Z <$> date in
    let diffMin := floor_div diffMs 60000 in
    let diffHr := floor_div diffMin 60 in
    let diffDay := floor_div diffHr 24 in
    if less_than diffMin 1 then Return "только что"
    else if less_than diffMin 60 then Return (Number_toString diffMin +:+ " мин назад")
    else if less_than diffHr 24 then Return (Number_toString diffHr +:+ " ч назад")
    else if less_than diffDay 7 then Return (Number_toString diffDay +:+ " дн назад")
    else Return (match date with
                 | Some t => toLocaleDateString t
                 | None => "Invalid Date"
                 end).

(** The block shown for a section without news. *)
Definition empty_state (section : string) : string :=
  markup "
            <div class=`empty-state`>
                <div class=`icon`>"
  +:+ (if String.eqb section "czech" then "🇨🇿"
       else if String.eqb section "estonia" then "🇪🇪" else "💨")
  +:+ markup "</div>
                <p>Нет новостей для отображения.<br>Попробуйте обновить позже.</p>
            </div>".

(** One card.  [get k] is [item[k]]; the properties are read in the
    order in which the template reads them. *)
Definition card (now : Z) (section : string) (get : string -> Completion value)
  : Completion string :=
  lang' ← get "lang";
  let isTranslated := ToBoolean lang' && negb (strict_equal_string lang' "ru") in
  let translatedTag :=
    if isTranslated then markup "<span class=`translated-tag`>перевод</span>" else "" in
  link' ← get "link";
  href' ← escapeAttr link';
  source' ← get "source";
  badge ← escapeHtml source';
  title' ← get "title";
  heading ← escapeHtml title';
  description' ← get "description";
  body ← (if ToBoolean description'
          then text ← escapeHtml description';
               Return (markup "<div class=`description`>" +:+ text +:+ "</div>")
          else Return "");
  pubDate' ← get "pubDate";
  ago ← timeAgo now pubDate';
  originalTitle' ← get "originalTitle";
  hint ← (if ToBoolean originalTitle'
          then text ← escapeAttr originalTitle';
               Return (markup "<span class=`original-hint` title=`" +:+ text
                       +:+ markup "`>📄 оригинал</span>")
          else Return "");
  Return (markup "
        <article class=`news-card` data-section=`" +:+ section +:+ markup "`>
            <a href=`" +:+ href' +:+ markup "` target=`_blank` rel=`noopener noreferrer`>
                <div class=`card-header`>
                    <span class=`source-badge`>" +:+ badge +:+ "</span>
                    " +:+ translatedTag +:+ markup "
                </div>
                <div class=`title`>" +:+ heading +:+ "</div>
                " +:+ body +:+ markup "
                <div class=`meta`>
                    <span>" +:+ ago +:+ "</span>
                    " +:+ hint +:+ "
                </div>
            </a>
        </article>").

(** The properties of an item as [fetchFeed] builds it. *)
Definition NewsItem_get (item : NewsItem) (k : string) : value :=
  if String.eqb k "title" then VJson (JStr (title item))
  else if String.eqb k "description" then VJson (JStr (description item))
  else if String.eqb k "link" then link item
  else if String.eqb k "pubDate" then pubDate item
  else if String.eqb k "source" then VJson (JStr (source item))
  else if String.eqb k "lang" then VJson (JStr (lang item))
  else if String.eqb k "originalTitle"
  then match originalTitle item with Some t => VJson (JStr t) | None => VUndefined end
  else VUndefined.

(** [renderItems(container, items, section)]: the markup assigned to
    [container.innerHTML].  One time [now] stands for the [new Date()] of
    every card.  Of the values a stored entry can hold under [items],
    only an array has a [map] method. *)
Definition renderItems_markup (now : Z) (items : ItemsArg) (section : string)
  : Completion string :=
  match items with
  | FreshItems [] => Return (empty_state section)
  | FreshItems l =>
      cards ← mapM (fun item => card now section (fun k => Return (NewsItem_get item k))) l;
      Return (String.concat "" cards)
  | StoredItems v =>
      if negb (ToBoolean v) then Return (empty_state section)
      else match v with
           | VJson (JArr []) => Return (empty_state section)
           | VJson (JArr l) =>
               cards ← mapM (fun item => card now section (Get item)) l;
               Return (String.concat "" cards)
           | VJson (JObj fields) =>
               match own_property fields "length" with
               | Some (JNum 0) => Return (empty_state section)
               | _ => Throw TypeError
               end
           | _ => Throw TypeError
           end
  end.

Definition markup_renderer : Renderer := {| renderItems := renderItems_markup |}.

End Rendering.

(** ** The service worker

    A request carries what [new URL(event.request.url)] reads off it.
    The caches of the origin are kept in the order in which they were
    created, each a map from request URL to response; [caches.match]
    looks through them in that order.  Requests and responses are such
    as [cache.put] accepts (GET requests, complete responses). *)

Record Request : Type := {
  href : string;
  protocol : string;
  hostname : string;
}.

Definition CacheStorage : Type := list (string * gmap string Response).

(** What the handlers do to the network and the caches, oldest first. *)
Inductive Op : Type :=
| OpFetch (request : Request)
| OpCacheMatch (request : Request)
| OpCachePut (cache : string) (request : Request) (response : Response).

(** [NotIntercepted]: the handler returned without [respondWith].
    [Responded None]: the promise handed to [respondWith] gave no
    response, which the page sees as a network error. *)
Inductive Outcome : Type :=
| NotIntercepted
| Responded (response : option Response).

Definition caches_keys (cs : CacheStorage) : list string := map fst cs.

Definition caches_delete (key : string) (cs : CacheStorage) : CacheStorage :=
  List.filter (fun c => negb (String.eqb (fst c) key)) cs.

(** [caches.open(name)] creates the cache when there is none. *)
Definition caches_open (name : string) (cs : CacheStorage) : CacheStorage :=
  match alist_get name cs with
  | Some _ => cs
  | None => cs ++ [(name, ∅)]
  end.

(** [caches.open(name).then(cache => cache.put(request, response))] *)
Definition cache_put (name : string) (request : Request) (response : Response)
  (cs : CacheStorage) : CacheStorage :=
  map (fun c => if String.eqb (fst c) name
                then (fst c, <[href request := response]> (snd c))
                else c)
      (caches_open name cs).

Fixpoint caches_match (request : Request) (cs : CacheStorage) : option Response :=
  match cs with
  | [] => None
  | (_, cache) :: rest =>
      match cache !! href request with
      | Some r => Some r
      | None => caches_match request rest
      end
  end.

(** [fetch(event.request)] inside the worker: [None] when it rejects. *)
Definition SwNetwork : Type := Request -> option Response.

Definition STATIC_ASSETS : list string :=
  [ "./"; "./index.html"; "./style.css"; "./app.js"; "./manifest.json";
    "./icon-192.png"; "./icon-512.png" ].

(** A URL without its query and fragment. *)
Fixpoint without_query (url : string) : string :=
  match url with
  | EmptyString => EmptyString
  | String c rest =>
      if Ascii.eqb c "?" || Ascii.eqb c "#" then EmptyString
      else String c (without_query rest)
  end.

(** The part of a string up to its last [/]. *)
Fixpoint up_to_last_slash (s : string) : string :=
  match s with
  | EmptyString => EmptyString
  | String c rest =>
      match up_to_last_slash rest with
      | EmptyString => if Ascii.eqb c "/" then String c EmptyString else EmptyString
      | String _ _ as d => String c d
      end
  end.

(** The directory of a script: its URL up to the last [/] of the path. *)
Definition directory (url : string) : string := up_to_last_slash (without_query url).

(** [cache.addAll(requests)] on the cache [name], as the platform defines
    it: every request is fetched; the answers are stored only if each of
    them arrived with an OK status, and the promise rejects otherwise. *)
Definition Cache_addAll (name : string) (net : SwNetwork) (requests : list Request)
  (cs : CacheStorage) : Completion unit * CacheStorage :=
  let fetched :=
    mapM (fun request =>
            match net request with
            | Some r => if ok r then Return (request, r) else Throw TypeError
            | None => Throw TypeError
            end) requests in
  match fetched with
  | Return responses =>
      (Return tt, foldl (fun cs '(request, r) => cache_put name request r cs) cs responses)
  | Throw e => (Throw e, cs)
  end.

Section Worker.
(** [CACHE_NAME] and [self.location], the two things the variants and
    their deployments differ in. *)
Variable CACHE_NAME : string.
Variable location : Request.

(** The URL that a path of [STATIC_ASSETS] stands for in the worker:
    [cache.addAll] resolves it against the URL of the worker's script,
    which puts the path, without its leading [./], behind the directory
    of the script. *)
Definition resolve (path : string) : string :=
  directory (href location)
  +:+ (if String.prefix "./" path then String.substring 2 (String.length path - 2) path
       else path).

Definition asset_request (path : string) : Request :=
  {| href := resolve path; protocol := protocol location; hostname := hostname location |}.

(** [install]: [caches.open] creates the cache, [cache.addAll] fills it. *)
Definition install (net : SwNetwork) (cs : CacheStorage) : Completion unit * CacheStorage :=
  Cache_addAll CACHE_NAME net (map asset_request STATIC_ASSETS) (caches_open CACHE_NAME cs).

(** [activate]: [keys.filter(key => key !== CACHE_NAME).map(key => caches.delete(key))] *)
Definition activate (cs : CacheStorage) : CacheStorage :=
  foldl (fun cs key => caches_delete key cs) cs
        (List.filter (fun key => negb (String.eqb key CACHE_NAME)) (caches_keys cs)).

(** Network first: [fetch(request).then(store).catch(() => caches.match(request))].
    [store_if] says which responses are cloned into the cache. *)
Definition network_first (store_if : Response -> bool) (net : SwNetwork) (request : Request)
  (cs : CacheStorage) : Outcome * CacheStorage * list Op :=
  match net request with
  | Some response =>
      if store_if response
      then (Responded (Some response), cache_put CACHE_NAME request response cs,
            [OpFetch request; OpCachePut CACHE_NAME request response])
      else (Responded (Some response), cs, [OpFetch request])
  | None =>
      (Responded (caches_match request cs), cs, [OpFetch request; OpCacheMatch request])
  end.

(** Cache first: [caches.match(request).then(cached => cached || fetch(request))] *)
Definition cache_first (net : SwNetwork) (request : Request) (cs : CacheStorage)
  : Outcome * CacheStorage * list Op :=
  match caches_match request cs with
  | Some cached => (Responded (Some cached), cs, [OpCacheMatch request])
  | None => (Responded (net request), cs, [OpCacheMatch request; OpFetch request])
  end.

(** [url.protocol.startsWith('http')] *)
Definition is_http (request : Request) : bool :=
  String.prefix "http" (protocol request).

Definition same_origin (request : Request) : bool :=
  String.eqb (hostname request) (hostname location).

End Worker.

(** The variant of [src/sw.js]. *)
Module SwV1.

Definition CACHE_NAME : string := "news-pwa-v1".

Definition onfetch (location : Request) (net : SwNetwork) (request : Request)
  (cs : CacheStorage) : Outcome * CacheStorage * list Op :=
  if negb (same_origin location request)
  then network_first CACHE_NAME (fun _ => true) net request cs
  else cache_first net request cs.

End SwV1.

(** The variant of [src/unnamed/part_000], the later of the two. *)
Module SwV3.

Definition CACHE_NAME : string := "news-pwa-v3".

Definition onfetch (location : Request) (net : SwNetwork) (request : Request)
  (cs : CacheStorage) : Outcome * CacheStorage * list Op :=
  if negb (is_http request) then (NotIntercepted, cs, [])
  else if negb (same_origin location request)
  then network_first CACHE_NAME ok net request cs
  else network_first CACHE_NAME (fun _ => true) net request cs.

End SwV3.

(** ** A reference runtime

    A small executable [Runtime], used to run the model on concrete
    inputs.  It reads and writes JSON text with integer numbers, parses
    dates written as [YYYY-MM-DDTHH:mm:ssZ], reads strings of decimal
    digits as numbers, takes the text of an HTML fragment to be what is
    left once the tags are removed, and percent-encodes URL components.
    An engine understands more: what this runtime cannot read it takes
    for invalid.  Both agree on the sample inputs below. *)

Module Ref.

Definition code (c : ascii) : N := N_of_ascii c.
Definition char (n : N) : ascii := ascii_of_N n.
Definition dquote : string := String (char 34) "".

(** Hexadecimal digit *)
Definition hex_digit (n : N) : ascii :=
  if (n <? 10)%N then char (48 + n) else char (55 + n).

Definition hex_value (c : ascii) : option N :=
  let n := code c in
  if (48 <=? n)%N && (n <=? 57)%N then Some (n - 48)%N
  else if (65 <=? n)%N && (n <=? 70)%N then Some (n - 55)%N
  else if (97 <=? n)%N && (n <=? 102)%N then Some (n - 87)%N
  else None.

Definition is_digit (c : ascii) : bool := (48 <=? code c)%N && (code c <=? 57)%N.
Definition is_space (c : ascii) : bool :=
  let n := code c in (n =? 32)%N || (n =? 9)%N || (n =? 10)%N || (n =? 13)%N.

Fixpoint skip_ws (s : string) : string :=
  match s with
  | String c r => if is_space c then skip_ws r else s
  | EmptyString => s
  end.

(** Leading decimal digits of [s] as a number, and what follows them. *)
Fixpoint digits (acc : N) (s : string) : N * string :=
  match s with
  | String c r => if is_digit c then digits (10 * acc + (code c - 48)) r else (acc, s)
  | EmptyString => (acc, s)
  end.

Fixpoint strip_prefix (p s : string) : option string :=
  match p, s with
  | EmptyString, _ => Some s
  | String a p', String b s' => if Ascii.eqb a b then strip_prefix p' s' else None
  | String _ _, EmptyString => None
  end.

(** *** JSON text *)

Fixpoint escape (s : string) : string :=
  match s with
  | EmptyString => EmptyString
  | String c r =>
      let n := code c in
      if (n =? 34)%N || (n =? 92)%N then String (char 92) (String c (escape r))
      else if (n <? 32)%N then
        String (char 92) (String "u" (String "0" (String "0"
          (String (hex_digit (n / 16)) (String (hex_digit (n mod 16)) (escape r))))))
      else String c (escape r)
  end.

Definition quote (s : string) : string := dquote +:+ escape s +:+ dquote.

Fixpoint stringify (j : json) : string :=
  match j with
  | JNull => "null"
  | JBool true => "true"
  | JBool false => "false"
  | JNum n => pretty n
  | JStr s => quote s
  | JArr elems =>
      "[" +:+
      (fix go (l : list json) : string :=
         match l with
         | [] => ""
         | x :: l' =>
             stringify x +:+ match l' with [] => "" | _ :: _ => "," +:+ go l' end
         end) elems
      +:+ "]"
  | JObj fields =>
      "{" +:+
      (fix go (l : list (string * json)) : string :=
         match l with
         | [] => ""
         | (k, v) :: l' =>
             quote k +:+ ":" +:+ stringify v
             +:+ match l' with [] => "" | _ :: _ => "," +:+ go l' end
         end) fields
      +:+ "}"
  end.

(** The characters of a string literal after its opening quote. *)
Fixpoint parse_chars (s : string) : option (string * string) :=
  match s with
  | EmptyString => None
  | String c r =>
      let n := code c in
      if (n =? 34)%N then Some (EmptyString, r)
      else if (n <? 32)%N then None
      else if (n =? 92)%N then
        match r with
        | String e r1 =>
            let m := code e in
            let simple (d : N) :=
              '(str, rest) ← parse_chars r1; Some (String (char d) str, rest) in
            if (m =? 34)%N then simple 34%N
            else if (m =? 92)%N then simple 92%N
            else if (m =? 47)%N then simple 47%N
            else if (m =? 98)%N then simple 8%N
            else if (m =? 102)%N then simple 12%N
            else if (m =? 110)%N then simple 10%N
            else if (m =? 114)%N then simple 13%N
            else if (m =? 116)%N then simple 9%N
            else if (m =? 117)%N then
              match r1 with
              | String h1 (String h2 (String h3 (String h4 r2))) =>
                  a ← hex_value h1; b ← hex_value h2; c3 ← hex_value h3; d ← hex_value h4;
                  if (a =? 0)%N && (b =? 0)%N then
                    '(str, rest) ← parse_chars r2;
                    Some (String (char (16 * c3 + d)) str, rest)
                  else None
              | _ => None
              end
            else None
        | EmptyString => None
        end
      else '(str, rest) ← parse_chars r; Some (String c str, rest)
  end.

Definition parse_number (s : string) : option (json * string) :=
  let '(neg, s1) := match s with
                    | String c r => if (code c =? 45)%N then (true, r) else (false, s)
                    | EmptyString => (false, s)
                    end in
  match s1 with
  | String c r =>
      if is_digit c then
        let '(n, rest) := digits 0 s1 in
        (* no leading zero, no fraction, no exponent *)
        let leading_zero := (code c =? 48)%N && match r with
                                                | String c' _ => is_digit c'
                                                | EmptyString => false
                                                end in
        let more := match rest with
                    | String c' _ => (code c' =? 46)%N || (code c' =? 101)%N || (code c' =? 69)%N
                    | EmptyString => false
                    end in
        if leading_zero || more then None
        else Some (JNum (if neg then - Z.of_N n else Z.of_N n), rest)
      else None
  | EmptyString => None
  end.

Fixpoint parse_value (fuel : nat) (s : string) : option (json * string) :=
  match fuel with
  | O => None
  | S fuel =>
      match skip_ws s with
      | EmptyString => None
      | String c r as s' =>
          let n := code c in
          if (n =? 110)%N then r' ← strip_prefix "null" s'; Some (JNull, r')
          else if (n =? 116)%N then r' ← strip_prefix "true" s'; Some (JBool true, r')
          else if (n =? 102)%N then r' ← strip_prefix "false" s'; Some (JBool false, r')
          else if (n =? 34)%N then '(str, r') ← parse_chars r; Some (JStr str, r')
          else if (n =? 91)%N then
            match skip_ws r with
            | String c' r' =>
                if (code c' =? 93)%N then Some (JArr [], r')
                else '(l, r'') ← parse_elems fuel r; Some (JArr l, r'')
            | EmptyString => None
            end
          else if (n =? 123)%N then
            match skip_ws r with
            | String c' r' =>
                if (code c' =? 125)%N then Some (JObj [], r')
                else '(l, r'') ← parse_members fuel r; Some (JObj l, r'')
            | EmptyString => None
            end
          else parse_number s'
      end
  end
with parse_elems (fuel : nat) (s : string) : option (list json * string) :=
  match fuel with
  | O => None
  | S fuel =>
      '(v, r) ← parse_value fuel s;
      match skip_ws r with
      | String c r' =>
          if (code c =? 44)%N then '(vs, r'') ← parse_elems fuel r'; Some (v :: vs, r'')
          else if (code c =? 93)%N then Some ([v], r')
          else None
      | EmptyString => None
      end
  end
with parse_members (fuel : nat) (s : string) : option (list (string * json) * string) :=
  match fuel with
  | O => None
  | S fuel =>
      match skip_ws s with
      | String q r0 =>
          if (code q =? 34)%N then
            '(k, r1) ← parse_chars r0;
            match skip_ws r1 with
            | String colon r2 =>
                if (code colon =? 58)%N then
                  '(v, r) ← parse_value fuel r2;
                  match skip_ws r with
                  | String c r' =>
                      if (code c =? 44)%N then
                        '(ms, r'') ← parse_members fuel r'; Some ((k, v) :: ms, r'')
                      else if (code c =? 125)%N then Some ([(k, v)], r')
                      else None
                  | EmptyString => None
                  end
                else None
            | EmptyString => None
            end
          else None
      | EmptyString => None
      end
  end.

Definition parse (s : string) : option json :=
  '(v, r) ← parse_value (S (String.length s)) s;
  match skip_ws r with
  | EmptyString => Some v
  | String _ _ => None
  end.

(** *** Dates: [YYYY-MM-DDTHH:mm:ssZ] *)

Definition is_leap (y : Z) : bool :=
  ((y mod 4 =? 0) && negb (y mod 100 =? 0) || (y mod 400 =? 0))%Z.

Definition days_in_month (y m : Z) : Z :=
  if (m =? 2)%Z then (if is_leap y then 29 else 28)%Z
  else if ((m =? 4) || (m =? 6) || (m =? 9) || (m =? 11))%Z then 30%Z
  else 31%Z.

(** Days from 1970-01-01 to the given civil date. *)
Definition days_from_civil (y m d : Z) : Z :=
  let y' := (if m <=? 2 then y - 1 else y)%Z in
  let era := (y' / 400)%Z in
  let yoe := (y' - era * 400)%Z in
  let mp := (if 2 <? m then m - 3 else m + 9)%Z in
  let doy := ((153 * mp + 2) / 5 + d - 1)%Z in
  let doe := (yoe * 365 + yoe / 4 - yoe / 100 + doy)%Z in
  (era * 146097 + doe - 719468)%Z.

(** Exactly [n] decimal digits, then the rest. *)
Fixpoint fixed_digits (n : nat) (acc : Z) (s : string) : option (Z * string) :=
  match n with
  | O => Some (acc, s)
  | S n' =>
      match s with
      | String c r =>
          if is_digit c then fixed_digits n' (10 * acc + Z.of_N (code c - 48))%Z r
          else None
      | EmptyString => None
      end
  end.

Definition expect (n : N) (s : string) : option string :=
  match s with
  | String c r => if (code c =? n)%N then Some r else None
  | EmptyString => None
  end.

Definition Date_parse (s : string) : option Z :=
  '(y, s) ← fixed_digits 4 0 s; s ← expect 45 s;
  '(mo, s) ← fixed_digits 2 0 s; s ← expect 45 s;
  '(d, s) ← fixed_digits 2 0 s; s ← expect 84 s;
  '(h, s) ← fixed_digits 2 0 s; s ← expect 58 s;
  '(mi, s) ← fixed_digits 2 0 s; s ← expect 58 s;
  '(se, s) ← fixed_digits 2 0 s; s ← expect 90 s;
  match s with
  | EmptyString =>
      if ((1 <=? mo) && (mo <=? 12) && (1 <=? d) && (d <=? days_in_month y mo)
          && (h <=? 23) && (mi <=? 59) && (se <=? 59))%Z
      then Some ((((days_from_civil y mo d * 24 + h) * 60 + mi) * 60 + se) * 1000)%Z
      else None
  | String _ _ => None
  end.

(** *** Numbers written in decimal digits *)

Definition StringToNumber (s : string) : option Z :=
  match skip_ws s with
  | EmptyString => Some 0%Z
  | String c r as s' =>
      let '(neg, body) :=
        if (code c =? 45)%N then (true, r)
        else if (code c =? 43)%N then (false, r)
        else (false, s') in
      match body with
      | String c' _ =>
          if is_digit c' then
            let '(n, rest) := digits 0 body in
            match skip_ws rest with
            | EmptyString => Some (if neg then - Z.of_N n else Z.of_N n)%Z
            | String _ _ => None
            end
          else None
      | EmptyString => None
      end
  end.

(** *** Text of an HTML fragment: the tags are dropped *)

Fixpoint strip_tags (in_tag : bool) (s : string) : string :=
  match s with
  | EmptyString => EmptyString
  | String c r =>
      if in_tag then strip_tags (negb (code c =? 62)%N) r
      else if (code c =? 60)%N then strip_tags true r
      else String c (strip_tags false r)
  end.

Definition textContent (html : string) : string := strip_tags false html.

(** *** URL encoding *)

Definition is_alnum (c : ascii) : bool :=
  let n := code c in
  is_digit c || ((65 <=? n)%N && (n <=? 90)%N) || ((97 <=? n)%N && (n <=? 122)%N).

(** [- _ . ! ~ * ' ( )] *)
Definition is_mark (c : ascii) : bool :=
  let n := code c in
  (n =? 45)%N || (n =? 95)%N || (n =? 46)%N || (n =? 33)%N || (n =? 126)%N
  || (n =? 42)%N || (n =? 39)%N || (n =? 40)%N || (n =? 41)%N.

Definition percent (c : ascii) (rest : string) : string :=
  String "%" (String (hex_digit (code c / 16)) (String (hex_digit (code c mod 16)) rest)).

Fixpoint encodeURIComponent (s : string) : string :=
  match s with
  | EmptyString => EmptyString
  | String c r =>
      if is_alnum c || is_mark c then String c (encodeURIComponent r)
      else percent c (encodeURIComponent r)
  end.

(** [application/x-www-form-urlencoded]: [* - . _] and alphanumerics
    stay, a space becomes [+]. *)
Fixpoint form_encode (s : string) : string :=
  match s with
  | EmptyString => EmptyString
  | String c r =>
      let n := code c in
      if is_alnum c || (n =? 42)%N || (n =? 45)%N || (n =? 46)%N || (n =? 95)%N
      then String c (form_encode r)
      else if (n =? 32)%N then String "+" (form_encode r)
      else percent c (form_encode r)
  end.

Definition URLSearchParams_toString (params : list (string * string)) : string :=
  String.concat "&" (map (fun '(k, v) => form_encode k +:+ "=" +:+ form_encode v) params).

(** *** Rendering: the titles, one per line, whatever the time *)

Definition title_line (entry : json) : Completion string :=
  t ← Get entry "title";
  s ← ToString_value (or_else t (VJson (JStr "")));
  Return (s +:+ String (char 10) "").

Definition render (now : Z) (items : ItemsArg) (section : string) : Completion string :=
  match items with
  | FreshItems [] => Return ("no news: " +:+ section)
  | FreshItems l => Return (String.concat "" (map (fun i => title i +:+ String (char 10) "") l))
  | StoredItems v =>
      if negb (ToBoolean v) then Return ("no news: " +:+ section)
      else match v with
           | VJson (JArr []) => Return ("no news: " +:+ section)
           | VJson (JArr entries) =>
               lines ← mapM title_line entries; Return (String.concat "" lines)
           | _ => Throw TypeError
           end
  end.

#[export] Instance renderer : Renderer := {| renderItems := render |}.

#[export] Instance runtime : Runtime := {|
  JS.Date_parse := Date_parse;
  JS.StringToNumber := StringToNumber;
  JS.JSON_parse := parse;
  JS.JSON_stringify := stringify;
  JS.textContent := textContent;
  JS.innerText := textContent;
  JS.encodeURIComponent := encodeURIComponent;
  JS.URLSearchParams_toString := URLSearchParams_toString;
|}.

(** *** The document: text serialisation and dates in UTC *)

Fixpoint serialize_text (s : string) : string :=
  match s with
  | EmptyString => EmptyString
  | String c r =>
      if Ascii.eqb c "&" then "&amp;" +:+ serialize_text r
      else if Ascii.eqb c "<" then "&lt;" +:+ serialize_text r
      else if Ascii.eqb c ">" then "&gt;" +:+ serialize_text r
      else String c (serialize_text r)
  end.

(** Day of the month and month (1 to 12) of a day counted from 1970-01-01. *)
Definition civil_from_days (days : Z) : Z * Z :=
  let z := (days + 719468)%Z in
  let era := (z / 146097)%Z in
  let doe := (z - era * 146097)%Z in
  let yoe := ((doe - doe / 1460 + doe / 36524 - doe / 146096) / 365)%Z in
  let doy := (doe - (365 * yoe + yoe / 4 - yoe / 100))%Z in
  let mp := ((5 * doy + 2) / 153)%Z in
  ((doy - (153 * mp + 2) / 5 + 1)%Z, (if mp <? 10 then mp + 3 else mp - 9)%Z).

Definition short_months : list string :=
  [ "янв."; "февр."; "мар."; "апр."; "мая"; "июн.";
    "июл."; "авг."; "сент."; "окт."; "нояб."; "дек." ].

Definition day_and_month (t : Z) : string :=
  let '(d, m) := civil_from_days (t / 86400000) in
  pretty d +:+ " " +:+ default "" (short_months !! Z.to_nat (m - 1)).

#[export] Instance dom : Dom := {|
  innerHTML_of_text := serialize_text;
  toLocaleDateString := day_and_month;
|}.

End Ref.

(** ** Predicates used in the statements *)

Section Statements.
Context `{rt : Runtime}.

(** The ways a translation attempt fails: the request is not answered,
    the status is not OK, the body is not JSON, or
    [data[0].map(part => part[0]).join('')] throws on the JSON.  JSON of
    another shape than the service's on which this expression does not
    throw is no failure. *)
Inductive TranslationFailure : option Response -> Prop :=
| translation_network_error :
    TranslationFailure None
| translation_bad_status (r : Response) :
    ok r = false -> TranslationFailure (Some r)
| translation_unreadable (r : Response) :
    ok r = true -> json_body r = None -> TranslationFailure (Some r)
| translation_malformed (r : Response) (data : json) (e : Error) :
    ok r = true -> json_body r = Some data -> decode_translation data = Throw e ->
    TranslationFailure (Some r).

(** The ways a feed fetch fails: no answer, a status that is not OK, a
    body that is not JSON, a payload whose [status] is not ["ok"], a
    payload without [items], and any fault met while the items are read. *)
Inductive FeedFailure (feedConfig : FeedSource) : option Response -> Prop :=
| feed_network_error :
    FeedFailure feedConfig None
| feed_bad_status (r : Response) :
    ok r = false -> FeedFailure feedConfig (Some r)
| feed_unreadable (r : Response) :
    json_body r = None -> FeedFailure feedConfig (Some r)
| feed_status_not_ok (r : Response) (data : json) (st : value) :
    json_body r = Some data -> Get data "status" = Return st ->
    strict_equal_string st "ok" = false -> FeedFailure feedConfig (Some r)
| feed_items_absent (r : Response) (data : json) (its : value) :
    json_body r = Some data -> Get data "items" = Return its ->
    ToBoolean its = false -> FeedFailure feedConfig (Some r)
| feed_other_fault (resp : option Response) (e : Error) :
    fetchFeed_rawItems feedConfig resp = Throw e -> FeedFailure feedConfig resp.

(** [data.items.slice(0, CONFIG.MAX_ITEMS_PER_FEED)] of a response. *)
Definition payload_entries (resp : option Response) : list json :=
  match resp with
  | Some r =>
      match json_body r with
      | Some data =>
          match Get data "items" with
          | Return (VJson (JArr entries)) => take MAX_ITEMS_PER_FEED entries
          | _ => []
          end
      | None => []
      end
  | None => []
  end.

Definition lacks_link (entry : json) : Prop :=
  exists l, Get entry "link" = Return l /\ ToBoolean l = false.

(** The markup-free text of property [k] of a source entry. *)
Definition entry_text (entry : json) (k : string) : Completion string :=
  v ← Get entry k; stripHtml (or_else v (VJson (JStr ""))).

(** How an item returned by [fetchFeed] relates to the source entry it
    was made from; [raw] is the item before translation. *)
Record delivered_from (net : Network) (feedConfig : FeedSource) (w : World)
  (entry : json) (raw item : NewsItem) : Prop := {
  delivered_raw : rawItem feedConfig entry = Return raw;
  delivered_stripped :
    exists text, entry_text entry "description" = Return text
                 /\ description raw = slice0 300 text;
  delivered_truncated : String.length (description raw) <= 300;
  delivered_default_link : lacks_link entry -> link item = VJson (JStr "#");
  delivered_link : link item = link raw;
  delivered_pubDate : pubDate item = pubDate raw;
  delivered_source : source item = feed_name feedConfig;
  delivered_lang : lang item = feed_lang feedConfig;
  delivered_untranslated : feed_lang feedConfig = "ru" -> item = raw;
  delivered_translated :
    feed_lang feedConfig <> "ru" ->
    title item = fst (translateText net (title raw) (feed_lang feedConfig) w)
    /\ description item = fst (translateText net (description raw) (feed_lang feedConfig) w)
    /\ originalTitle item = Some (title raw);
}.

Definition delivered (net : Network) (feedConfig : FeedSource) (w : World)
  (entry : json) (item : NewsItem) : Prop :=
  exists raw, delivered_from net feedConfig w entry raw item.

(** An entry of which title and description can be read. *)
Definition readable_entry (entry : json) : Prop :=
  (exists t, entry_text entry "title" = Return t)
  /\ (exists d, entry_text entry "description" = Return d).

(** A successfully fetched feed: the answer has an OK status and a JSON
    body whose [status] is ["ok"] and whose [items] is an array, and the
    leading [entries] of that array, at most [MAX_ITEMS_PER_FEED] of
    them, can be read. *)
Definition FeedAnswer (resp : option Response) (entries : list json) : Prop :=
  exists r data all,
    resp = Some r /\ ok r = true /\ json_body r = Some data
    /\ Get data "status" = Return (VJson (JStr "ok"))
    /\ Get data "items" = Return (VJson (JArr all))
    /\ entries = take MAX_ITEMS_PER_FEED all
    /\ Forall readable_entry entries.

(** The text stored for a section, when storage can be read and holds one. *)
Definition stored_entry (section : string) (st : Storage) : option string :=
  if storage_available st then storage_items st !! storage_key section else None.

(** A cache entry as the data model has it: an object with a numeric
    [timestamp] and a list of [items]. *)
Definition well_formed_entry (data : json) : Prop :=
  exists t items, Get data "timestamp" = Return (VJson (JNum t))
                  /\ Get data "items" = Return (VJson (JArr items)).

(** When the specification says [get] returns [null]: the entry is
    missing, malformed, or older than [CACHE_DURATION_MS]. *)
Definition claimed_miss (now : Z) (section : string) (st : Storage) : Prop :=
  match stored_entry section st with
  | None => True
  | Some text =>
      match JSON_parse text with
      | None => True
      | Some data =>
          ~ well_formed_entry data
          \/ exists t, Get data "timestamp" = Return (VJson (JNum t))
                       /\ (CACHE_DURATION_MS < now - t)%Z
      end
  end.

(** When [getCachedData] does return [null]. *)
Inductive CacheMiss (now : Z) (section : string) (st : Storage) : Prop :=
| miss_missing :
    stored_entry section st = None -> CacheMiss now section st
| miss_empty :
    stored_entry section st = Some "" -> CacheMiss now section st
| miss_unparsable (text : string) :
    stored_entry section st = Some text -> JSON_parse text = None ->
    CacheMiss now section st
| miss_null (text : string) :
    stored_entry section st = Some text -> JSON_parse text = Some JNull ->
    CacheMiss now section st
| miss_unconvertible (text : string) (data : json) (ts : value) (e : Error) :
    stored_entry section st = Some text -> JSON_parse text = Some data ->
    Get data "timestamp" = Return ts -> ToNumber ts = Throw e ->
    CacheMiss now section st
| miss_expired (text : string) (data : json) (ts : value) (t : Z) :
    stored_entry section st = Some text -> JSON_parse text = Some data ->
    Get data "timestamp" = Return ts -> ToNumber ts = Return (Some t) ->
    (CACHE_DURATION_MS < now - t)%Z ->
    CacheMiss now section st.

(** A parsed entry without a [timestamp] member, or with one that is not
    a JSON number. *)
Definition timestamp_missing_or_non_numeric (data : json) : Prop :=
  match data with
  | JObj fields =>
      match own_property fields "timestamp" with
      | Some (JNum _) => False
      | _ => True
      end
  | _ => True
  end.

(** A promise that is fulfilled. *)
Definition fulfilled {A} (c : Completion A) : Prop := exists a, c = Return a.

(** Either no call of [refreshAll] is waiting and the flag is down, or
    exactly one is waiting, on three loads none of which was rejected
    and one of which at least is still under way, and the flag is up. *)
Definition single_flight (s : System) : Prop :=
  (in_flight s = [] /\ isRefreshing (page s) = false)
  \/ (exists loads, in_flight s = [loads] /\ List.length loads = 3
                    /\ Forall fulfilled loads /\ existsb waiting loads = true
                    /\ isRefreshing (page s) = true).

(** An item whose [pubDate] gives a valid date. *)
Definition dated (item : NewsItem) : Prop :=
  exists t, Date_new (pubDate item) = Return (Some t).

(** [a] is at least as recent as [b], both with a valid date. *)
Definition newer_or_same (a b : NewsItem) : Prop :=
  exists ta tb, Date_new (pubDate a) = Return (Some ta)
                /\ Date_new (pubDate b) = Return (Some tb)
                /\ (tb <= ta)%Z.

(** The order the specification describes: the time of an item, a
    missing or unparsable [pubDate] counting as the epoch. *)
Definition time_or_epoch (item : NewsItem) : Z :=
  match Date_new (pubDate item) with
  | Return (Some t) => t
  | _ => 0%Z
  end.

Definition sorted_with_undated_as_epoch (items : list NewsItem) : Prop :=
  StronglySorted (fun a b => (time_or_epoch b <= time_or_epoch a)%Z) items.

(** [allItems] of [fetchSection] before it is sorted. *)
Definition merged_items (net : Network) (feeds : list FeedSource) (w : World)
  : list NewsItem :=
  fulfilled_values (fst (fetchFeeds_resume net feeds (fetchFeeds_begin feeds w))).

End Statements.

Section MoreStatements.
Context `{rt : Runtime} `{dom : Dom} `{rd : Renderer}.

(** What [escapeAttr] writes for one character. *)
Definition escaped_char (c : ascii) : string :=
  if Ascii.eqb c "&" then "&amp;"
  else if Ascii.eqb c "034" then "&quot;"
  else if Ascii.eqb c "'" then "&#39;"
  else if Ascii.eqb c "<" then "&lt;"
  else if Ascii.eqb c ">" then "&gt;"
  else String c "".

(** A string with every character replaced by its [escaped_char]. *)
Fixpoint escaped (s : string) : string :=
  match s with
  | EmptyString => EmptyString
  | String c rest => escaped_char c +:+ escaped rest
  end.

(** The characters that end an attribute value or open a tag. *)
Definition attribute_delimiter (c : ascii) : Prop :=
  c = "034"%char \/ c = "'"%char \/ c = "<"%char \/ c = ">"%char.

(** What [timeAgo] shows for a date [t], [d] milliseconds before now. *)
Definition elapsed (d t : Z) : string :=
  if (d <? 60000)%Z then "только что"
  else if (d <? 3600000)%Z then pretty (d / 60000)%Z +:+ " мин назад"
  else if (d <? 86400000)%Z then pretty (d / 3600000)%Z +:+ " ч назад"
  else if (d <? 604800000)%Z then pretty (d / 86400000)%Z +:+ " дн назад"
  else toLocaleDateString t.

(** Nothing to show: no list, or a list without elements. *)
Definition no_items (items : ItemsArg) : Prop :=
  match items with
  | FreshItems l => l = []
  | StoredItems v =>
      ToBoolean v = false \/ v = VJson (JArr [])
      \/ exists fields, v = VJson (JObj fields)
                        /\ own_property fields "length" = Some (JNum 0)
  end.

(** The [link] of the item is a string. *)
Definition link_is_string (item : NewsItem) : Prop :=
  exists s, link item = VJson (JStr s).

(** An item that [renderItems] can turn into a card: its [link] is a
    string and its [pubDate], when there is one, can be converted. *)
Definition renderable (item : NewsItem) : Prop :=
  link_is_string item
  /\ (ToBoolean (pubDate item) = true -> exists d, Date_new (pubDate item) = Return d).




(** The item is dated [t]. *)
Definition dated_at (t : Z) (item : NewsItem) : bool :=
  match Date_new (pubDate item) with
  | Return (Some t') => (t' =? t)%Z
  | _ => false
  end.

(** The refresh button carries the class [spinning] exactly while the
    flag [isRefreshing] is up. *)
Definition button_follows_flag (p : Page) : Prop :=
  refresh_btn p = Some (isRefreshing p).

(** The cache called [name], empty when there is none. *)
Definition cache_named (name : string) (cs : CacheStorage) : gmap string Response :=
  default ∅ (alist_get name cs).

(** The parts of what a fetch handler gives. *)
Definition outcome_of (r : Outcome * CacheStorage * list Op) : Outcome := fst (fst r).
Definition caches_after (r : Outcome * CacheStorage * list Op) : CacheStorage := snd (fst r).

(** What [cache.put] takes: a request with the scheme [http] or [https]
    (the requests here are [GET] requests) and a response that is not a
    partial one.  On anything else [cache.put] rejects and nothing is
    stored. *)
Definition cache_put_accepts (request : Request) (response : Response) : Prop :=
  (protocol request = "http:" \/ protocol request = "https:")
  /\ status response <> 206%Z.

(** No cache but the one called [name] exists. *)
Definition only_cache (name : string) (cs : CacheStorage) : Prop :=
  forall key, key ∈ caches_keys cs -> key = name.


(** One segment of an answer of the translation service: the translated
    text ([null] when there is none), then whatever else the service
    adds. *)
Definition segment (translated : option string) (others : list json) : json :=
  JArr (match translated with Some t => JStr t | None => JNull end :: others).

(** An answer of the shape the translation service gives: an array whose
    first member is an array of segments. *)
Definition translation_answer (data : json) : Prop :=
  exists segments rest,
    data = JArr (JArr (map (fun s => segment (fst s) (snd s)) segments) :: rest).

End MoreStatements.

(** ** Sample inputs *)

Module Sample.
#[local] Existing Instance Ref.runtime.

Definition w0 : World := {| translationCache := ∅; requests := [] |}.

Definition radio : FeedSource :=
  {| feed_url := "https://russian.radio.cz/rss.xml";
     feed_name := "Radio Prague RU"; feed_lang := "ru" |}.

Definition novinky : FeedSource :=
  {| feed_url := "https://www.novinky.cz/rss";
     feed_name := "Novinky.cz"; feed_lang := "cs" |}.

Definition ok_response (data : json) : Response :=
  {| ok := true; status := 200; json_body := Some data |}.

(** A network on which nothing can be reached. *)
Definition offline : Network := fun _ => None.

(** A network that answers the listed URLs. *)
Definition serving (routes : list (string * Response)) : Network :=
  fun url => alist_get url routes.

Definition feed_payload (entries : list json) : json :=
  JObj [ ("status", JStr "ok"); ("items", JArr entries) ].

(** Two entries of a feed, the first without a [pubDate]. *)
Definition undated_entry : json := JObj [ ("title", JStr "No date") ].
Definition dated_entry : json :=
  JObj [ ("title", JStr "New year"); ("pubDate", JStr "2024-01-01T00:00:00Z");
         ("link", JStr "https://russian.radio.cz/a") ].
Definition later_entry : json :=
  JObj [ ("title", JStr "Day after"); ("pubDate", JStr "2024-01-02T00:00:00Z");
         ("link", JStr "https://russian.radio.cz/b") ].

Definition radio_item (title' : string) (link' pubDate' : string) : NewsItem :=
  {| title := title'; description := ""; link := VJson (JStr link');
     pubDate := VJson (JStr pubDate'); source := "Radio Prague RU"; lang := "ru";
     originalTitle := None |}.

Definition undated_item : NewsItem := radio_item "No date" "#" "".
Definition dated_item : NewsItem :=
  radio_item "New year" "https://russian.radio.cz/a" "2024-01-01T00:00:00Z".
Definition later_item : NewsItem :=
  radio_item "Day after" "https://russian.radio.cz/b" "2024-01-02T00:00:00Z".

(** Only Radio Prague answers. *)
Definition radio_only (entries : list json) : Network :=
  serving [ (proxyUrl radio, ok_response (feed_payload entries)) ].

(** A text of 301 characters. *)
Definition long_text : string := String.concat "" (replicate 301 "x").

(** Novinky answers with one entry; the translation service answers the
    request for its text with [long_text]. *)
Definition novinky_translated : Network :=
  serving
    [ (proxyUrl novinky,
       ok_response (feed_payload [ JObj [ ("title", JStr "Ahoj");
                                          ("description", JStr "Ahoj") ] ]));
      (translate_url "Ahoj" "cs",
       ok_response (JArr [ JArr [ JArr [ JStr long_text; JStr "Ahoj" ] ] ])) ].

(** [localStorage], empty and roomy. *)
Definition empty_storage : Storage :=
  {| storage_available := true; storage_items := ∅; storage_quota := 4096 |}.

(** [localStorage] with no room left. *)
Definition full_storage : Storage :=
  {| storage_available := true; storage_items := ∅; storage_quota := 0 |}.

(** [localStorage] holding [data] as the entry of the section [czech]. *)
Definition storage_with (data : json) : Storage :=
  {| storage_available := true;
     storage_items := {[ storage_key "czech" := JSON_stringify data ]};
     storage_quota := 4096 |}.

(** [2023-11-14T22:13:20Z] *)
Definition now : Z := 1700000000000.

(** The page as the document delivers it: three empty feed containers,
    the refresh button, the [last-updated] element. *)
Definition fresh_page : Page :=
  {| currentTab := "czech"; isRefreshing := false;
     containers := {[ "czech" := Untouched; "estonia" := Untouched; "vaping" := Untouched ]};
     refresh_btn := Some false; last_updated := Some None;
     storage := empty_storage; world := w0 |}.

Definition fresh_system : System :=
  {| page := fresh_page; in_flight := []; loading := [] |}.

(** The worker's own location and a request to it. *)
Definition origin : Request :=
  {| href := "https://news.example/sw.js"; protocol := "https:";
     hostname := "news.example" |}.

Definition style_request : Request :=
  {| href := "https://news.example/style.css"; protocol := "https:";
     hostname := "news.example" |}.

Definition style_response : Response :=
  {| ok := true; status := 200; json_body := None |}.

Definition online : SwNetwork := fun _ => Some style_response.

(** An entry dated like [dated_entry]. *)
Definition same_day_entry : json :=
  JObj [ ("title", JStr "Same day"); ("pubDate", JStr "2024-01-01T00:00:00Z");
         ("link", JStr "https://russian.radio.cz/c") ].
Definition same_day_item : NewsItem :=
  radio_item "Same day" "https://russian.radio.cz/c" "2024-01-01T00:00:00Z".

(** An entry whose [link] is a number. *)
Definition numbered_entry : json := JObj [ ("title", JStr "Numbered"); ("link", JNum 5) ].
Definition numbered_item : NewsItem :=
  {| title := "Numbered"; description := ""; link := VJson (JNum 5);
     pubDate := VJson (JStr ""); source := "Radio Prague RU"; lang := "ru";
     originalTitle := None |}.

(** A request to the feed proxy, an answer to it, and a refusal. *)
Definition api_request : Request :=
  {| href := "https://api.rss2json.com/v1/api.json?rss_url=x"; protocol := "https:";
     hostname := "api.rss2json.com" |}.
Definition api_response : Response :=
  {| ok := true; status := 200; json_body := Some (feed_payload []) |}.
Definition bad_gateway : Response :=
  {| ok := false; status := 502; json_body := None |}.
Definition answering (r : Response) : SwNetwork := fun _ => Some r.
Definition unreachable : SwNetwork := fun _ => None.
(** An entry whose [pubDate] is an object that cannot be converted. *)
Definition odd_date_entry : json :=
  JObj [ ("title", JStr "Odd date"); ("pubDate", JObj [ ("toString", JNum 1) ]);
         ("link", JStr "https://russian.radio.cz/d") ].

(** An item with one text for title and description. *)
Definition ahoj_item : NewsItem :=
  {| title := "Ahoj"; description := "Ahoj"; link := VJson (JStr "#");
     pubDate := VJson (JStr ""); source := "Novinky.cz"; lang := "cs";
     originalTitle := None |}.

End Sample.

(** * Properties *)

Section Translation.
Context `{rt : Runtime}.

Lemma translateText_begin_fast (text fromLang : string) (w : World) :
  fromLang = "ru" \/ text = "" ->
  translateText_begin text fromLang w = (TDone text, w).
Proof.
  intros [-> | ->]; unfold translateText_begin.
  - by rewrite orb_true_r.
  - done.
Qed.

(** C5.  If the source language is ["ru"] or the text is empty,
    [translateText] returns the text it was given and leaves the memo
    and the log of requests as they were: the call is over before any
    [fetch]. *)
Theorem translateText_fast_path (net : Network) (text fromLang : string) (w : World) :
  fromLang = "ru" \/ text = "" ->
  translateText_begin text fromLang w = (TDone text, w)
  /\ translateText net text fromLang w = (text, w).
Proof.
  intros H. unfold translateText.
  by rewrite (translateText_begin_fast _ _ _ H).
Qed.

Lemma translateText_try_failure (resp : option Response) :
  TranslationFailure resp ->
  translateText_try resp = Return None \/ exists e, translateText_try resp = Throw e.
Proof.
  destruct 1 as [|r Hok|r Hok Hbody|r data e Hok Hbody Hdec]; unfold translateText_try.
  - right; eauto.
  - rewrite Hok; auto.
  - rewrite Hok, Hbody; right; eauto.
  - rewrite Hok, Hbody, Hdec; right; eauto.
Qed.

Lemma translateText_begin_slow (text fromLang : string) (w : World) :
  text <> "" -> fromLang <> "ru" ->
  translationCache w !! translate_cacheKey text fromLang = None ->
  translateText_begin text fromLang w
  = (TAwait text (translate_cacheKey text fromLang) (translate_url text fromLang),
     log_request (translate_url text fromLang) w).
Proof.
  intros Ht Hl Hmiss. unfold translateText_begin.
  apply String.eqb_neq in Ht, Hl. by rewrite Ht, Hl, Hmiss.
Qed.

(** C10 (as amended).  On the slow path (text not empty, language not
    ["ru"], nothing memoised under the key), an attempt that fails
    because the request is not answered, the status is not OK, the body
    is not JSON or reading the translation off the JSON throws, returns
    the text, issues its one request and leaves [translationCache] as it
    was; a later call with the same key therefore misses the memo again
    and issues a request of its own.  (A body of another shape than the
    service's on which the reading does not throw is no such failure:
    what is read off it is memoised.) *)
Theorem translateText_failure_not_cached
  (net : Network) (text fromLang : string) (w : World) :
  text <> "" -> fromLang <> "ru" ->
  translationCache w !! translate_cacheKey text fromLang = None ->
  TranslationFailure (net (translate_url text fromLang)) ->
  exists w',
    translateText net text fromLang w = (text, w')
    /\ translationCache w' = translationCache w
    /\ requests w' = requests w ++ [translate_url text fromLang]
    /\ forall text',
         text' <> "" ->
         translate_cacheKey text' fromLang = translate_cacheKey text fromLang ->
         translateText_begin text' fromLang w'
         = (TAwait text' (translate_cacheKey text fromLang) (translate_url text' fromLang),
            log_request (translate_url text' fromLang) w').
Proof.
  intros Ht Hl Hmiss Hfail.
  exists (log_request (translate_url text fromLang) w).
  split; [|split; [done|split; [done|]]].
  - unfold translateText. rewrite translateText_begin_slow by done. simpl.
    by destruct (translateText_try_failure _ Hfail) as [-> | [e ->]].
  - intros text' Ht' Hkey.
    rewrite translateText_begin_slow; [by rewrite Hkey|done|done|].
    simpl. by rewrite Hkey.
Qed.

End Translation.

(** ** Feed fetching *)

Section Feed.
Context `{rt : Runtime}.

Lemma mapM_Return {A B} (f : A -> Completion B) (l : list A) (rs : list B) :
  mapM f l = Return rs -> Forall2 (fun x r => f x = Return r) l rs.
Proof.
  revert rs. induction l as [|x l IH]; intros rs; simpl.
  - intros [= <-]. constructor.
  - destruct (f x) as [y|e] eqn:Hx; simpl; [|discriminate].
    destruct (mapM f l) as [k|e] eqn:Hl; simpl; [|discriminate].
    intros [= <-]. constructor; auto.
Qed.

Lemma mapM_Return_Forall {A B} (f : A -> Completion B) (l : list A) :
  (exists rs, mapM f l = Return rs) <-> Forall (fun x => exists r, f x = Return r) l.
Proof.
  induction l as [|x l IH]; simpl.
  - split; [constructor|eauto].
  - rewrite Forall_cons, <- IH. split.
    + intros [rs H]. destruct (f x) as [r|]; simpl in H; [|done].
      destruct (mapM f l) as [rs'|]; simpl in H; [|done]. eauto.
    + intros [[r ->] [rs ->]]. simpl. eauto.
Qed.

Lemma length_slice0 (n : nat) (s : string) : String.length (slice0 n s) <= n.
Proof.
  unfold slice0. revert s. induction n as [|n IH]; intros [|c s]; simpl; try lia.
  specialize (IH s). lia.
Qed.

Lemma translateText_begin_memo (text fromLang : string) (w : World) :
  translationCache (snd (translateText_begin text fromLang w)) = translationCache w.
Proof.
  unfold translateText_begin.
  destruct (_ || _); [done|]. by destruct (_ !! _).
Qed.

Lemma translateText_begin_task (text fromLang : string) (w1 w2 : World) :
  translationCache w1 = translationCache w2 ->
  fst (translateText_begin text fromLang w1) = fst (translateText_begin text fromLang w2).
Proof.
  intros H. unfold translateText_begin. rewrite H.
  destruct (_ || _); [done|]. by destruct (_ !! _).
Qed.

Lemma translateText_resume_result (net : Network) (task : TranslateTask) (w1 w2 : World) :
  fst (translateText_resume net task w1) = fst (translateText_resume net task w2).
Proof.
  destruct task as [r|text key url]; simpl; [done|].
  by destruct (translateText_try _) as [[?|]|].
Qed.


Lemma translateText_resume_memo_begin (net : Network) (text fromLang : string) (w w' : World) :
  translationCache w = translationCache w' ->
  forall w'',
  fst (translateText_resume net (fst (translateText_begin text fromLang w')) w'')
  = fst (translateText net text fromLang w).
Proof.
  intros H w''. unfold translateText.
  destruct (translateText_begin text fromLang w) as [task w1] eqn:Hb.
  rewrite (translateText_begin_task text fromLang w' w) by done.
  rewrite Hb. simpl. apply translateText_resume_result.
Qed.

Lemma translateItem_begin_memo (item : NewsItem) (fromLang : string) (w : World) :
  translationCache (snd (translateItem_begin item fromLang w)) = translationCache w.
Proof.
  unfold translateItem_begin. destruct (String.eqb fromLang "ru"); [done|].
  destruct (translateText_begin (title item) fromLang w) as [t1 w1] eqn:H1.
  pose proof (translateText_begin_memo (title item) fromLang w) as M1.
  rewrite H1 in M1. simpl in M1.
  destruct (negb _).
  - destruct (translateText_begin (description item) fromLang w1) as [t2 w2] eqn:H2.
    pose proof (translateText_begin_memo (description item) fromLang w1) as M2.
    rewrite H2 in M2. simpl in *. congruence.
  - done.
Qed.

(** What one item looks like after [translateItem], whatever else was
    started in between: each field is what [translateText] alone gives
    on a memo equal to the one the call started with. *)
Lemma translateItem_resume_begin (net : Network) (item : NewsItem) (fromLang : string)
  (w w' w'' : World) :
  fromLang <> "ru" ->
  translationCache w = translationCache w' ->
  let item' := fst (translateItem_resume net (fst (translateItem_begin item fromLang w')) w'') in
  title item' = fst (translateText net (title item) fromLang w)
  /\ description item' = fst (translateText net (description item) fromLang w)
  /\ link item' = link item /\ pubDate item' = pubDate item
  /\ source item' = source item /\ lang item' = lang item
  /\ originalTitle item' = Some (title item).
Proof.
  intros Hl Hm. apply String.eqb_neq in Hl as Hl'.
  unfold translateItem_begin. rewrite Hl'.
  destruct (translateText_begin (title item) fromLang w') as [t1 w1] eqn:H1.
  pose proof (translateText_begin_memo (title item) fromLang w') as M1.
  rewrite H1 in M1. simpl in M1.
  assert (T1 : forall v, fst (translateText_resume net t1 v)
                         = fst (translateText net (title item) fromLang w)).
  { intros v. rewrite <- (translateText_resume_memo_begin net _ _ w w' Hm v). by rewrite H1. }
  destruct (String.eqb (description item) "") eqn:Hd; cbn [negb].
  - apply String.eqb_eq in Hd. cbn [translateItem_resume fst].
    destruct (translateText_resume net t1 w'') as [title' v1] eqn:R1.
    specialize (T1 w''). rewrite R1 in T1. simpl in T1. simpl.
    repeat split; try done.
    rewrite Hd. unfold translateText, translateText_begin. done.
  - destruct (translateText_begin (description item) fromLang w1) as [t2 w2] eqn:H2.
    cbn [translateItem_resume fst].
    destruct (translateText_resume net t1 w'') as [title' v1] eqn:R1.
    cbn beta iota zeta.
    destruct (translateText_resume net t2 v1) as [description' v2] eqn:R2.
    specialize (T1 w''). rewrite R1 in T1. simpl in T1. simpl.
    repeat split; try done.
    assert (Hm1 : translationCache w = translationCache w1) by congruence.
    rewrite <- (translateText_resume_memo_begin net _ _ w w1 Hm1 v1).
    rewrite H2. simpl. by rewrite R2.
Qed.

Lemma translateItems_begin_memo (items : list NewsItem) (fromLang : string) (w : World) :
  translationCache (snd (translateItems_begin items fromLang w)) = translationCache w.
Proof.
  revert w. induction items as [|item rest IH]; intros w; simpl; [done|].
  destruct (translateItem_begin item fromLang w) as [task w1] eqn:H1.
  destruct (translateItems_begin rest fromLang w1) as [tasks w2] eqn:H2. simpl.
  pose proof (translateItem_begin_memo item fromLang w) as M1. rewrite H1 in M1.
  pose proof (IH w1) as M2. rewrite H2 in M2. simpl in *. congruence.
Qed.

Lemma translateItems_spec (net : Network) (items : list NewsItem) (fromLang : string)
  (w w' w'' : World) :
  fromLang <> "ru" ->
  translationCache w = translationCache w' ->
  Forall2 (fun item item' =>
             title item' = fst (translateText net (title item) fromLang w)
             /\ description item' = fst (translateText net (description item) fromLang w)
             /\ link item' = link item /\ pubDate item' = pubDate item
             /\ source item' = source item /\ lang item' = lang item
             /\ originalTitle item' = Some (title item))
          items
          (fst (translateItems_resume net (fst (translateItems_begin items fromLang w')) w'')).
Proof.
  intros Hl. revert w' w''. induction items as [|item rest IH]; intros w' w'' Hm; simpl.
  - constructor.
  - destruct (translateItem_begin item fromLang w') as [task w1] eqn:H1.
    destruct (translateItems_begin rest fromLang w1) as [tasks w2] eqn:H2. simpl.
    destruct (translateItem_resume net task w'') as [item' v1] eqn:R1.
    destruct (translateItems_resume net tasks v1) as [items' v2] eqn:R2. simpl.
    constructor.
    + pose proof (translateItem_resume_begin net item fromLang w w' w'' Hl Hm) as H.
      cbv zeta in H. rewrite H1 in H. cbn [fst] in H. by rewrite R1 in H.
    + pose proof (translateItem_begin_memo item fromLang w') as M1. rewrite H1 in M1.
      simpl in M1.
      specialize (IH w1 v1 ltac:(congruence)).
      rewrite H2 in IH. cbn [fst] in IH. by rewrite R2 in IH.
Qed.


Lemma rawItem_spec (feedConfig : FeedSource) (entry : json) (raw : NewsItem) :
  rawItem feedConfig entry = Return raw ->
  (exists text, entry_text entry "description" = Return text
                /\ description raw = slice0 300 text)
  /\ (lacks_link entry -> link raw = VJson (JStr "#"))
  /\ source raw = feed_name feedConfig
  /\ lang raw = feed_lang feedConfig
  /\ originalTitle raw = None.
Proof.
  unfold rawItem, entry_text, lacks_link.
  destruct (Get entry "title") as [t|] eqn:Ht; simpl; [|discriminate].
  destruct (stripHtml (or_else t _)) as [title'|]; simpl; [|discriminate].
  destruct (Get entry "description") as [d|] eqn:Hd; simpl; [|discriminate].
  destruct (stripHtml (or_else d _)) as [description'|]; simpl; [|discriminate].
  destruct (Get entry "link") as [l|] eqn:Hlink; simpl; [|discriminate].
  destruct (Get entry "pubDate") as [p|] eqn:Hp; simpl; [|discriminate].
  intros [= <-]. simpl. repeat split; eauto.
  intros (l' & [= <-] & Hfalse). unfold or_else. by rewrite Hfalse.
Qed.


Lemma fetchFeed_rawItems_failure (feedConfig : FeedSource) (resp : option Response) :
  FeedFailure feedConfig resp ->
  fetchFeed_rawItems feedConfig resp = Return []
  \/ exists e, fetchFeed_rawItems feedConfig resp = Throw e.
Proof.
  destruct 1 as [|r Hok|r Hbody|r data st Hbody Hst Hne|r data its Hbody Hits Hfalse|resp e He];
    unfold fetchFeed_rawItems.
  - right; eauto.
  - rewrite Hok; right; eauto.
  - destruct (ok r); simpl; [|right; eauto]. rewrite Hbody. right; eauto.
  - destruct (ok r); simpl; [|right; eauto]. rewrite Hbody, Hst. simpl.
    rewrite Hne. by left.
  - destruct (ok r); simpl; [|right; eauto]. rewrite Hbody.
    destruct (Get data "status") as [st|]; simpl; [|right; eauto].
    destruct (strict_equal_string st "ok"); simpl; [|by left].
    rewrite Hits. simpl. rewrite Hfalse. by left.
  - right; eauto.
Qed.

Lemma payload_entries_length (resp : option Response) :
  List.length (payload_entries resp) <= MAX_ITEMS_PER_FEED.
Proof.
  unfold payload_entries.
  destruct resp as [r|]; [|simpl; lia].
  destruct (json_body r) as [data|]; [|simpl; lia].
  destruct (Get data "items") as [[|[| | | |entries|]|]|]; simpl; try lia.
  rewrite length_take. lia.
Qed.

Lemma fetchFeed_rawItems_cases (feedConfig : FeedSource) (resp : option Response)
  (raws : list NewsItem) :
  fetchFeed_rawItems feedConfig resp = Return raws ->
  (FeedFailure feedConfig resp /\ raws = [])
  \/ Forall2 (fun e r => rawItem feedConfig e = Return r) (payload_entries resp) raws.
Proof.
  unfold fetchFeed_rawItems, payload_entries.
  destruct resp as [r|]; [|discriminate].
  destruct (ok r); simpl; [|discriminate].
  destruct (json_body r) as [data|] eqn:Hbody; [|discriminate].
  destruct (Get data "status") as [st|] eqn:Hst; simpl; [|discriminate].
  destruct (strict_equal_string st "ok") eqn:Hok; simpl.
  2: { intros [= <-]. left. split; [|done]. by eapply feed_status_not_ok. }
  destruct (Get data "items") as [its|] eqn:Hits; simpl; [|discriminate].
  destruct (ToBoolean its) eqn:Htrue; simpl.
  2: { intros [= <-]. left. split; [|done]. by eapply feed_items_absent. }
  destruct its as [|[| | | |entries|]|]; try discriminate.
  intros H. right. by apply mapM_Return.
Qed.

Lemma Get_total (entry : json) (k k' : string) (v : value) :
  Get entry k = Return v -> exists v', Get entry k' = Return v'.
Proof. destruct entry; simpl; try discriminate; eauto. Qed.

Lemma rawItem_readable (feedConfig : FeedSource) (entry : json) :
  readable_entry entry -> exists raw, rawItem feedConfig entry = Return raw.
Proof.
  unfold readable_entry, entry_text, rawItem. intros [[t Ht] [d Hd]].
  destruct (Get entry "title") as [vt|] eqn:Et; simpl in *; [|discriminate].
  rewrite Ht. simpl.
  destruct (Get entry "description") as [vd|] eqn:Ed; simpl in *; [|discriminate].
  rewrite Hd. simpl.
  destruct (Get_total entry "title" "link" vt Et) as [l ->].
  destruct (Get_total entry "title" "pubDate" vt Et) as [p ->]. simpl. eauto.
Qed.

Lemma fetchFeed_rawItems_answer (feedConfig : FeedSource) (resp : option Response)
  (entries : list json) :
  FeedAnswer resp entries ->
  payload_entries resp = entries
  /\ exists raws, fetchFeed_rawItems feedConfig resp = Return raws
                  /\ List.length raws = List.length entries.
Proof.
  intros (r & data & all & -> & Hok & Hbody & Hst & Hits & -> & Hread).
  unfold payload_entries, fetchFeed_rawItems. rewrite Hok, Hbody, Hst, Hits. simpl.
  split; [done|].
  assert (H : exists raws, mapM (rawItem feedConfig) (take MAX_ITEMS_PER_FEED all)
                           = Return raws).
  { apply mapM_Return_Forall. eapply Forall_impl; [exact Hread|].
    intros entry. apply rawItem_readable. }
  destruct H as [raws H]. exists raws. split; [done|].
  apply mapM_Return in H. symmetry. by eapply Forall2_length.
Qed.

(** C6 (as amended).  [fetchFeed] returns at most [MAX_ITEMS_PER_FEED]
    items.  Either the fetch failed and there is no item, or there is one
    item for each of the first entries of the payload, in their order;
    the latter is the case for every successfully fetched feed.  Before
    translation each item carries the markup-free description cut to at
    most 300 characters; an entry without a link gets the link ["#"].  A
    feed in ["ru"] returns these items as they are; for another language
    title and description are what [translateText] gives for them, of
    whatever length. *)
Theorem fetchFeed_items (net : Network) (feedConfig : FeedSource) (w : World) :
  exists items,
    fst (fetchFeed net feedConfig w) = Return items
    /\ List.length items <= MAX_ITEMS_PER_FEED
    /\ ((FeedFailure feedConfig (net (proxyUrl feedConfig)) /\ items = [])
        \/ Forall2 (delivered net feedConfig w)
                   (payload_entries (net (proxyUrl feedConfig))) items)
    /\ (forall entries,
          FeedAnswer (net (proxyUrl feedConfig)) entries ->
          Forall2 (delivered net feedConfig w) entries items).
Proof.
  assert (Main : exists items,
    fst (fetchFeed net feedConfig w) = Return items
    /\ List.length items <= MAX_ITEMS_PER_FEED
    /\ (forall raws, fetchFeed_rawItems feedConfig (net (proxyUrl feedConfig)) = Return raws ->
          List.length items = List.length raws)
    /\ ((FeedFailure feedConfig (net (proxyUrl feedConfig)) /\ items = [])
        \/ Forall2 (delivered net feedConfig w)
                   (payload_entries (net (proxyUrl feedConfig))) items)).
  { unfold fetchFeed, fetchFeed_resume.
    destruct (fetchFeed_rawItems feedConfig (net (proxyUrl feedConfig))) as [raws|e] eqn:Hraw.
    2: { exists []. simpl. split; [done|]. split; [lia|]. split; [done|].
         left. split; [by eapply feed_other_fault|done]. }
    destruct (fetchFeed_rawItems_cases _ _ _ Hraw) as [[Hfail ->] | Hentries].
    { exists []. destruct (negb _); simpl; (split; [done|]); (split; [lia|]);
        (split; [by intros ? [= <-]|by left]). }
    assert (Hlen : List.length raws <= MAX_ITEMS_PER_FEED).
    { apply Forall2_length in Hentries. rewrite <- Hentries. apply payload_entries_length. }
    destruct (String.eqb (feed_lang feedConfig) "ru") eqn:Hlang; simpl.
    - apply String.eqb_eq in Hlang.
      exists raws. split; [done|]. split; [done|]. split; [by intros ? [= <-]|]. right.
      eapply Forall2_impl; [exact Hentries|].
      intros entry raw Hr. exists raw.
      destruct (rawItem_spec _ _ _ Hr) as (Hd & Hl & Hs & Hg & Ho).
      split; try done.
      destruct Hd as (text & _ & ->). apply length_slice0.
    - apply String.eqb_neq in Hlang.
      pose proof (translateItems_spec net raws (feed_lang feedConfig) w
                    (fetchFeed_begin feedConfig w)) as Hspec.
      destruct (translateItems_begin raws (feed_lang feedConfig) (fetchFeed_begin feedConfig w))
        as [tasks w1] eqn:Hb.
      specialize (Hspec w1 Hlang eq_refl). cbn [fst] in Hspec.
      destruct (translateItems_resume net tasks w1) as [items w2] eqn:Hr.
      cbn [fst] in *.
      exists items. split; [done|].
      split; [by rewrite <- (Forall2_length _ _ _ Hspec)|].
      split; [intros ? [= <-]; symmetry; by eapply Forall2_length|]. right.
      clear Hb Hr Hraw Hlen.
      revert items Hspec. induction Hentries as [|entry raw entries raws Hr _ IH];
        intros items Hspec; inversion Hspec as [|? item ? items' Hi Hrest]; subst.
      + constructor.
      + constructor; [|by apply IH].
        destruct Hi as (Ht & Hd & Hl & Hp & Hs & Hg & Ho).
        destruct (rawItem_spec _ _ _ Hr) as (Hd' & Hl' & Hs' & Hg' & Ho').
        exists raw. split; try done; try congruence.
        * destruct Hd' as (text & _ & ->). apply length_slice0.
        * intros Hlack. rewrite Hl. auto. }
  destruct Main as (items & Hitems & Hlen & Hraws & Hcases).
  exists items. split; [done|]. split; [done|]. split; [done|].
  intros entries Hanswer.
  destruct (fetchFeed_rawItems_answer feedConfig _ _ Hanswer) as (Hpay & raws & Hraw & Hn).
  rewrite <- Hpay. destruct Hcases as [[_ ->] | H]; [|done].
  specialize (Hraws raws Hraw). rewrite <- Hpay, <- Hraws in Hn.
  destruct (payload_entries _); [constructor|discriminate].
Qed.

(** C4.  [fetchFeed] always completes with a list.  The list is empty
    when the request is not answered, the status is not OK, the body is
    not JSON, the payload's [status] is not ["ok"], the payload has no
    [items], or anything else goes wrong while the items are read. *)
Theorem fetchFeed_never_throws (net : Network) (feedConfig : FeedSource) (w : World) :
  exists items,
    fst (fetchFeed net feedConfig w) = Return items
    /\ (FeedFailure feedConfig (net (proxyUrl feedConfig)) -> items = []).
Proof.
  unfold fetchFeed, fetchFeed_resume.
  destruct (fetchFeed_rawItems feedConfig (net (proxyUrl feedConfig))) as [raws|e] eqn:Hraw.
  2: { by exists []. }
  destruct (negb _).
  - destruct (translateItems_begin raws _ _) as [tasks w1] eqn:Hb.
    destruct (translateItems_resume net tasks w1) as [items w2] eqn:Hr.
    exists items. split; [done|]. intros Hfail.
    destruct (fetchFeed_rawItems_failure _ _ Hfail) as [H | [e H]]; [|congruence].
    assert (raws = []) as -> by congruence.
    simpl in Hb. injection Hb as <- <-. simpl in Hr. by injection Hr as <- _.
  - exists raws. split; [done|]. intros Hfail.
    destruct (fetchFeed_rawItems_failure _ _ Hfail) as [H | [e H]]; congruence.
Qed.

End Feed.

(** ** Section aggregation *)

Section Sorting.
Context `{rt : Runtime}.

Lemma sort_insert_Permutation {A} (cmp : A -> A -> Completion (option Z)) (x : A)
  (l l' : list A) :
  sort_insert cmp x l = Return l' -> l' ≡ₚ x :: l.
Proof.
  revert l'. induction l as [|y l IH]; intros l'; simpl.
  - by intros [= <-].
  - destruct (SortCompare cmp x y) as [c|]; simpl; [|discriminate].
    destruct (c <=? 0)%Z; [by intros [= <-]|].
    destruct (sort_insert cmp x l) as [r|]; simpl; [|discriminate].
    intros [= <-]. rewrite (IH r eq_refl). apply Permutation_swap.
Qed.

Lemma Array_sort_Permutation {A} (cmp : A -> A -> Completion (option Z)) (l l' : list A) :
  Array_sort cmp l = Return l' -> l' ≡ₚ l.
Proof.
  revert l'. induction l as [|x l IH]; intros l'; simpl.
  - by intros [= <-].
  - destruct (Array_sort cmp l) as [sorted|]; simpl; [|discriminate].
    intros H. rewrite (sort_insert_Permutation _ _ _ _ H). by rewrite (IH sorted).
Qed.

Lemma SortCompare_dated (a b : NewsItem) (ta tb : Z) :
  Date_new (pubDate a) = Return (Some ta) ->
  Date_new (pubDate b) = Return (Some tb) ->
  SortCompare comparefn a b = Return (tb - ta)%Z.
Proof. intros Ha Hb. unfold SortCompare, comparefn. by rewrite Hb, Ha. Qed.

Lemma newer_or_same_trans (a b c : NewsItem) :
  newer_or_same a b -> newer_or_same b c -> newer_or_same a c.
Proof.
  intros (ta & tb & Ha & Hb & Hab) (tb' & tc & Hb' & Hc & Hbc).
  exists ta, tc. repeat split; try done. assert (tb = tb') by congruence. lia.
Qed.

Lemma sort_insert_sorted (x : NewsItem) (l : list NewsItem) :
  dated x -> Forall dated l -> StronglySorted newer_or_same l ->
  exists l', sort_insert comparefn x l = Return l' /\ StronglySorted newer_or_same l'.
Proof.
  intros [tx Hx]. induction l as [|y l IH]; intros Hd Hs; simpl.
  - eexists; split; [done|]. repeat constructor.
  - apply Forall_cons in Hd as [[ty Hy] Hd].
    apply StronglySorted_inv in Hs as [Hs Hy_l].
    rewrite (SortCompare_dated x y tx ty Hx Hy). simpl.
    destruct (Z.leb_spec (ty - tx) 0) as [Hle|Hgt].
    + eexists; split; [done|].
      assert (Hxy : newer_or_same x y) by (exists tx, ty; repeat split; try done; lia).
      constructor; [by constructor|]. constructor; [done|].
      eapply Forall_impl; [exact Hy_l|]. intros z Hz. by eapply newer_or_same_trans.
    + destruct (IH Hd Hs) as (r & Hr & Hsr). rewrite Hr. simpl.
      eexists; split; [done|]. constructor; [done|].
      rewrite (sort_insert_Permutation _ _ _ _ Hr). constructor; [|done].
      exists ty, tx. repeat split; try done; lia.
Qed.

Lemma Array_sort_sorted (l : list NewsItem) :
  Forall dated l ->
  exists l', Array_sort comparefn l = Return l' /\ StronglySorted newer_or_same l'.
Proof.
  induction l as [|x l IH]; intros Hd; simpl.
  - eexists; split; [done|]. constructor.
  - apply Forall_cons in Hd as [Hx Hd].
    destruct (IH Hd) as (sorted & Hs & Hsorted). rewrite Hs. simpl.
    apply sort_insert_sorted; [done| |done].
    by rewrite (Array_sort_Permutation _ _ _ Hs).
Qed.

(** For a section whose feed list can be read, the list [fetchSection]
    returns is a rearrangement of the merged items; and when every merged
    item has a valid date, [fetchSection] returns them sorted by
    [pubDate], most recent first. *)
Theorem fetchSection_sorted (net : Network) (section : string) (feeds : list FeedSource)
  (w : World) :
  section_feeds section = Return feeds ->
  (forall items, fst (fetchSection net section w) = Return items ->
                 items ≡ₚ merged_items net feeds w)
  /\ (Forall dated (merged_items net feeds w) ->
      exists items, fst (fetchSection net section w) = Return items
                    /\ StronglySorted newer_or_same items).
Proof.
  intros Hfeeds. unfold fetchSection, fetchSection_begin, merged_items. rewrite Hfeeds.
  simpl. destruct (fetchFeeds_resume net feeds (fetchFeeds_begin feeds w)) as [results w1].
  simpl. split.
  - intros items. apply Array_sort_Permutation.
  - apply Array_sort_sorted.
Qed.

Lemma fetchFeed_resume_failure (net : Network) (feedConfig : FeedSource) (w : World) :
  FeedFailure feedConfig (net (proxyUrl feedConfig)) ->
  fetchFeed_resume net feedConfig w = (Return [], w).
Proof.
  intros Hfail. unfold fetchFeed_resume.
  destruct (fetchFeed_rawItems_failure _ _ Hfail) as [-> | [e ->]]; [|done].
  by destruct (negb _).
Qed.

(** When every feed of a section fails (the request is not answered, the
    status is not OK, the body is not JSON, the payload's [status] is not
    ["ok"], the payload has no [items], or reading the items throws),
    [fetchSection] returns the empty list. *)
Theorem fetchSection_all_feeds_fail (net : Network) (section : string)
  (feeds : list FeedSource) (w : World) :
  section_feeds section = Return feeds ->
  Forall (fun f => FeedFailure f (net (proxyUrl f))) feeds ->
  fst (fetchSection net section w) = Return [].
Proof.
  intros Hfeeds Hfail. unfold fetchSection, fetchSection_begin. rewrite Hfeeds. simpl.
  generalize (fetchFeeds_begin feeds w). intros w1.
  assert (H : fulfilled_values (fst (fetchFeeds_resume net feeds w1)) = []).
  { clear Hfeeds. revert w1. induction Hfail as [|f feeds Hf _ IH]; intros w1; simpl; [done|].
    rewrite (fetchFeed_resume_failure net f w1 Hf).
    specialize (IH w1). destruct (fetchFeeds_resume net feeds w1) as [rs w2].
    simpl in *. exact IH. }
  destruct (fetchFeeds_resume net feeds w1) as [results w2]. simpl in *. by rewrite H.
Qed.

End Sorting.

(** ** The persistent cache *)

Section CacheStore.
Context `{rt : Runtime}.

Lemma getItem_stored (section : string) (st : Storage) (text : option string) :
  stored_entry section st = text ->
  localStorage_getItem st (storage_key section) = Return text
  \/ (text = None /\ localStorage_getItem st (storage_key section) = Throw SecurityError).
Proof.
  unfold stored_entry, localStorage_getItem.
  destruct (storage_available st); intros <-; auto.
Qed.

Lemma getCachedData_stored (now : Z) (section : string) (st : Storage) (text : string) :
  stored_entry section st = Some text ->
  getCachedData now section st
  = if String.eqb text "" then None
    else match JSON_parse text with
         | None => None
         | Some data =>
             try_catch (ts ← Get data "timestamp"; t ← ToNumber ts;
                        if age_exceeds now t then Return None else Return (Some data))
                       (fun _ => None)
         end.
Proof.
  intros H. unfold getCachedData, getCachedData_try.
  destruct (getItem_stored _ _ _ H) as [-> | [? _]]; [|done]. simpl.
  destruct (String.eqb text ""); [done|]. by destruct (JSON_parse text).
Qed.

Lemma getCachedData_missing (now : Z) (section : string) (st : Storage) :
  stored_entry section st = None -> getCachedData now section st = None.
Proof.
  intros H. unfold getCachedData, getCachedData_try.
  by destruct (getItem_stored _ _ _ H) as [-> | [_ ->]].
Qed.

Lemma age_exceeds_spec (now : Z) (t : option Z) :
  age_exceeds now t = true <-> exists t', t = Some t' /\ (CACHE_DURATION_MS < now - t')%Z.
Proof.
  unfold age_exceeds. destruct t as [t'|].
  - rewrite Z.ltb_lt. split; [eauto|]. by intros (? & [= <-] & ?).
  - split; [done|]. by intros (? & [=] & _).
Qed.

Lemma getCachedData_None (now : Z) (section : string) (st : Storage) :
  getCachedData now section st = None <-> CacheMiss now section st.
Proof.
  split.
  - destruct (stored_entry section st) as [text|] eqn:Hs; [|intros _; by apply miss_missing].
    rewrite (getCachedData_stored _ _ _ _ Hs).
    destruct (String.eqb_spec text "") as [-> | Hne]; [intros _; by apply miss_empty|].
    destruct (JSON_parse text) as [data|] eqn:Hp; [|intros _; by eapply miss_unparsable].
    destruct (Get data "timestamp") as [ts|e] eqn:Hts; simpl.
    2: { intros _. destruct data; try discriminate. by eapply miss_null. }
    destruct (ToNumber ts) as [t|e] eqn:Ht; simpl;
      [|intros _; by eapply miss_unconvertible].
    destruct (age_exceeds now t) eqn:Hage; [|discriminate].
    intros _. apply age_exceeds_spec in Hage as (t' & -> & Hlt). by eapply miss_expired.
  - destruct 1 as [Hs|Hs|text Hs Hp|text Hs Hp|text data ts e Hs Hp Hts Ht
                   |text data ts t Hs Hp Hts Ht Hlt].
    + by apply getCachedData_missing.
    + by rewrite (getCachedData_stored _ _ _ _ Hs).
    + rewrite (getCachedData_stored _ _ _ _ Hs), Hp. by destruct (String.eqb text "").
    + rewrite (getCachedData_stored _ _ _ _ Hs), Hp. by destruct (String.eqb text "").
    + rewrite (getCachedData_stored _ _ _ _ Hs), Hp, Hts. simpl. rewrite Ht.
      by destruct (String.eqb text "").
    + assert (Hage : age_exceeds now (Some t) = true) by (apply age_exceeds_spec; eauto).
      rewrite (getCachedData_stored _ _ _ _ Hs), Hp, Hts. cbn -[age_exceeds].
      rewrite Ht. cbn -[age_exceeds]. rewrite Hage.
      by destruct (String.eqb text "").
Qed.

Lemma getCachedData_Some (now : Z) (section : string) (st : Storage) (data : json) :
  getCachedData now section st = Some data ->
  exists text, stored_entry section st = Some text /\ JSON_parse text = Some data.
Proof.
  destruct (stored_entry section st) as [text|] eqn:Hs.
  2: { by rewrite getCachedData_missing. }
  rewrite (getCachedData_stored _ _ _ _ Hs).
  destruct (String.eqb text ""); [discriminate|].
  destruct (JSON_parse text) as [data'|] eqn:Hp; [|discriminate].
  destruct (Get data' "timestamp") as [ts|]; simpl; [|discriminate].
  destruct (ToNumber ts) as [t|]; simpl; [|discriminate].
  destruct (age_exceeds now t); [discriminate|]. intros [= <-]. eauto.
Qed.

Lemma setCachedData_stored (t : Z) (section : string) (items : list NewsItem) (st : Storage) :
  storage_available st = true ->
  (storage_size (<[storage_key section := JSON_stringify (CacheEntry t items)]>
                   (storage_items st)) <= storage_quota st)%nat ->
  stored_entry section (setCachedData t section items st)
  = Some (JSON_stringify (CacheEntry t items)).
Proof.
  intros Ha Hq. unfold setCachedData, localStorage_setItem. rewrite Ha.
  apply Nat.leb_le in Hq. rewrite Hq. simpl.
  unfold stored_entry. simpl. apply lookup_insert_eq.
Qed.

(** C2 (as amended).  [getCachedData] returns [null] exactly when the
    section has no readable stored text, the text is empty, is not JSON,
    parses to [null], has a [timestamp] that cannot be converted, or has
    one that converts to a number more than [CACHE_DURATION_MS] before
    now.  Otherwise it returns the parsed entry as stored.  After a
    [setCachedData] whose write went through (the engine reading back
    the JSON text it wrote), and no later than [CACHE_DURATION_MS] after
    it, [getCachedData] returns the entry written, whose [items] are the
    items given. *)
Theorem getCachedData_spec (now : Z) (section : string) (st : Storage) :
  (getCachedData now section st = None <-> CacheMiss now section st)
  /\ (forall data, getCachedData now section st = Some data ->
        exists text, stored_entry section st = Some text /\ JSON_parse text = Some data)
  /\ (forall (t : Z) (items : list NewsItem),
        let text := JSON_stringify (CacheEntry t items) in
        storage_available st = true ->
        (storage_size (<[storage_key section := text]> (storage_items st))
         <= storage_quota st)%nat ->
        text <> "" -> JSON_parse text = Some (CacheEntry t items) ->
        (now - t <= CACHE_DURATION_MS)%Z ->
        getCachedData now section (setCachedData t section items st)
        = Some (CacheEntry t items)
        /\ Get (CacheEntry t items) "items"
           = Return (VJson (JArr (map NewsItem_toJSON items)))).
Proof.
  split; [apply getCachedData_None|]. split; [apply getCachedData_Some|].
  intros t items text Ha Hq Hne Hp Hage. split; [|done].
  rewrite (getCachedData_stored _ _ _ text) by by apply setCachedData_stored.
  apply String.eqb_neq in Hne. rewrite Hne, Hp. simpl.
  unfold age_exceeds. by destruct (Z.ltb_spec CACHE_DURATION_MS (now - t)); [lia|].
Qed.

(** C9 (as amended).  When the stored text parses to a value other than
    [null] whose [timestamp] is missing or converts to [NaN], the age
    test is false and [getCachedData] returns the parsed value. *)
Theorem getCachedData_NaN_timestamp (now : Z) (section : string) (st : Storage)
  (text : string) (data : json) (ts : value) :
  stored_entry section st = Some text -> text <> "" ->
  JSON_parse text = Some data ->
  Get data "timestamp" = Return ts ->
  ToNumber ts = Return None ->
  getCachedData now section st = Some data.
Proof.
  intros Hs Hne Hp Hts Ht. rewrite (getCachedData_stored _ _ _ _ Hs).
  apply String.eqb_neq in Hne. rewrite Hne, Hp, Hts. simpl. by rewrite Ht.
Qed.

End CacheStore.

(** ** The refresh guard *)

Section Refresh.
Context `{rt : Runtime} `{rd : Renderer}.

Lemma render_into_flag (now : Z) (section : string) (items : ItemsArg) (p p' : Page) :
  render_into now section items p = Return p' -> isRefreshing p' = isRefreshing p.
Proof.
  unfold render_into. destruct (renderItems now items section); simpl; [|discriminate].
  by intros [= <-].
Qed.

Lemma loadSection_begin_flag (now : Z) (section : string) (force : bool) (p : Page) :
  isRefreshing (snd (loadSection_begin now section force p)) = isRefreshing p.
Proof.
  unfold loadSection_begin. destruct (containers p !! section); [|done].
  assert (F : isRefreshing
                (snd (let p1 := set_container section Skeletons p in
                      let '(feeds, w1) := fetchSection_begin section (world p1) in
                      (Return (LAwait section feeds), set_world w1 p1)))
              = isRefreshing p).
  { simpl. by destruct (fetchSection_begin section (world p)). }
  destruct force; [exact F|].
  destruct (getCachedData now section (storage p)) as [cached|]; [|exact F].
  destruct (ToBoolean (VJson cached)); [|exact F].
  destruct (Get cached "items") as [items|]; simpl; [|done].
  destruct (render_into now section (StoredItems items) p) as [p'|] eqn:E; simpl; [|done].
  by eapply render_into_flag.
Qed.

(** A fresh cache entry is rendered at once: the call is over, nothing is
    fetched and nothing is stored. *)
Theorem loadSection_cached (now : Z) (section : string) (p : Page) (c : Content)
  (cached : json) (items : value) (html : string) :
  containers p !! section = Some c ->
  getCachedData now section (storage p) = Some cached ->
  ToBoolean (VJson cached) = true ->
  Get cached "items" = Return items ->
  renderItems now (StoredItems items) section = Return html ->
  loadSection_begin now section false p
  = (Return LDone, set_container section (Items html) p)
  /\ world (set_container section (Items html) p) = world p
  /\ storage (set_container section (Items html) p) = storage p.
Proof.
  intros Hc Hcached Htrue Hitems Hrender. split; [|done].
  unfold loadSection_begin. rewrite Hc, Hcached, Htrue, Hitems. simpl.
  unfold render_into. by rewrite Hrender.
Qed.

Lemma loadSection_begin_forced (now : Z) (section : string) (p : Page) :
  fulfilled (fst (loadSection_begin now section true p)).
Proof.
  unfold loadSection_begin, fulfilled. destruct (containers p !! section); simpl; [|eauto].
  destruct (fetchSection_begin section _). simpl. eauto.
Qed.

Lemma loadSection_catch_flag (now : Z) (section : string) (p : Page) :
  isRefreshing (loadSection_catch now section p) = isRefreshing p.
Proof.
  unfold loadSection_catch.
  destruct (localStorage_getItem _ _) as [[text|]|]; simpl; try done.
  destruct (String.eqb text ""); [done|].
  destruct (JSON_parse text) as [data|]; [|done].
  destruct (Get data "items") as [items|]; simpl; [|done].
  destruct (render_into now section (StoredItems items) p) as [p'|] eqn:E; simpl; [|done].
  by eapply render_into_flag.
Qed.

Lemma loadSection_resume_flag (net : Network) (now : Z) (task : LoadTask) (p : Page) :
  isRefreshing (loadSection_resume net now task p) = isRefreshing p.
Proof.
  destruct task as [|section feeds]; simpl; [done|].
  destruct (fetchSection_resume net feeds (world p)) as [[items|e] w1].
  - destruct (render_into _ _ _) as [p3|] eqn:E.
    + by rewrite (render_into_flag _ _ _ _ _ E).
    + by rewrite loadSection_catch_flag.
  - by rewrite loadSection_catch_flag.
Qed.

Lemma loadSections_begin_spec (now : Z) (sections : list string) (p : Page) :
  Forall fulfilled (fst (loadSections_begin now sections p))
  /\ List.length (fst (loadSections_begin now sections p)) = List.length sections
  /\ isRefreshing (snd (loadSections_begin now sections p)) = isRefreshing p.
Proof.
  revert p. induction sections as [|section rest IH]; intros p; simpl.
  - by repeat constructor.
  - pose proof (loadSection_begin_forced now section p) as Hf.
    pose proof (loadSection_begin_flag now section true p) as Hflag.
    destruct (loadSection_begin now section true p) as [task p1].
    destruct (IH p1) as (Hall & Hlen & Hflag').
    destruct (loadSections_begin now rest p1) as [tasks p2]. simpl in *.
    split; [by constructor|]. split; congruence.
Qed.

Lemma initial_loads_flag (now : Z) (sections : list string) (p : Page) :
  isRefreshing (snd (initial_loads now sections p)) = isRefreshing p.
Proof.
  revert p. induction sections as [|section rest IH]; intros p; simpl; [done|].
  pose proof (loadSection_begin_flag now section false p) as Hflag.
  destruct (loadSection_begin now section false p) as [task p1].
  specialize (IH p1). destruct (initial_loads now rest p1) as [tasks p2].
  simpl in *. congruence.
Qed.

Lemma refreshAll_begin_guarded (now : Z) (p : Page) :
  isRefreshing p = true -> refreshAll_begin now p = (None, p).
Proof. intros H. unfold refreshAll_begin. by rewrite H. Qed.

Lemma refreshAll_begin_runs (now : Z) (p : Page) :
  isRefreshing p = false ->
  exists tasks p',
    refreshAll_begin now p = (Some tasks, p')
    /\ Forall fulfilled tasks /\ List.length tasks = 3 /\ isRefreshing p' = true.
Proof.
  intros H. unfold refreshAll_begin. rewrite H.
  destruct (loadSections_begin_spec now refresh_sections
              (set_spinning true (set_isRefreshing true p))) as (Hall & Hlen & Hflag).
  destruct (loadSections_begin now refresh_sections _) as [tasks p'].
  exists tasks, p'. cbn [fst snd] in *. repeat split; [exact Hall|exact Hlen|exact Hflag].
Qed.

Lemma refreshAll_finish_flag (now : Z) (p : Page) :
  isRefreshing (refreshAll_finish now p) = false.
Proof. done. Qed.

Lemma existsb_rejected_fulfilled {A} (loads : list (Completion A)) :
  Forall fulfilled loads -> existsb rejected loads = false.
Proof. induction 1 as [|c loads [a ->] _ IH]; simpl; done. Qed.

(** What [await Promise.all] does with loads none of which was rejected. *)
Lemma await_all_fulfilled (now : Z) (loads : list (Completion LoadTask)) (p : Page) :
  Forall fulfilled loads ->
  (existsb waiting loads = true /\ await_all now loads p = (p, [loads]))
  \/ (existsb waiting loads = false /\ await_all now loads p = (refreshAll_finish now p, [])).
Proof.
  intros H. unfold await_all. rewrite (existsb_rejected_fulfilled _ H).
  destruct (existsb waiting loads); auto.
Qed.

Lemma started_single_flight (now : Z) (s : System) :
  single_flight s -> single_flight (started now (refreshAll_begin now (page s)) s).
Proof.
  intros [[Hnone Hflag] | (loads & Hone & Hlen & Hall & Hw & Hflag)].
  - destruct (refreshAll_begin_runs now _ Hflag) as (loads & p' & -> & Hall & Hlen & Hflag').
    unfold started.
    destruct (await_all_fulfilled now loads p' Hall) as [[Hw ->] | [Hw ->]].
    + right. exists loads. simpl. by rewrite Hnone.
    + left. simpl. by rewrite Hnone.
  - rewrite refreshAll_begin_guarded by done. right. exists loads. by simpl.
Qed.

Lemma single_flight_page (s : System) (p : Page) (l : list LoadTask) :
  isRefreshing p = isRefreshing (page s) ->
  single_flight s ->
  single_flight {| page := p; in_flight := in_flight s; loading := l |}.
Proof.
  intros Hp [[Hnone Hf] | (loads & Hone & Hlen & Hall & Hw & Hf)];
    [left|right; exists loads]; simpl; rewrite Hp; done.
Qed.

Lemma step_single_flight (e : Event) (s : System) :
  single_flight s -> single_flight (step e s).
Proof.
  intros Hs. destruct e as [now|now|now visible|tab|net now i|net now i]; unfold step.
  - destruct (initial_loads now refresh_sections (page s)) as [tasks p] eqn:E.
    apply single_flight_page; [|done]. simpl.
    pose proof (initial_loads_flag now refresh_sections (page s)) as H.
    by rewrite E in H.
  - by apply started_single_flight.
  - unfold on_visibilitychange. destruct visible.
    + destruct (_ || _); [by apply started_single_flight|].
      by apply single_flight_page.
    + by apply single_flight_page.
  - by apply single_flight_page.
  - destruct Hs as [[Hnone Hf] | (loads & Hone & Hlen & Hall & Hw & Hf)].
    + rewrite Hnone. by left.
    + rewrite Hone. destruct (loads !! i) as [[[|section feeds]|e]|] eqn:Hi;
        try (right; exists loads; done).
      set (p := loadSection_resume net now (LAwait section feeds) (page s)).
      assert (Hp : isRefreshing p = true) by (subst p; by rewrite loadSection_resume_flag).
      assert (Hall' : Forall fulfilled (<[i := Return LDone]> loads)).
      { apply Forall_insert; [done|by eexists]. }
      destruct (await_all_fulfilled now _ p Hall') as [[Hw' ->] | [Hw' ->]].
      * right. eexists. simpl. rewrite length_insert. done.
      * left. done.
  - destruct (loading s !! i) as [task|]; [|done].
    apply single_flight_page; [|done]. simpl. apply loadSection_resume_flag.
Qed.

Lemma run_single_flight (events : list Event) (s : System) :
  single_flight s -> single_flight (run events s).
Proof.
  revert s. induction events as [|e events IH]; intros s Hs; simpl; [done|].
  apply IH. by apply step_single_flight.
Qed.

(** Once the fetches of load [k] settle, the loads up to [k] are over. *)
Lemma settle_progress (net : Network) (now : Z) (k : nat) (s : System) :
  single_flight s ->
  (in_flight s = []
   \/ exists loads, in_flight s = [loads]
                    /\ forall j t, j < k -> loads !! j = Some t -> waiting t = false) ->
  let s' := step (Settle net now k) s in
  in_flight s' = []
  \/ exists loads, in_flight s' = [loads]
                   /\ forall j t, j < S k -> loads !! j = Some t -> waiting t = false.
Proof.
  intros Hs [Hnone | (loads & Hone & Hdone)]; simpl.
  { left. by rewrite Hnone. }
  rewrite Hone.
  assert (Hall : Forall fulfilled loads).
  { destruct Hs as [[E _] | (l & E & _ & Hall & _)]; congruence. }
  destruct (loads !! k) as [task|] eqn:Hk.
  2: { right. exists loads. split; [done|]. intros j t Hj Ht.
       destruct (decide (j = k)) as [->|]; [congruence|]. apply (Hdone j); [lia|done]. }
  destruct (waiting task) eqn:Hw.
  - destruct task as [[|section feeds]|e]; try discriminate Hw.
    set (p := loadSection_resume net now (LAwait section feeds) (page s)).
    assert (Hall' : Forall fulfilled (<[k := Return LDone]> loads)).
    { apply Forall_insert; [done|by eexists]. }
    destruct (await_all_fulfilled now _ p Hall') as [[_ ->] | [_ ->]]; [|by left].
    right. eexists. split; [done|]. intros j t Hj Ht.
    destruct (decide (j = k)) as [->|Hne].
    + rewrite list_lookup_insert_eq in Ht by by eapply lookup_lt_Some.
      by injection Ht as <-.
    + rewrite list_lookup_insert_ne in Ht by done. apply (Hdone j); [lia|done].
  - right. exists loads. split.
    + by destruct task as [[|section feeds]|e].
    + intros j t Hj Ht. destruct (decide (j = k)) as [->|]; [congruence|].
      apply (Hdone j); [lia|done].
Qed.

Lemma all_settled_not_waiting (loads : list (Completion LoadTask)) :
  (forall j t, j < List.length loads -> loads !! j = Some t -> waiting t = false) ->
  existsb waiting loads = false.
Proof.
  intros H. apply not_true_is_false. intros [t [Hin Hw]]%existsb_exists.
  apply list_elem_of_In, list_elem_of_lookup in Hin as [j Hj].
  rewrite (H j t) in Hw; [done| |done]. by eapply lookup_lt_Some.
Qed.

(** C7.  Start with no refresh under way and let any events happen.
    At most one call of [refreshAll] is ever waiting.  While one is
    waiting, a further call returns at once and changes nothing: no
    section is loaded and no request goes out.  The waiting call is over
    once the fetches of its three loads have settled; and whenever no
    call is waiting the flag is down, so that the next call starts the
    three section loads. *)
Theorem refreshAll_single_flight (events : list Event) (s0 : System) :
  in_flight s0 = [] -> isRefreshing (page s0) = false ->
  let s := run events s0 in
  List.length (in_flight s) <= 1
  /\ (in_flight s <> [] ->
      forall now, refreshAll_begin now (page s) = (None, page s)
                  /\ step (CallRefreshAll now) s = s)
  /\ (forall net0 net1 net2 t0 t1 t2,
        in_flight (run [Settle net0 t0 0; Settle net1 t1 1; Settle net2 t2 2] s) = [])
  /\ (in_flight s = [] ->
      isRefreshing (page s) = false
      /\ forall now, exists loads p',
           refreshAll_begin now (page s) = (Some loads, p')
           /\ List.length loads = 3 /\ isRefreshing p' = true).
Proof.
  intros Hnone Hflag s.
  assert (Hs : single_flight s) by (apply run_single_flight; by left).
  split; [|split; [|split]].
  - destruct Hs as [[-> _] | (loads & -> & _)]; simpl; lia.
  - intros Hbusy now.
    destruct Hs as [[E _] | (loads & Hone & Hlen & Hall & Hw & Hf)]; [done|].
    rewrite refreshAll_begin_guarded by done. split; [done|].
    simpl. rewrite refreshAll_begin_guarded by done. simpl. by destruct s.
  - intros net0 net1 net2 t0 t1 t2. simpl.
    set (s1 := step (Settle net0 t0 0) s).
    set (s2 := step (Settle net1 t1 1) s1).
    set (s3 := step (Settle net2 t2 2) s2).
    assert (Hs1 : single_flight s1) by by apply step_single_flight.
    assert (Hs2 : single_flight s2) by by apply step_single_flight.
    assert (Hs3 : single_flight s3) by by apply step_single_flight.
    assert (P0 : in_flight s = []
                 \/ exists loads, in_flight s = [loads]
                      /\ forall j t, j < 0 -> loads !! j = Some t -> waiting t = false).
    { destruct Hs as [[E _] | (loads & Hone & _)]; [by left|].
      right. exists loads. split; [done|]. intros; lia. }
    pose proof (settle_progress net0 t0 0 s Hs P0) as P1.
    pose proof (settle_progress net1 t1 1 s1 Hs1 P1) as P2.
    pose proof (settle_progress net2 t2 2 s2 Hs2 P2) as P3.
    destruct P3 as [E | (loads & Hone & Hdone)]; [exact E|].
    destruct Hs3 as [[E _] | (loads' & Hone' & Hlen & _ & Hw & _)]; [exact E|].
    fold s3 in Hone. assert (loads' = loads) as -> by congruence.
    rewrite all_settled_not_waiting in Hw; [done|].
    intros j t Hj. apply Hdone. lia.
  - intros E. destruct Hs as [[_ Hf] | (loads & Hone & _)]; [|congruence].
    split; [done|]. intros now.
    destruct (refreshAll_begin_runs now _ Hf) as (loads & p' & -> & _ & Hlen & Hf').
    by exists loads, p'.
Qed.

End Refresh.

(** ** The service worker *)

Section ServiceWorker.
Variable CACHE_NAME : string.
Variable location : Request.

Lemma caches_keys_delete (key : string) (cs : CacheStorage) :
  caches_keys (caches_delete key cs)
  = List.filter (fun k => negb (String.eqb k key)) (caches_keys cs).
Proof.
  unfold caches_keys, caches_delete.
  induction cs as [|[k c] cs IH]; simpl; [done|].
  destruct (negb (String.eqb k key)); simpl; by rewrite IH.
Qed.

Lemma filter_filter {A} (f g : A -> bool) (l : list A) :
  List.filter f (List.filter g l) = List.filter (fun x => g x && f x) l.
Proof.
  induction l as [|x l IH]; simpl; [done|].
  destruct (g x); simpl; [destruct (f x)|]; by rewrite IH.
Qed.

Lemma caches_delete_all (keys : list string) (cs : CacheStorage) :
  foldl (fun cs key => caches_delete key cs) cs keys
  = List.filter (fun c => forallb (fun key => negb (String.eqb (fst c) key)) keys) cs.
Proof.
  revert cs. induction keys as [|key keys IH]; intros cs; simpl.
  - induction cs as [|c cs IHcs]; simpl; by f_equal.
  - rewrite IH. unfold caches_delete. apply filter_filter.
Qed.

(** What [activate] keeps: the caches named [CACHE_NAME], untouched. *)
Lemma activate_filter (cs : CacheStorage) :
  activate CACHE_NAME cs = List.filter (fun c => String.eqb (fst c) CACHE_NAME) cs.
Proof.
  unfold activate. rewrite caches_delete_all.
  apply filter_ext_in. intros c Hc.
  set (others := List.filter _ _).
  destruct (String.eqb_spec (fst c) CACHE_NAME) as [E|N].
  - apply forallb_forall. intros k Hk. apply filter_In in Hk as [_ Hk].
    rewrite E. destruct (String.eqb_spec CACHE_NAME k) as [<-|]; [|done].
    by rewrite String.eqb_refl in Hk.
  - apply not_true_is_false. intros Hall.
    assert (Hin : In (fst c) others).
    { apply filter_In. split; [by apply in_map|]. apply String.eqb_neq in N. by rewrite N. }
    pose proof (proj1 (forallb_forall _ _) Hall _ Hin) as H.
    cbv beta in H. by rewrite String.eqb_refl in H.
Qed.

Lemma filter_eq_NoDup (name : string) (keys : list string) :
  NoDup keys ->
  List.filter (fun k => String.eqb k name) keys = if bool_decide (name ∈ keys) then [name] else [].
Proof.
  induction 1 as [|k keys Hk Hnd IH]; simpl; [done|].
  destruct (String.eqb_spec k name) as [->|N].
  - rewrite bool_decide_eq_true_2 by left. f_equal.
    rewrite IH. by rewrite bool_decide_eq_false_2.
  - rewrite IH. destruct (bool_decide_reflect (name ∈ keys)) as [In|Nin].
    + rewrite bool_decide_eq_true_2; [done|by right].
    + rewrite bool_decide_eq_false_2; [done|]. intros [?|?]%elem_of_cons; done.
Qed.

Lemma caches_keys_activate (cs : CacheStorage) :
  caches_keys (activate CACHE_NAME cs)
  = List.filter (fun k => String.eqb k CACHE_NAME) (caches_keys cs).
Proof.
  rewrite activate_filter. unfold caches_keys.
  induction cs as [|c cs IH]; simpl; [done|].
  destruct (String.eqb (fst c) CACHE_NAME); simpl; by rewrite IH.
Qed.

Lemma caches_keys_open (name : string) (cs : CacheStorage) :
  caches_keys (caches_open name cs)
  = if bool_decide (name ∈ caches_keys cs) then caches_keys cs else caches_keys cs ++ [name].
Proof.
  unfold caches_open.
  assert (H : forall A (l : list (string * A)),
            alist_get name l = None <-> name ∉ map fst l).
  { intros A l. induction l as [|[k v] l IH]; simpl.
    - split; [intros _; apply not_elem_of_nil|done].
    - destruct (String.eqb_spec k name) as [->|N].
      + split; [done|]. intros []. left.
      + rewrite IH, not_elem_of_cons. split; [by split|by intros [_ ?]]. }
  destruct (alist_get name cs) as [c|] eqn:E.
  - rewrite bool_decide_eq_true_2; [done|].
    destruct (decide (name ∈ caches_keys cs)) as [|Nin]; [done|].
    apply H in Nin. congruence.
  - apply H in E. rewrite bool_decide_eq_false_2 by done.
    unfold caches_keys. by rewrite map_app.
Qed.

Lemma caches_keys_put (name : string) (request : Request) (response : Response)
  (cs : CacheStorage) :
  caches_keys (cache_put name request response cs) = caches_keys (caches_open name cs).
Proof.
  unfold cache_put, caches_keys. rewrite map_map. apply map_ext.
  intros c. by destruct (String.eqb (fst c) name).
Qed.

Lemma elem_of_caches_keys_open (name : string) (cs : CacheStorage) :
  name ∈ caches_keys (caches_open name cs).
Proof.
  rewrite caches_keys_open. destruct (bool_decide_reflect (name ∈ caches_keys cs)); [done|].
  apply elem_of_app. right. left.
Qed.

Lemma caches_keys_put_present (name : string) (request : Request) (response : Response)
  (cs : CacheStorage) :
  name ∈ caches_keys cs ->
  caches_keys (cache_put name request response cs) = caches_keys cs.
Proof.
  intros H. rewrite caches_keys_put, caches_keys_open. by rewrite bool_decide_eq_true_2.
Qed.

Lemma caches_keys_install (net : SwNetwork) (cs : CacheStorage) :
  caches_keys (snd (install CACHE_NAME location net cs))
  = caches_keys (caches_open CACHE_NAME cs).
Proof.
  unfold install, Cache_addAll. destruct (mapM _ _) as [responses|e]; simpl; [|done].
  pose proof (elem_of_caches_keys_open CACHE_NAME cs) as Hin.
  revert Hin. generalize (caches_open CACHE_NAME cs). intros cs1.
  revert cs1. induction responses as [|[request r] responses IH]; intros cs1 H; simpl; [done|].
  rewrite IH; rewrite caches_keys_put_present; done.
Qed.

Lemma NoDup_caches_keys_open (name : string) (cs : CacheStorage) :
  NoDup (caches_keys cs) -> NoDup (caches_keys (caches_open name cs)).
Proof.
  intros H. rewrite caches_keys_open.
  destruct (bool_decide_reflect (name ∈ caches_keys cs)) as [|Nin]; [done|].
  apply NoDup_app. split; [done|]. split; [|apply NoDup_singleton].
  intros k Hk ->%list_elem_of_singleton. done.
Qed.

(** C8.  Activation deletes every cache whose name differs from
    [CACHE_NAME] and keeps the one named [CACHE_NAME] as it is.  The
    worker is activated once its [install] has gone through, and
    [install] opens the cache [CACHE_NAME]: whatever caches there were
    before, exactly one cache, the current one, is present after
    activation.  (On a cache storage without the current cache, which
    activation never meets, none would be left.) *)
Theorem activate_keeps_current_only (cs : CacheStorage) :
  NoDup (caches_keys cs) ->
  activate CACHE_NAME cs = List.filter (fun c => String.eqb (fst c) CACHE_NAME) cs
  /\ (forall key, key <> CACHE_NAME -> key ∉ caches_keys (activate CACHE_NAME cs))
  /\ caches_keys (activate CACHE_NAME cs)
     = (if bool_decide (CACHE_NAME ∈ caches_keys cs) then [CACHE_NAME] else [])
  /\ (forall net,
        caches_keys (activate CACHE_NAME (snd (install CACHE_NAME location net cs)))
        = [CACHE_NAME]).
Proof.
  intros Hnd. split; [apply activate_filter|]. split; [|split].
  - intros key Hne Hin. rewrite caches_keys_activate in Hin.
    apply list_elem_of_In, filter_In in Hin as [_ Hin]. by apply String.eqb_eq in Hin.
  - rewrite caches_keys_activate. by apply filter_eq_NoDup.
  - intros net. rewrite caches_keys_activate, caches_keys_install.
    rewrite filter_eq_NoDup by by apply NoDup_caches_keys_open.
    rewrite bool_decide_eq_true_2; [done|apply elem_of_caches_keys_open].
Qed.

(** *** The fetch handler *)

Lemma alist_get_open (name : string) (cs : CacheStorage) :
  exists cache, alist_get name (caches_open name cs) = Some cache.
Proof.
  unfold caches_open. destruct (alist_get name cs) as [c|] eqn:E; [eauto|].
  exists ∅. induction cs as [|[k v] cs IH]; simpl in *.
  - by rewrite String.eqb_refl.
  - destruct (String.eqb k name); [done|]. by apply IH.
Qed.

Lemma cache_put_stored (name : string) (request : Request) (response : Response)
  (cs : CacheStorage) :
  exists cache,
    alist_get name (cache_put name request response cs) = Some cache
    /\ cache !! href request = Some response.
Proof.
  unfold cache_put. destruct (alist_get_open name cs) as [c Hc].
  revert Hc. generalize (caches_open name cs). intros l.
  induction l as [|[k v] l IH]; simpl; [done|].
  destruct (String.eqb k name) eqn:E; simpl; rewrite E.
  - intros _. eexists. split; [done|]. apply lookup_insert_eq.
  - apply IH.
Qed.

(** C3.  In the later worker a request to the worker's own host over
    http(s) goes to the network first.  A response that arrives is handed
    back and put into the cache [CACHE_NAME] under the request, and the
    cache is not consulted; only when the network fails is the answer
    looked up in the caches, which are then left as they were. *)
Theorem SwV3_same_origin_network_first (net : SwNetwork) (request : Request)
  (cs : CacheStorage) :
  is_http request = true -> same_origin location request = true ->
  exists outcome cs' ops,
    SwV3.onfetch location net request cs = (outcome, cs', ops)
    /\ head ops = Some (OpFetch request)
    /\ (forall response, net request = Some response ->
          outcome = Responded (Some response)
          /\ ops = [OpFetch request; OpCachePut SwV3.CACHE_NAME request response]
          /\ cs' = cache_put SwV3.CACHE_NAME request response cs
          /\ exists cache, alist_get SwV3.CACHE_NAME cs' = Some cache
                           /\ cache !! href request = Some response)
    /\ (OpCacheMatch request ∈ ops <-> net request = None)
    /\ (net request = None ->
          outcome = Responded (caches_match request cs) /\ cs' = cs).
Proof.
  intros Hhttp Hsame. unfold SwV3.onfetch, network_first. rewrite Hhttp, Hsame. simpl.
  destruct (net request) as [response|] eqn:Hnet; do 3 eexists; (split; [done|]).
  - split; [done|]. split; [|split].
    + intros ? [= <-]. repeat split. apply cache_put_stored.
    + split; [|done]. intros H. repeat (apply elem_of_cons in H as [H|H]; [done|]).
      by apply elem_of_nil in H.
    + done.
  - split; [done|]. split; [done|]. split; [|done].
    split; [done|]. intros _. right. left.
Qed.

(** The worker of [src/sw.js] answers such a request from the cache when
    it can, without going to the network. *)
Lemma SwV1_same_origin_cache_first (net : SwNetwork) (request : Request)
  (cs : CacheStorage) (cached : Response) :
  same_origin location request = true ->
  caches_match request cs = Some cached ->
  SwV1.onfetch location net request cs
  = (Responded (Some cached), cs, [OpCacheMatch request]).
Proof.
  intros Hsame Hc. unfold SwV1.onfetch, cache_first. by rewrite Hsame, Hc.
Qed.

End ServiceWorker.

(** ** Translation memo, cache entries, requests and order *)

Section Memo.
Context `{rt : Runtime}.

(** A translation that arrives is memoised under the key of the text:
    the call returns it, has issued its one request, and from then on any
    text with the same language and the same first hundred characters
    gets this translation, without a request and whatever the network
    would answer. *)
Theorem translateText_memoised (net : Network) (text fromLang : string) (w : World)
  (resp : Response) (data : json) (translated : string) :
  text <> "" -> fromLang <> "ru" ->
  translationCache w !! translate_cacheKey text fromLang = None ->
  net (translate_url text fromLang) = Some resp ->
  ok resp = true -> json_body resp = Some data ->
  decode_translation data = Return translated ->
  exists w',
    translateText net text fromLang w = (translated, w')
    /\ translationCache w'
       = <[translate_cacheKey text fromLang := translated]> (translationCache w)
    /\ requests w' = requests w ++ [translate_url text fromLang]
    /\ forall net' text',
         text' <> "" -> slice0 100 text' = slice0 100 text ->
         translateText net' text' fromLang w' = (translated, w').
Proof.
  intros Ht Hl Hmiss Hnet Hok Hbody Hdec.
  eexists. split; [|split; [|split]].
  - unfold translateText. rewrite translateText_begin_slow by done.
    cbn [translateText_resume]. unfold translateText_try.
    rewrite Hnet, Hok, Hbody, Hdec. reflexivity.
  - reflexivity.
  - reflexivity.
  - intros net' text' Ht' Hkey. unfold translateText, translateText_begin.
    apply String.eqb_neq in Ht', Hl. rewrite Ht', Hl. cbn [orb].
    unfold translate_cacheKey at 1. rewrite Hkey. fold (translate_cacheKey text fromLang).
    cbn [translationCache cache_translation]. by rewrite lookup_insert_eq.
Qed.

End Memo.

Section CacheFrame.
Context `{rt : Runtime}.

Lemma storage_key_inj (a b : string) : storage_key a = storage_key b -> a = b.
Proof. unfold storage_key. simpl. by intros [=]. Qed.

(** Writing the entry of one section leaves what [getCachedData] gives
    for every other section as it was, whether or not the write went
    through. *)
Theorem setCachedData_other_section (now t : Z) (section section' : string)
  (items : list NewsItem) (st : Storage) :
  section' <> section ->
  stored_entry section' (setCachedData t section items st) = stored_entry section' st
  /\ getCachedData now section' (setCachedData t section items st)
     = getCachedData now section' st.
Proof.
  intros Hne.
  assert (E : localStorage_getItem (setCachedData t section items st) (storage_key section')
              = localStorage_getItem st (storage_key section')).
  { unfold setCachedData, localStorage_setItem, localStorage_getItem.
    destruct (storage_available st) eqn:Ha; [|by cbn; rewrite Ha].
    destruct (_ <=? _)%nat; cbn; [|by rewrite Ha].
    rewrite lookup_insert_ne; [done|]. intros H. apply Hne. symmetry. by apply storage_key_inj. }
  split.
  - unfold stored_entry. revert E. unfold localStorage_getItem.
    destruct (storage_available (setCachedData _ _ _ _)), (storage_available st);
      congruence.
  - unfold getCachedData, getCachedData_try. by rewrite E.
Qed.

End CacheFrame.

Section Requests.
Context `{rt : Runtime}.





Lemma translateText_resume_requests (net : Network) (task : TranslateTask) (w : World) :
  requests (snd (translateText_resume net task w)) = requests w.
Proof.
  destruct task as [r|text key url]; [done|]. cbn [translateText_resume].
  by destruct (translateText_try _) as [[t|]|].
Qed.


Lemma translateItem_resume_requests (net : Network) (task : ItemTask) (w : World) :
  requests (snd (translateItem_resume net task w)) = requests w.
Proof.
  destruct task as [item|item t1 t2]; [done|]. cbn [translateItem_resume].
  pose proof (translateText_resume_requests net t1 w) as H1.
  destruct (translateText_resume net t1 w) as [title' w1].
  pose proof (translateText_resume_requests net t2 w1) as H2.
  destruct (translateText_resume net t2 w1) as [description' w2].
  cbn [snd] in *. congruence.
Qed.







End Requests.

Section Stability.
Context `{rt : Runtime}.

Lemma sort_insert_stable (t : Z) (x : NewsItem) (l l' : list NewsItem) :
  dated x -> Forall dated l ->
  sort_insert comparefn x l = Return l' ->
  List.filter (dated_at t) l' = List.filter (dated_at t) (x :: l).
Proof.
  intros [tx Hx]. revert l'. induction l as [|y l IH]; intros l' Hd; cbn [sort_insert].
  - by intros [= <-].
  - apply Forall_cons in Hd as [[ty Hy] Hd].
    rewrite (SortCompare_dated x y tx ty Hx Hy). cbn [mbind Completion_bind].
    destruct (Z.leb_spec (ty - tx) 0) as [Hle|Hgt]; [by intros [= <-]|].
    destruct (sort_insert comparefn x l) as [r|] eqn:Hr; cbn [mbind Completion_bind];
      [|done].
    intros [= <-]. specialize (IH r Hd eq_refl).
    assert (Ex : dated_at t x = (tx =? t)%Z) by (unfold dated_at; by rewrite Hx).
    assert (Ey : dated_at t y = (ty =? t)%Z) by (unfold dated_at; by rewrite Hy).
    cbn [List.filter] in *. rewrite IH, Ex, Ey.
    destruct (Z.eqb_spec ty t), (Z.eqb_spec tx t); try done. lia.
Qed.

Lemma Array_sort_stable (t : Z) (l l' : list NewsItem) :
  Forall dated l -> Array_sort comparefn l = Return l' ->
  List.filter (dated_at t) l' = List.filter (dated_at t) l.
Proof.
  revert l'. induction l as [|x l IH]; intros l' Hd; cbn [Array_sort].
  - by intros [= <-].
  - apply Forall_cons in Hd as [Hx Hd].
    destruct (Array_sort comparefn l) as [sorted|] eqn:Hs; cbn [mbind Completion_bind]; [|done].
    intros Hi. rewrite (sort_insert_stable t x sorted l' Hx); [|by rewrite (Array_sort_Permutation _ _ _ Hs)|done].
    cbn [List.filter]. by rewrite (IH sorted Hd eq_refl).
Qed.

(** When every merged item has a valid date, items with one and the same
    date come out of [fetchSection] in the order in which the feeds
    delivered them. *)
Theorem fetchSection_stable (net : Network) (section : string) (feeds : list FeedSource)
  (w : World) (items : list NewsItem) :
  section_feeds section = Return feeds ->
  Forall dated (merged_items net feeds w) ->
  fst (fetchSection net section w) = Return items ->
  forall t, List.filter (dated_at t) items = List.filter (dated_at t) (merged_items net feeds w).
Proof.
  intros Hfeeds Hd. unfold fetchSection, fetchSection_begin, merged_items in *.
  rewrite Hfeeds. cbn [fetchSection_resume].
  destruct (fetchFeeds_resume net feeds (fetchFeeds_begin feeds w)) as [results w1].
  cbn [fst] in *. intros Hs t. by apply Array_sort_stable.
Qed.

End Stability.

(** ** Rendering *)

Section RenderingProperties.
Context `{rt : Runtime} `{dom : Dom}.

Lemma escapeAttr_string_cons (a : ascii) (s : string) :
  escapeAttr_string (String a s) = escaped_char a +:+ escapeAttr_string s.
Proof.
  unfold escapeAttr_string, escaped_char. cbn [replace_all].
  destruct (Ascii.eqb_spec a "&") as [->|_]; [reflexivity|].
  cbn [replace_all].
  destruct (Ascii.eqb_spec a "034") as [->|_]; [reflexivity|].
  cbn [replace_all].
  destruct (Ascii.eqb_spec a "'") as [->|_]; [reflexivity|].
  cbn [replace_all].
  destruct (Ascii.eqb_spec a "<") as [->|_]; [reflexivity|].
  cbn [replace_all].
  destruct (Ascii.eqb_spec a ">") as [->|_]; reflexivity.
Qed.

Ltac entity_chars H D :=
  simpl; intros H D;
  repeat (destruct H as [<-|H]; [by repeat destruct D as [D|D]|]); done.

Lemma escaped_char_safe (a c : ascii) :
  In c (list_ascii_of_string (escaped_char a)) -> ~ attribute_delimiter c.
Proof.
  unfold escaped_char, attribute_delimiter.
  destruct (Ascii.eqb_spec a "&") as [->|_]; [entity_chars H D|].
  destruct (Ascii.eqb_spec a "034") as [->|N1]; [entity_chars H D|].
  destruct (Ascii.eqb_spec a "'") as [->|N2]; [entity_chars H D|].
  destruct (Ascii.eqb_spec a "<") as [->|N3]; [entity_chars H D|].
  destruct (Ascii.eqb_spec a ">") as [->|N4]; [entity_chars H D|].
  simpl. intros [<-|[]] [?|[?|[?|?]]]; done.
Qed.

Lemma list_ascii_of_string_app (s1 s2 : string) :
  list_ascii_of_string (s1 +:+ s2) = list_ascii_of_string s1 ++ list_ascii_of_string s2.
Proof. induction s1 as [|a s1 IH]; simpl; [done|]. by rewrite IH. Qed.

Lemma escapeAttr_string_safe (s : string) (c : ascii) :
  In c (list_ascii_of_string (escapeAttr_string s)) -> ~ attribute_delimiter c.
Proof.
  induction s as [|a s IH]; [done|].
  rewrite escapeAttr_string_cons, list_ascii_of_string_app, in_app_iff.
  intros [H|H]; [by eapply escaped_char_safe|by apply IH].
Qed.

Lemma escaped_char_inj (a b : ascii) (s t : string) :
  escaped_char a +:+ s = escaped_char b +:+ t -> a = b /\ s = t.
Proof.
  unfold escaped_char.
  destruct (Ascii.eqb_spec a "&") as [->|A1]; [|destruct (Ascii.eqb_spec a "034") as [->|A2];
   [|destruct (Ascii.eqb_spec a "'") as [->|A3]; [|destruct (Ascii.eqb_spec a "<") as [->|A4];
   [|destruct (Ascii.eqb_spec a ">") as [->|A5]]]]];
  (destruct (Ascii.eqb_spec b "&") as [->|B1]; [|destruct (Ascii.eqb_spec b "034") as [->|B2];
   [|destruct (Ascii.eqb_spec b "'") as [->|B3]; [|destruct (Ascii.eqb_spec b "<") as [->|B4];
   [|destruct (Ascii.eqb_spec b ">") as [->|B5]]]]]);
  simpl; intros H; try discriminate H;
    try (injection H as H; by subst); try (injection H as ? ?; congruence).
Qed.

Lemma escapeAttr_string_inj (s t : string) :
  escapeAttr_string s = escapeAttr_string t -> s = t.
Proof.
  revert t. induction s as [|a s IH]; intros [|b t].
  - done.
  - rewrite escapeAttr_string_cons. unfold escaped_char.
    repeat (destruct (Ascii.eqb b _); [discriminate|]). discriminate.
  - rewrite escapeAttr_string_cons. unfold escaped_char.
    repeat (destruct (Ascii.eqb a _); [discriminate|]). discriminate.
  - rewrite !escapeAttr_string_cons. intros [-> H]%escaped_char_inj. f_equal. by apply IH.
Qed.

(** [escapeAttr] of a string replaces each character by what
    [escaped_char] gives for it.  The result holds no double quote, no
    apostrophe and no angle bracket, and two different strings give two
    different results.  Anything that is not a string makes it throw. *)
Theorem escapeAttr_spec (str : value) :
  match str with
  | VJson (JStr s) =>
      escapeAttr str = Return (escaped s)
      /\ (forall c, In c (list_ascii_of_string (escaped s)) -> ~ attribute_delimiter c)
      /\ (forall t, escapeAttr (VJson (JStr t)) = escapeAttr str -> t = s)
  | _ => escapeAttr str = Throw TypeError
  end.
Proof.
  destruct str as [|[| | |s| |]|]; try reflexivity.
  assert (E : escapeAttr_string s = escaped s).
  { induction s as [|a s IH]; [done|]. by rewrite escapeAttr_string_cons, IH. }
  split; [|split].
  - simpl. by rewrite E.
  - rewrite <- E. apply escapeAttr_string_safe.
  - simpl. intros t [= H]. by apply escapeAttr_string_inj.
Qed.

Lemma less_than_floor_div (d k n : Z) :
  (0 < k)%Z -> less_than (floor_div (Some d) k) n = (d <? k * n)%Z.
Proof.
  intros Hk. simpl.
  destruct (Z.ltb_spec (d / k) n) as [H|H]; destruct (Z.ltb_spec d (k * n)) as [H'|H'];
    try done; exfalso.
  - apply Z.div_le_lower_bound in H'; lia.
  - apply Z.div_lt_upper_bound in H'; lia.
Qed.

(** [timeAgo] gives the empty string for a missing date and
    [Invalid Date] for one that cannot be read.  For a date [d]
    milliseconds back it gives the text of [elapsed]: less than a minute
    (a date in the future included) is "just now", then whole minutes
    below an hour, whole hours below a day, whole days below a week, and
    the day and month from a week on. *)
Theorem timeAgo_elapsed (now : Z) (dateStr : value) :
  (ToBoolean dateStr = false -> timeAgo now dateStr = Return "")
  /\ (ToBoolean dateStr = true -> Date_new dateStr = Return None ->
      timeAgo now dateStr = Return "Invalid Date")
  /\ (forall t, ToBoolean dateStr = true -> Date_new dateStr = Return (Some t) ->
        timeAgo now dateStr = Return (elapsed (now - t) t)).
Proof.
  unfold timeAgo. split; [by intros ->|]. split; [by intros -> ->|].
  intros t -> ->. cbn [negb mbind Completion_bind fmap option_fmap option_map].
  set (d := (now - t)%Z).
  change (floor_div (floor_div (floor_div (Some d) 60000) 60) 24)
    with (Some (d / 60000 / 60 / 24)%Z).
  change (floor_div (floor_div (Some d) 60000) 60) with (Some (d / 60000 / 60)%Z).
  change (floor_div (Some d) 60000) with (Some (d / 60000)%Z).
  cbn [less_than Number_toString].
  rewrite !Z.div_div by lia.
  change (60000 * 60)%Z with 3600000%Z. change (3600000 * 24)%Z with 86400000%Z.
  unfold elapsed.
  assert (E : forall k n, (0 < k)%Z -> (d / k <? n)%Z = (d <? k * n)%Z).
  { intros k n Hk. apply (less_than_floor_div d k n Hk). }
  rewrite !E by lia.
  change (60000 * 1)%Z with 60000%Z. change (60000 * 60)%Z with 3600000%Z.
  change (3600000 * 24)%Z with 86400000%Z. change (86400000 * 7)%Z with 604800000%Z.
  by repeat destruct (_ <? _)%Z.
Qed.

Lemma mapM_Throw_Exists {A B} (f : A -> Completion B) (l : list A) :
  (exists e, mapM f l = Throw e) <-> Exists (fun x => exists e, f x = Throw e) l.
Proof.
  induction l as [|x l IH]; simpl.
  - split; [by intros [? ?]|by intros ?%Exists_nil].
  - rewrite Exists_cons, <- IH. split.
    + intros [e H]. destruct (f x) as [r|e']; simpl in H; [|eauto].
      destruct (mapM f l) as [rs'|e']; simpl in H; [done|]. eauto.
    + intros [[e ->]|[e H]]; simpl; [eauto|].
      destruct (f x); simpl; [|eauto]. rewrite H. simpl. eauto.
Qed.

Lemma card_item (now : Z) (section : string) (item : NewsItem) :
  match escapeAttr (link item), timeAgo now (pubDate item) with
  | Return _, Return _ =>
      exists c, card now section (fun k => Return (NewsItem_get item k)) = Return c
  | Throw e, _ | Return _, Throw e =>
      card now section (fun k => Return (NewsItem_get item k)) = Throw e
  end.
Proof.
  unfold card.
  change (NewsItem_get item "lang") with (VJson (JStr (lang item))).
  change (NewsItem_get item "link") with (link item).
  change (NewsItem_get item "source") with (VJson (JStr (source item))).
  change (NewsItem_get item "title") with (VJson (JStr (title item))).
  change (NewsItem_get item "description") with (VJson (JStr (description item))).
  change (NewsItem_get item "pubDate") with (pubDate item).
  change (NewsItem_get item "originalTitle")
    with (match originalTitle item with Some t => VJson (JStr t) | None => VUndefined end).
  cbn [mbind Completion_bind mret Completion_ret].
  destruct (escapeAttr (link item)) as [href'|e]; [|done].
  cbn [escapeHtml ToString_value ToString mbind Completion_bind].
  destruct (ToBoolean (VJson (JStr (description item))));
    cbn [mbind Completion_bind];
    (destruct (timeAgo now (pubDate item)) as [ago|e]; [|done]);
    cbn [mbind Completion_bind];
    (destruct (originalTitle item) as [t|]; [destruct (ToBoolean (VJson (JStr t)))|]);
    cbn [ToBoolean escapeAttr mbind Completion_bind]; eauto.
Qed.

Lemma timeAgo_returns (now : Z) (v : value) :
  (exists s, timeAgo now v = Return s)
  <-> (ToBoolean v = true -> exists d, Date_new v = Return d).
Proof.
  unfold timeAgo. destruct (ToBoolean v); cbn [negb].
  2: { split; [done|eauto]. }
  destruct (Date_new v) as [d|e]; cbn [mbind Completion_bind].
  - split; [eauto|]. intros _. repeat (destruct (less_than _ _); [eauto|]). eauto.
  - split; [by intros [? ?]|]. intros H. by destruct (H eq_refl).
Qed.

Lemma card_item_renderable (now : Z) (section : string) (item : NewsItem) :
  (exists c, card now section (fun k => Return (NewsItem_get item k)) = Return c)
  <-> renderable item.
Proof.
  pose proof (card_item now section item) as H.
  unfold renderable, link_is_string. rewrite <- (timeAgo_returns now).
  destruct (link item) as [|[| | |s| |]|]; simpl in H;
    try (split; [intros [c Hc]; congruence|by intros [[? ?] _]]).
  destruct (timeAgo now (pubDate item)) as [ago|e].
  - split; [eauto|done].
  - split; [intros [c Hc]; congruence|by intros [_ [? ?]]].
Qed.

Lemma card_prefix (now : Z) (section : string) (get : string -> Completion value) (c : string) :
  card now section get = Return c ->
  exists rest, c = String "010" (String " " (String " " (String " " (String " "
                  (String " " (String " " (String " " (String " " (String "<" rest))))))))).
Proof.
  unfold card. intros H.
  repeat match type of H with
         | (?m ≫= _) = Return _ =>
             let E := fresh in destruct m eqn:E; cbn [mbind Completion_bind] in H; [|done]
         end.
  injection H as <-. eexists.
  cbn [markup replace_all String.app Ascii.eqb Bool.eqb]. reflexivity.
Qed.

Lemma empty_state_prefix (section : string) :
  exists rest, empty_state section
               = String "010" (String " " (String " " (String " " (String " "
                  (String " " (String " " (String " " (String " " (String " " rest))))))))).
Proof.
  eexists. unfold empty_state.
  cbn [markup replace_all String.app Ascii.eqb Bool.eqb]. reflexivity.
Qed.

Lemma concat_cards_prefix (c : string) (cs : list string) (a : ascii) (rest : string) :
  c = String "010" (String " " (String " " (String " " (String " "
                  (String " " (String " " (String " " (String " " (String a rest))))))))) ->
  exists rest', String.concat "" (c :: cs)
               = String "010" (String " " (String " " (String " " (String " "
                  (String " " (String " " (String " " (String " " (String a rest'))))))))).
Proof. intros ->. destruct cs; simpl; eauto. Qed.

Lemma cards_not_empty_state {A} (now : Z) (section : string)
  (get : A -> string -> Completion value) (x : A) (l : list A) :
  mapM (fun item => card now section (get item)) (x :: l)
  ≫= (fun cards => Return (String.concat "" cards))
  <> Return (empty_state section).
Proof.
  destruct (mapM _ (x :: l)) as [cards|] eqn:E; cbn [mbind Completion_bind]; [|done].
  apply mapM_Return in E. inversion E as [|? c ? cs Hc _]; subst.
  destruct (card_prefix _ _ _ _ Hc) as [rest Hrest].
  destruct (concat_cards_prefix c cs _ _ Hrest) as [rest' ->].
  destruct (empty_state_prefix section) as [rest'' ->]. intros [=].
Qed.

(** [renderItems] gives the block for an empty section exactly when there
    is nothing to show: the list is empty, or what the stored entry holds
    under [items] is missing, falsy or of length [0].  It does not throw
    then. *)
Theorem renderItems_empty_state (now : Z) (items : ItemsArg) (section : string) :
  renderItems_markup now items section = Return (empty_state section) <-> no_items items.
Proof.
  destruct items as [[|x l]|v]; simpl.
  - done.
  - split; [|done]. intros H. exfalso. revert H. apply (cards_not_empty_state now section
      (fun item k => Return (NewsItem_get item k))).
  - destruct (ToBoolean v) eqn:Hv; cbn [negb]; [|by split; auto].
    destruct v as [|[| | | |[|x l]|fields]|]; try (split; [done|]).
    all: try (intros [?|[?|(? & ? & ?)]]; done).
    + split; auto.
    + split.
      * intros H. exfalso. revert H. apply (cards_not_empty_state now section Get).
      * intros [?|[?|(? & ? & ?)]]; done.
    + destruct (own_property fields "length") as [[| |[| |]| | |]|] eqn:E;
        (split; [try done; intros _; right; right; eauto|]).
      all: intros [?|[?|(? & [= <-] & ?)]]; congruence.
Qed.

(** [renderItems] turns a fetched list into markup exactly when every
    item is [renderable]; one item with a [link] that is not a string, or
    with a [pubDate] that cannot be converted, makes the whole call
    throw. *)
Theorem renderItems_fresh (now : Z) (items : list NewsItem) (section : string) :
  (exists html, renderItems_markup now (FreshItems items) section = Return html)
  <-> Forall renderable items.
Proof.
  destruct items as [|x l]; [split; [constructor|simpl; eauto]|].
  cbn [renderItems_markup].
  rewrite <- (Forall_iff _ _ _ (card_item_renderable now section)).
  rewrite <- mapM_Return_Forall.
  destruct (mapM _ (x :: l)); cbn [mbind Completion_bind]; split; eauto.
  all: by intros [? ?].
Qed.

End RenderingProperties.

(** ** Loading a section *)

Section Loading.
Context `{rt : Runtime} `{rd : Renderer}.

Lemma fetchFeeds_resume_all_fail (net : Network) (feeds : list FeedSource) (w : World) :
  Forall (fun f => FeedFailure f (net (proxyUrl f))) feeds ->
  fetchFeeds_resume net feeds w = (map (fun _ => Return []) feeds, w).
Proof.
  induction 1 as [|f feeds Hf _ IH]; simpl; [done|].
  by rewrite (fetchFeed_resume_failure net f w Hf), IH.
Qed.

Lemma fulfilled_values_empty {A B} (l : list B) :
  fulfilled_values (map (fun _ => Return (@nil A)) l) = [].
Proof. by induction l. Qed.

(** A forced load of a section during which every feed fails shows the
    placeholders, then stores an entry with no items, stamped now, in
    place of whatever was stored for the section, and renders the empty
    list. *)
Theorem loadSection_all_feeds_fail (net : Network) (now : Z) (section : string)
  (feeds : list FeedSource) (p : Page) (c : Content) (html : string) :
  containers p !! section = Some c ->
  section_feeds section = Return feeds ->
  Forall (fun f => FeedFailure f (net (proxyUrl f))) feeds ->
  renderItems now (FreshItems []) section = Return html ->
  exists task p1,
    loadSection_begin now section true p = (Return task, p1)
    /\ containers p1 !! section = Some Skeletons
    /\ let p' := loadSection_resume net now task p1 in
       containers p' !! section = Some (Items html)
       /\ storage p' = setCachedData now section [] (storage p)
       /\ (storage_available (storage p) = true ->
           (storage_size (<[storage_key section := JSON_stringify (CacheEntry now [])]>
                            (storage_items (storage p)))
            <= storage_quota (storage p))%nat ->
           stored_entry section (storage p') = Some (JSON_stringify (CacheEntry now []))).
Proof.
  intros Hc Hfeeds Hfail Hrender.
  unfold loadSection_begin, fetchSection_begin. rewrite Hc, Hfeeds.
  eexists _, _. split; [reflexivity|]. split; [apply lookup_insert_eq|].
  cbn [loadSection_resume fetchSection_resume world set_world].
  rewrite (fetchFeeds_resume_all_fail net feeds _ Hfail), fulfilled_values_empty.
  cbn [Array_sort]. unfold render_into. rewrite Hrender.
  cbn [mbind Completion_bind]. split; [apply lookup_insert_eq|].
  split; [done|]. intros Ha Hq. cbn [storage set_container set_storage set_world].
  by apply setCachedData_stored.
Qed.
End Loading.

Section Unrenderable.
Context `{rt : Runtime} `{dom : Dom}.

Lemma escapeAttr_not_string (v : value) :
  (forall s, v <> VJson (JStr s)) -> escapeAttr v = Throw TypeError.
Proof. destruct v as [|[| | |s| |]|]; try done. intros H. by destruct (H s). Qed.

Lemma card_fresh_unlinked (now : Z) (section : string) (item : NewsItem) :
  ~ link_is_string item ->
  card now section (fun k => Return (NewsItem_get item k)) = Throw TypeError.
Proof.
  intros H. pose proof (card_item now section item) as C.
  rewrite escapeAttr_not_string in C; [done|].
  intros s E. apply H. by exists s.
Qed.

Lemma Get_stored_link (item : NewsItem) :
  ~ link_is_string item ->
  exists v, Get (NewsItem_toJSON item) "link" = Return v /\ forall s, v <> VJson (JStr s).
Proof.
  intros H. unfold NewsItem_toJSON, Get.
  destruct (link item) as [|j|name] eqn:L, (pubDate item) as [|j'|name'],
    (originalTitle item) as [t|]; eexists; (split; [reflexivity|]); cbn; try done.
  all: intros s [= ->]; apply H; by exists s.
Qed.

Lemma card_stored_unlinked (now : Z) (section : string) (item : NewsItem) :
  ~ link_is_string item ->
  card now section (Get (NewsItem_toJSON item)) = Throw TypeError.
Proof.
  intros H. destruct (Get_stored_link item H) as (v & Hv & Hns).
  unfold card. rewrite Hv.
  change (Get (NewsItem_toJSON item) "lang") with (Return (A := value)
    match own_property (match NewsItem_toJSON item with JObj f => f | _ => [] end) "lang" with
    | Some v => VJson v | None => VUndefined end).
  cbn [mbind Completion_bind]. by rewrite (escapeAttr_not_string v Hns).
Qed.

Lemma renderItems_fresh_unlinked (now : Z) (section : string) (items : list NewsItem) :
  Exists (fun item => ~ link_is_string item) items ->
  exists e, renderItems_markup now (FreshItems items) section = Throw e.
Proof.
  intros H. destruct items as [|x l]; [by apply Exists_nil in H|].
  cbn [renderItems_markup].
  assert (T : exists e, mapM (fun item => card now section
                           (fun k => Return (NewsItem_get item k))) (x :: l) = Throw e).
  { apply mapM_Throw_Exists. eapply Exists_impl; [exact H|].
    intros item Hi. exists TypeError. by apply card_fresh_unlinked. }
  destruct T as [e ->]. eauto.
Qed.

Lemma renderItems_stored_unlinked (now : Z) (section : string) (items : list NewsItem) :
  Exists (fun item => ~ link_is_string item) items ->
  exists e, renderItems_markup now
              (StoredItems (VJson (JArr (map NewsItem_toJSON items)))) section = Throw e.
Proof.
  intros H. destruct items as [|x l]; [by apply Exists_nil in H|].
  cbn [renderItems_markup ToBoolean negb map].
  assert (T : exists e, mapM (fun item => card now section (Get item))
                          (NewsItem_toJSON x :: map NewsItem_toJSON l) = Throw e).
  { apply mapM_Throw_Exists. change (Exists (fun j => exists e, card now section (Get j) = Throw e)
                                       (map NewsItem_toJSON (x :: l))).
    apply Exists_fmap. eapply Exists_impl; [exact H|].
    intros item Hi. exists TypeError. by apply card_stored_unlinked. }
  destruct T as [e ->]. eauto.
Qed.

(** One fetched item whose [link] is not a string: the items are stored,
    rendering them throws, rendering what was just stored throws as
    well, and the section shows the error message.  Until the entry
    expires, a load of the section that is content with the cache throws
    and leaves the page as it is. *)
Theorem loadSection_unrenderable_item (net : Network) (now : Z) (section : string)
  (feeds : Completion (list FeedSource)) (p : Page) (items : list NewsItem) (w1 : World) :
  let text := JSON_stringify (CacheEntry now items) in
  fetchSection_resume net feeds (world p) = (Return items, w1) ->
  Exists (fun item => ~ link_is_string item) items ->
  storage_available (storage p) = true ->
  (storage_size (<[storage_key section := text]> (storage_items (storage p)))
   <= storage_quota (storage p))%nat ->
  text <> "" -> JSON_parse text = Some (CacheEntry now items) ->
  let p' := loadSection_resume (rd := markup_renderer) net now (LAwait section feeds) p in
  containers p' !! section = Some ErrorMsg
  /\ stored_entry section (storage p') = Some text
  /\ forall now', (now' - now <= CACHE_DURATION_MS)%Z ->
       exists e, loadSection_begin (rd := markup_renderer) now' section false p'
                 = (Throw e, p').
Proof.
  intros text Hfetch Hbad Ha Hq Hne Hparse.
  destruct (renderItems_fresh_unlinked now section items Hbad) as [e1 Hfresh].
  assert (Hst : forall now', exists e, renderItems_markup now'
             (StoredItems (VJson (JArr (map NewsItem_toJSON items)))) section = Throw e)
    by (intros now'; by apply renderItems_stored_unlinked).
  destruct (Hst now) as [e2 Hstored].
  pose proof (setCachedData_stored now section items (storage p) Ha Hq) as Hset.
  fold text in Hset.
  set (p2 := set_storage (setCachedData now section items (storage p)) (set_world w1 p)).
  assert (E : loadSection_resume (rd := markup_renderer) net now (LAwait section feeds) p
              = set_container section ErrorMsg p2).
  { cbn [loadSection_resume]. rewrite Hfetch.
    change (storage (set_world w1 p)) with (storage p). fold p2.
    unfold render_into. cbn [renderItems markup_renderer]. rewrite Hfresh.
    cbn [mbind Completion_bind]. unfold loadSection_catch.
    destruct (getItem_stored section (storage p2) _ Hset) as [-> | [? _]]; [|done].
    cbn [mbind Completion_bind]. apply String.eqb_neq in Hne. rewrite Hne, Hparse.
    cbn [Get CacheEntry own_property String.eqb Ascii.eqb Bool.eqb mbind Completion_bind].
    unfold render_into. cbn [renderItems markup_renderer]. by rewrite Hstored. }
  intros p'. subst p'. rewrite E. split; [apply lookup_insert_eq|]. split; [exact Hset|].
  intros now' Hage. destruct (Hst now') as [e Hthrow]. exists e.
  unfold loadSection_begin.
  rewrite (lookup_insert_eq (containers p2) section ErrorMsg : containers
             (set_container section ErrorMsg p2) !! section = Some ErrorMsg).
  cbn [storage set_container].
  assert (Hget : getCachedData now' section (storage p2) = Some (CacheEntry now items)).
  { rewrite (getCachedData_stored _ _ _ text Hset).
    apply String.eqb_neq in Hne. rewrite Hne, Hparse.
    cbn [Get CacheEntry own_property String.eqb Ascii.eqb Bool.eqb mbind Completion_bind
         ToNumber try_catch].
    unfold age_exceeds. by destruct (Z.ltb_spec CACHE_DURATION_MS (now' - now)); [lia|]. }
  change (storage p2) with (setCachedData now section items (storage p)) in Hget |- *.
  rewrite Hget.
  cbn [ToBoolean CacheEntry Get own_property String.eqb Ascii.eqb Bool.eqb mbind Completion_bind].
  unfold render_into. cbn [renderItems markup_renderer]. by rewrite Hthrow.
Qed.

End Unrenderable.

(** ** Edge cases and fallbacks *)

Section Decode.
Context `{rt : Runtime}.

Lemma mapM_Get0_segments (segments : list (option string * list json)) :
  mapM Get0 (map (fun s => segment (fst s) (snd s)) segments)
  = Return (map (fun s => VJson (match fst s with Some t => JStr t | None => JNull end))
              segments).
Proof.
  induction segments as [|[t others] segments IH]; [done|].
  cbn [map mapM]. rewrite IH. reflexivity.
Qed.

Lemma join_empty_segments (segments : list (option string * list json)) :
  join_empty (map (fun s => VJson (match fst s with Some t => JStr t | None => JNull end))
                segments)
  = Return (String.concat "" (map (fun s => default "" (fst s)) segments)).
Proof.
  unfold join_empty.
  assert (E : mapM (fun v => match v with
                             | VUndefined | VJson JNull => Return ""
                             | _ => ToString_value v
                             end)
                (map (fun s => VJson (match fst s with Some t => JStr t | None => JNull end))
                   segments)
              = Return (map (fun s => default "" (fst s)) segments)).
  { induction segments as [|[[t|] others] segments IH]; [done| |];
      cbn [map mapM]; rewrite IH; reflexivity. }
  by rewrite E.
Qed.

(** The translation read off an answer is the translated texts of the
    segments of its first member, one after the other; a segment without
    one adds nothing, and what follows the first member is not looked
    at. *)
Theorem decode_translation_segments (segments : list (option string * list json))
  (rest : list json) :
  decode_translation (JArr (JArr (map (fun s => segment (fst s) (snd s)) segments) :: rest))
  = Return (String.concat "" (map (fun s => default "" (fst s)) segments)).
Proof.
  unfold decode_translation. cbn [Get0 mbind Completion_bind].
  rewrite mapM_Get0_segments. cbn [mbind Completion_bind]. apply join_empty_segments.
Qed.

End Decode.

Section Edge.
Context `{rt : Runtime}.

(** A section that [FEEDS] does not list has no feeds: [fetchSection]
    gives the empty list and sends nothing.  Under a name that every
    object inherits, [FEEDS[section]] is not a list and the call throws. *)
Theorem fetchSection_unknown_section (net : Network) (section : string) (w : World) :
  alist_get section FEEDS = None ->
  fetchSection net section w
  = if bool_decide (section ∈ Object_prototype_keys) then (Throw TypeError, w)
    else (Return [], w).
Proof.
  intros H. unfold fetchSection, fetchSection_begin, section_feeds. rewrite H.
  by destruct (bool_decide _).
Qed.

(** [translateItem] starts the translation of the title and of the
    description before either answer is there: with neither text
    memoised both requests go out, also when the two texts are the same
    or share their memo key. *)
Theorem translateItem_both_requests (net : Network) (item : NewsItem) (fromLang : string)
  (w : World) :
  fromLang <> "ru" -> title item <> "" -> description item <> "" ->
  translationCache w !! translate_cacheKey (title item) fromLang = None ->
  translationCache w !! translate_cacheKey (description item) fromLang = None ->
  requests (snd (translateItem net item fromLang w))
  = requests w ++ [translate_url (title item) fromLang;
                   translate_url (description item) fromLang].
Proof.
  intros Hl Ht Hd Hmt Hmd. unfold translateItem.
  pose proof (translateItem_resume_requests net
                (fst (translateItem_begin item fromLang w))
                (snd (translateItem_begin item fromLang w))) as Hr.
  destruct (translateItem_begin item fromLang w) as [task w1] eqn:Hb. cbn [fst snd] in Hr.
  rewrite Hr. clear Hr. revert Hb. unfold translateItem_begin.
  apply String.eqb_neq in Hl as Hl'. rewrite Hl'.
  rewrite (translateText_begin_slow (title item) fromLang w Ht Hl Hmt).
  apply String.eqb_neq in Hd as Hd'. rewrite Hd'. cbn [negb].
  rewrite (translateText_begin_slow (description item) fromLang
             (log_request (translate_url (title item) fromLang) w) Hd Hl Hmd).
  intros [= _ <-]. cbn [requests log_request]. by rewrite <- app_assoc.
Qed.

End Edge.

Section Fallback.
Context `{rt : Runtime} `{rd : Renderer}.

(** When [fetchSection] throws, [loadSection] falls back on what is
    stored for the section, whatever its age: the stored items are shown
    if there are any and they can be rendered, the error message if
    nothing is stored.  Storage is left as it was. *)
Theorem loadSection_stale_fallback (net : Network) (now : Z) (section : string)
  (feeds : Completion (list FeedSource)) (p : Page) (e : Error) (w1 : World) :
  fetchSection_resume net feeds (world p) = (Throw e, w1) ->
  let p' := loadSection_resume net now (LAwait section feeds) p in
  storage p' = storage p
  /\ (stored_entry section (storage p) = None -> containers p' !! section = Some ErrorMsg)
  /\ (forall text data items html,
        stored_entry section (storage p) = Some text -> text <> "" ->
        JSON_parse text = Some data -> Get data "items" = Return items ->
        renderItems now (StoredItems items) section = Return html ->
        containers p' !! section = Some (Items html)).
Proof.
  intros Hfetch p'. unfold p'. cbn [loadSection_resume]. rewrite Hfetch.
  unfold loadSection_catch. change (storage (set_world w1 p)) with (storage p).
  split; [|split].
  - destruct (localStorage_getItem _ _) as [[text|]|]; cbn [mbind Completion_bind]; try done.
    destruct (String.eqb text ""); [done|].
    destruct (JSON_parse text) as [data|]; [|done].
    destruct (Get data "items") as [items|]; cbn [mbind Completion_bind]; [|done].
    unfold render_into. by destruct (renderItems now (StoredItems items) section).
  - intros Hs. destruct (getItem_stored section (storage p) _ Hs) as [-> | [_ ->]];
      cbn [mbind Completion_bind]; apply lookup_insert_eq.
  - intros text data items html Hs Hne Hp Hi Hr.
    destruct (getItem_stored section (storage p) _ Hs) as [-> | [? _]]; [|done].
    cbn [mbind Completion_bind]. apply String.eqb_neq in Hne. rewrite Hne, Hp, Hi.
    cbn [mbind Completion_bind]. unfold render_into. rewrite Hr.
    cbn [mbind Completion_bind]. apply lookup_insert_eq.
Qed.





End Fallback.

Section Expiry.
Context `{rt : Runtime}.

(** What [getCachedData] does not return at one time it does not return
    at any later time: an entry never comes back as time goes by. *)
Theorem getCachedData_stays_expired (now now' : Z) (section : string) (st : Storage) :
  (now <= now')%Z ->
  getCachedData now section st = None -> getCachedData now' section st = None.
Proof.
  intros Hle H. apply getCachedData_None. apply getCachedData_None in H.
  destruct H as [Hs|Hs|text Hs Hp|text Hs Hp|text data ts e Hs Hp Hts Ht
                 |text data ts t Hs Hp Hts Ht Hlt].
  - by apply miss_missing.
  - by apply miss_empty.
  - by eapply miss_unparsable.
  - by eapply miss_null.
  - by eapply miss_unconvertible.
  - eapply miss_expired; [done..|lia].
Qed.

End Expiry.

Section WithoutStorage.
Context `{rt : Runtime} `{rd : Renderer}.

(** When [localStorage] cannot be used or has no room for the entry, a
    load still shows what it fetched: the write is given up without a
    trace, storage stays as it was, and the items are rendered. *)
Theorem loadSection_without_storage (net : Network) (now : Z) (section : string)
  (feeds : Completion (list FeedSource)) (p : Page) (items : list NewsItem) (w1 : World)
  (html : string) :
  fetchSection_resume net feeds (world p) = (Return items, w1) ->
  storage_available (storage p) = false
  \/ (storage_quota (storage p)
      < storage_size (<[storage_key section := JSON_stringify (CacheEntry now items)]>
                        (storage_items (storage p))))%nat ->
  renderItems now (FreshItems items) section = Return html ->
  let p' := loadSection_resume net now (LAwait section feeds) p in
  containers p' !! section = Some (Items html)
  /\ storage p' = storage p /\ world p' = w1.
Proof.
  intros Hfetch Hst Hrender p'. unfold p'. cbn [loadSection_resume]. rewrite Hfetch.
  change (storage (set_world w1 p)) with (storage p).
  assert (E : setCachedData now section items (storage p) = storage p).
  { unfold setCachedData, localStorage_setItem.
    destruct Hst as [-> | Hq]; [done|].
    destruct (storage_available (storage p)); [|done].
    apply Nat.leb_gt in Hq. by rewrite Hq. }
  rewrite E. unfold render_into. rewrite Hrender. cbn [mbind Completion_bind].
  split; [apply lookup_insert_eq|]. by destruct p.
Qed.

End WithoutStorage.

(** ** The refresh button *)

Section Button.
Context `{rt : Runtime} `{rd : Renderer}.

Lemma render_into_btn (now : Z) (section : string) (items : ItemsArg) (p p' : Page) :
  render_into now section items p = Return p' -> refresh_btn p' = refresh_btn p.
Proof.
  unfold render_into. destruct (renderItems now items section); simpl; [|discriminate].
  by intros [= <-].
Qed.

Lemma loadSection_begin_btn (now : Z) (section : string) (force : bool) (p : Page) :
  refresh_btn (snd (loadSection_begin now section force p)) = refresh_btn p.
Proof.
  unfold loadSection_begin. destruct (containers p !! section); [|done].
  assert (F : refresh_btn
                (snd (let p1 := set_container section Skeletons p in
                      let '(feeds, w1) := fetchSection_begin section (world p1) in
                      (Return (LAwait section feeds), set_world w1 p1)))
              = refresh_btn p).
  { simpl. by destruct (fetchSection_begin section (world p)). }
  destruct force; [exact F|].
  destruct (getCachedData now section (storage p)) as [cached|]; [|exact F].
  destruct (ToBoolean (VJson cached)); [|exact F].
  destruct (Get cached "items") as [items|]; simpl; [|done].
  destruct (render_into now section (StoredItems items) p) as [p'|] eqn:E; simpl; [|done].
  by eapply render_into_btn.
Qed.

Lemma loadSection_catch_btn (now : Z) (section : string) (p : Page) :
  refresh_btn (loadSection_catch now section p) = refresh_btn p.
Proof.
  unfold loadSection_catch.
  destruct (localStorage_getItem _ _) as [[text|]|]; simpl; try done.
  destruct (String.eqb text ""); [done|].
  destruct (JSON_parse text) as [data|]; [|done].
  destruct (Get data "items") as [items|]; simpl; [|done].
  destruct (render_into now section (StoredItems items) p) as [p'|] eqn:E; simpl; [|done].
  by eapply render_into_btn.
Qed.

Lemma loadSection_resume_btn (net : Network) (now : Z) (task : LoadTask) (p : Page) :
  refresh_btn (loadSection_resume net now task p) = refresh_btn p.
Proof.
  destruct task as [|section feeds]; simpl; [done|].
  destruct (fetchSection_resume net feeds (world p)) as [[items|e] w1].
  - destruct (render_into _ _ _) as [p3|] eqn:E.
    + by rewrite (render_into_btn _ _ _ _ _ E).
    + by rewrite loadSection_catch_btn.
  - by rewrite loadSection_catch_btn.
Qed.

Lemma loadSections_begin_btn (now : Z) (sections : list string) (p : Page) :
  refresh_btn (snd (loadSections_begin now sections p)) = refresh_btn p.
Proof.
  revert p. induction sections as [|section rest IH]; intros p; simpl; [done|].
  pose proof (loadSection_begin_btn now section true p) as H.
  destruct (loadSection_begin now section true p) as [task p1].
  specialize (IH p1). destruct (loadSections_begin now rest p1) as [tasks p2].
  simpl in *. congruence.
Qed.

Lemma initial_loads_btn (now : Z) (sections : list string) (p : Page) :
  refresh_btn (snd (initial_loads now sections p)) = refresh_btn p.
Proof.
  revert p. induction sections as [|section rest IH]; intros p; simpl; [done|].
  pose proof (loadSection_begin_btn now section false p) as H.
  destruct (loadSection_begin now section false p) as [task p1].
  specialize (IH p1). destruct (initial_loads now rest p1) as [tasks p2].
  simpl in *. congruence.
Qed.

Lemma await_all_button (now : Z) (loads : list (Completion LoadTask)) (p : Page) :
  button_follows_flag p -> button_follows_flag (fst (await_all now loads p)).
Proof.
  intros H. unfold await_all. destruct (existsb rejected loads); [done|].
  destruct (existsb waiting loads); [done|].
  unfold button_follows_flag in *. simpl. by rewrite H.
Qed.

Lemma refreshAll_begin_button (now : Z) (p : Page) :
  button_follows_flag p -> button_follows_flag (snd (refreshAll_begin now p)).
Proof.
  intros H. unfold refreshAll_begin. destruct (isRefreshing p) eqn:E; [done|].
  pose proof (loadSections_begin_btn now refresh_sections
                (set_spinning true (set_isRefreshing true p))) as Hb.
  destruct (loadSections_begin_spec now refresh_sections
              (set_spinning true (set_isRefreshing true p))) as (_ & _ & Hf).
  destruct (loadSections_begin now refresh_sections _) as [tasks p'].
  unfold button_follows_flag in *. cbn [snd] in *. rewrite Hb, Hf. simpl. by rewrite H.
Qed.

Lemma started_button (now : Z) (s : System) :
  button_follows_flag (page s) ->
  button_follows_flag (page (started now (refreshAll_begin now (page s)) s)).
Proof.
  intros H. pose proof (refreshAll_begin_button now (page s) H) as Hb.
  unfold started. destruct (refreshAll_begin now (page s)) as [[loads|] p']; [|done].
  cbn [snd] in Hb. pose proof (await_all_button now loads p' Hb) as Ha.
  by destruct (await_all now loads p').
Qed.

Lemma step_button (e : Event) (s : System) :
  button_follows_flag (page s) -> button_follows_flag (page (step e s)).
Proof.
  intros H. unfold button_follows_flag in *.
  destruct e as [now|now|now visible|tab|net now i|net now i]; unfold step.
  - pose proof (initial_loads_btn now refresh_sections (page s)) as Hb.
    pose proof (initial_loads_flag now refresh_sections (page s)) as Hf.
    destruct (initial_loads now refresh_sections (page s)) as [tasks p].
    simpl in *. congruence.
  - by apply started_button.
  - unfold on_visibilitychange. destruct visible; [|done].
    destruct (_ || _); [by apply started_button|done].
  - done.
  - destruct (in_flight s) as [|loads rest]; [done|].
    destruct (loads !! i) as [[[|section feeds]|err]|]; try done.
    set (p := loadSection_resume net now (LAwait section feeds) (page s)).
    assert (Hp : button_follows_flag p).
    { unfold button_follows_flag, p.
      by rewrite loadSection_resume_btn, loadSection_resume_flag. }
    pose proof (await_all_button now (<[i := Return LDone]> loads) p Hp) as Ha.
    by destruct (await_all now _ p).
  - destruct (loading s !! i) as [task|]; [|done]. simpl.
    by rewrite loadSection_resume_btn, loadSection_resume_flag.
Qed.

Lemma run_button (events : list Event) (s : System) :
  button_follows_flag (page s) -> button_follows_flag (page (run events s)).
Proof.
  revert s. induction events as [|e events IH]; intros s Hs; simpl; [done|].
  apply IH. by apply step_button.
Qed.

(** Start with a refresh button that does not spin and no refresh under
    way, and let any events happen: the button spins exactly while a
    call of [refreshAll] is waiting for its loads. *)
Theorem refresh_button_spins_while_refreshing (events : list Event) (s0 : System) :
  in_flight s0 = [] -> isRefreshing (page s0) = false ->
  refresh_btn (page s0) = Some false ->
  let s := run events s0 in
  refresh_btn (page s) = Some (isRefreshing (page s))
  /\ (refresh_btn (page s) = Some true <-> in_flight s <> []).
Proof.
  intros Hnone Hflag Hbtn s.
  assert (Hb : button_follows_flag (page s)).
  { apply run_button. unfold button_follows_flag. by rewrite Hbtn, Hflag. }
  assert (Hs : single_flight s) by (apply run_single_flight; by left).
  split; [exact Hb|]. unfold button_follows_flag in Hb. rewrite Hb.
  destruct Hs as [[-> ->] | (loads & -> & _ & _ & _ & ->)]; split; done.
Qed.

End Button.

(** ** The service worker: installation and the fetch handlers *)

Section Offline.
Variable CACHE_NAME : string.
Variable location : Request.

Lemma alist_get_app_absent {A} (name : string) (l : list (string * A)) (v : A) :
  alist_get name l = None -> alist_get name (l ++ [(name, v)]) = Some v.
Proof.
  induction l as [|[k x] l IH]; simpl.
  - by rewrite String.eqb_refl.
  - destruct (String.eqb k name); [done|]. apply IH.
Qed.

Lemma cache_named_open (name name' : string) (cs : CacheStorage) :
  cache_named name' (caches_open name cs) = cache_named name' cs.
Proof.
  unfold cache_named, caches_open. destruct (alist_get name cs) eqn:E; [done|].
  destruct (String.eqb_spec name name') as [<-|N].
  - by rewrite alist_get_app_absent, E.
  - f_equal. clear E. induction cs as [|[k x] cs IH]; simpl.
    + apply String.eqb_neq in N. by rewrite N.
    + by destruct (String.eqb k name').
Qed.

Lemma alist_get_map_put (name name' : string) (request : Request) (response : Response)
  (l : CacheStorage) :
  alist_get name' (map (fun c => if String.eqb (fst c) name
                                  then (fst c, <[href request := response]> (snd c))
                                  else c) l)
  = (fun cache => if String.eqb name' name then <[href request := response]> cache else cache)
    <$> alist_get name' l.
Proof.
  induction l as [|[k x] l IH]; simpl; [done|].
  destruct (String.eqb_spec k name) as [->|N]; simpl.
  - destruct (String.eqb_spec name name') as [<-|N']; [by rewrite String.eqb_refl|done].
  - destruct (String.eqb_spec k name') as [<-|N']; [|done].
    apply String.eqb_neq in N. by rewrite N.
Qed.

Lemma cache_named_put (name name' : string) (request : Request) (response : Response)
  (cs : CacheStorage) :
  cache_named name' (cache_put name request response cs)
  = if String.eqb name' name then <[href request := response]> (cache_named name cs)
    else cache_named name' cs.
Proof.
  unfold cache_put.
  transitivity ((fun cache => if String.eqb name' name
                              then <[href request := response]> cache else cache)
                  (cache_named name' (caches_open name cs))).
  - unfold cache_named. rewrite alist_get_map_put.
    destruct (String.eqb_spec name' name) as [->|N].
    + destruct (alist_get_open name cs) as [c ->]. done.
    + destruct (alist_get name' (caches_open name cs)); reflexivity.
  - rewrite cache_named_open. by destruct (String.eqb_spec name' name) as [->|N].
Qed.

(** What [cache.addAll] leaves in the cache. *)
Lemma cache_named_puts (name : string) (responses : list (Request * Response))
  (cs : CacheStorage) :
  cache_named name
    (foldl (fun cs '(request, r) => cache_put name request r cs) cs responses)
  = foldl (fun m '(request, r) => <[href request := r]> m) (cache_named name cs) responses.
Proof.
  revert cs. induction responses as [|[request r] responses IH]; intros cs; simpl; [done|].
  by rewrite IH, cache_named_put, String.eqb_refl.
Qed.

Lemma foldl_insert_other (responses : list (Request * Response))
  (m : gmap string Response) (key : string) :
  key ∉ map (fun pr => href (fst pr)) responses ->
  foldl (fun m '(request, r) => <[href request := r]> m) m responses !! key = m !! key.
Proof.
  revert m. induction responses as [|[q x] responses IH]; intros m Hkey; [done|].
  cbn [map fst] in Hkey. apply not_elem_of_cons in Hkey as [Hne Hkey].
  cbn [foldl]. rewrite IH by done. apply lookup_insert_ne. congruence.
Qed.

Lemma foldl_insert_lookup (responses : list (Request * Response))
  (m : gmap string Response) (request : Request) (r : Response) :
  NoDup (map (fun pr => href (fst pr)) responses) ->
  (request, r) ∈ responses ->
  foldl (fun m '(request, r) => <[href request := r]> m) m responses !! href request
  = Some r.
Proof.
  revert m. induction responses as [|[q x] responses IH]; intros m Hnd Hin.
  - by apply elem_of_nil in Hin.
  - cbn [map fst] in Hnd. apply NoDup_cons in Hnd as [Hq Hnd]. cbn [foldl].
    apply elem_of_cons in Hin as [[= -> ->]|Hin]; [|by apply IH].
    rewrite foldl_insert_other by done. apply lookup_insert_eq.
Qed.

Lemma Cache_addAll_fetched (net : SwNetwork) (requests : list Request)
  (responses : list (Request * Response)) :
  mapM (fun request =>
          match net request with
          | Some r => if ok r then Return (request, r) else Throw TypeError
          | None => Throw TypeError
          end) requests = Return responses ->
  map fst responses = requests
  /\ forall request, request ∈ requests ->
       exists r, net request = Some r /\ (request, r) ∈ responses.
Proof.
  intros H%mapM_Return. induction H as [|request pr requests responses Hpr _ [IH1 IH2]].
  - split; [done|]. intros request Hin. by apply elem_of_nil in Hin.
  - cbv beta in Hpr. destruct (net request) as [r|] eqn:Hnet; [|done].
    destruct (ok r); [|done]. injection Hpr as <-. cbn [map fst]. split; [by rewrite IH1|].
    intros request' [->|Hin]%elem_of_cons.
    + exists r. split; [done|left].
    + destruct (IH2 request' Hin) as (r' & ? & ?). exists r'. split; [done|by right].
Qed.

Lemma app_inj_head (pre a b : string) : pre +:+ a = pre +:+ b -> a = b.
Proof. induction pre as [|c pre IH]; simpl; [done|]. intros [= H]. by apply IH. Qed.

(** The static assets have different URLs. *)
Lemma NoDup_asset_hrefs :
  NoDup (map (fun path => href (asset_request location path)) STATIC_ASSETS).
Proof.
  change (NoDup ((fun s => directory (href location) +:+ s)
                   <$> [ ""; "index.html"; "style.css"; "app.js"; "manifest.json";
                         "icon-192.png"; "icon-512.png" ])).
  apply NoDup_fmap_2; [intros a b; apply app_inj_head|].
  apply (bool_decide_unpack _). vm_compute. exact I.
Qed.

Lemma install_stored (net : SwNetwork) (cs : CacheStorage) (path : string) :
  fst (install CACHE_NAME location net cs) = Return tt ->
  path ∈ STATIC_ASSETS ->
  exists r, net (asset_request location path) = Some r
            /\ cache_named CACHE_NAME (snd (install CACHE_NAME location net cs))
               !! href (asset_request location path)
               = Some r.
Proof.
  unfold install, Cache_addAll.
  destruct (mapM _ _) as [responses|e] eqn:E; cbn [fst snd]; [|done].
  intros _ Hin. destruct (Cache_addAll_fetched _ _ _ E) as [Hfst Hall].
  destruct (Hall (asset_request location path)) as (r & Hnet & Hr).
  { apply list_elem_of_fmap. by exists path. }
  exists r. split; [done|]. rewrite cache_named_puts.
  apply foldl_insert_lookup; [|done].
  rewrite <- (map_map fst href), Hfst, map_map. apply NoDup_asset_hrefs.
Qed.

Lemma caches_match_activate (request : Request) (cs : CacheStorage) :
  NoDup (caches_keys cs) ->
  caches_match request (activate CACHE_NAME cs)
  = cache_named CACHE_NAME cs !! href request.
Proof.
  rewrite activate_filter. unfold cache_named.
  induction cs as [|[k c] cs IH]; simpl; [done|].
  intros [Hk Hnd]%NoDup_cons.
  destruct (String.eqb_spec k CACHE_NAME) as [->|N]; simpl; [|by apply IH].
  assert (E : List.filter (fun c => String.eqb (fst c) CACHE_NAME) cs = []).
  { clear IH Hnd. induction cs as [|[k' c'] cs IHcs]; simpl; [done|].
    apply not_elem_of_cons in Hk as [Hne Hk].
    destruct (String.eqb_spec k' CACHE_NAME) as [->|_]; [done|]. by apply IHcs. }
  rewrite E. simpl. by destruct (c !! href request).
Qed.

Lemma NoDup_caches_keys_install (net : SwNetwork) (cs : CacheStorage) :
  NoDup (caches_keys cs) -> NoDup (caches_keys (snd (install CACHE_NAME location net cs))).
Proof. intros H. rewrite caches_keys_install. by apply NoDup_caches_keys_open. Qed.

Lemma caches_match_open (name : string) (request : Request) (cs : CacheStorage) :
  caches_match request (caches_open name cs) = caches_match request cs.
Proof.
  unfold caches_open. destruct (alist_get name cs); [done|].
  induction cs as [|[k c] cs IH]; simpl; [done|]. by rewrite IH.
Qed.

Lemma caches_match_put_ne (name : string) (request other : Request) (response : Response)
  (cs : CacheStorage) :
  href other <> href request ->
  caches_match other (cache_put name request response cs) = caches_match other cs.
Proof.
  intros Hne. unfold cache_put. rewrite <- (caches_match_open name other cs).
  generalize (caches_open name cs). intros l.
  induction l as [|[k c] l IH]; simpl; [done|].
  destruct (String.eqb k name); simpl; rewrite IH; [|done].
  rewrite lookup_insert_ne; [done|congruence].
Qed.

Lemma caches_match_put_only (name : string) (request : Request) (response : Response)
  (cs : CacheStorage) :
  only_cache name cs ->
  caches_match request (cache_put name request response cs) = Some response.
Proof.
  intros Honly. unfold cache_put, caches_open. destruct cs as [|[k c] cs]; simpl.
  - by rewrite String.eqb_refl, lookup_insert_eq.
  - assert (k = name) as -> by (apply Honly; left).
    rewrite String.eqb_refl. simpl. by rewrite String.eqb_refl, lookup_insert_eq.
Qed.

Lemma only_cache_put (name : string) (request : Request) (response : Response)
  (cs : CacheStorage) :
  only_cache name cs -> only_cache name (cache_put name request response cs).
Proof.
  intros Honly key. rewrite caches_keys_put, caches_keys_open.
  destruct (bool_decide _); [apply Honly|].
  intros [?|H%list_elem_of_singleton]%elem_of_app; [by apply Honly|done].
Qed.

End Offline.

Section FetchHandlers.
Variable location : Request.

(** Once the later worker is installed and activated, each static asset
    can be had without the network: a request for the URL of the asset
    that the network does not answer is answered with what [install]
    fetched. *)
Theorem SwV3_assets_offline (net : SwNetwork) (cs : CacheStorage) (path : string)
  (request : Request) :
  NoDup (caches_keys cs) ->
  fst (install SwV3.CACHE_NAME location net cs) = Return tt ->
  path ∈ STATIC_ASSETS ->
  href request = resolve location path ->
  is_http request = true -> same_origin location request = true ->
  let cs' := activate SwV3.CACHE_NAME (snd (install SwV3.CACHE_NAME location net cs)) in
  exists r,
    net (asset_request location path) = Some r
    /\ forall offline, offline request = None ->
         SwV3.onfetch location offline request cs'
         = (Responded (Some r), cs', [OpFetch request; OpCacheMatch request]).
Proof.
  intros Hnd Hok Hin Hhref Hhttp Hsame cs'.
  destruct (install_stored SwV3.CACHE_NAME location net cs path Hok Hin)
    as (r & Hnet & Hcache).
  exists r. split; [done|]. intros offline Hoff.
  unfold SwV3.onfetch, network_first. rewrite Hhttp, Hsame.
  cbn [negb]. rewrite Hoff. do 2 f_equal. f_equal.
  unfold cs'. rewrite caches_match_activate by by apply NoDup_caches_keys_install.
  rewrite Hhref. exact Hcache.
Qed.

(** Once the earlier worker is installed and activated, a request for the
    URL of a static asset is answered with what [install] fetched
    whatever the network holds by then: the network is not asked and the
    cache is not renewed. *)
Theorem SwV1_assets_pinned (net : SwNetwork) (cs : CacheStorage) (path : string)
  (request : Request) :
  NoDup (caches_keys cs) ->
  fst (install SwV1.CACHE_NAME location net cs) = Return tt ->
  path ∈ STATIC_ASSETS ->
  href request = resolve location path ->
  same_origin location request = true ->
  let cs' := activate SwV1.CACHE_NAME (snd (install SwV1.CACHE_NAME location net cs)) in
  exists r,
    net (asset_request location path) = Some r
    /\ forall later : SwNetwork,
         SwV1.onfetch location later request cs'
         = (Responded (Some r), cs', [OpCacheMatch request]).
Proof.
  intros Hnd Hok Hin Hhref Hsame cs'.
  destruct (install_stored SwV1.CACHE_NAME location net cs path Hok Hin)
    as (r & Hnet & Hcache).
  exists r. split; [done|]. intros later.
  unfold SwV1.onfetch, cache_first. rewrite Hsame. cbn [negb].
  assert (E : caches_match request cs' = Some r).
  { unfold cs'. rewrite caches_match_activate by by apply NoDup_caches_keys_install.
    rewrite Hhref. exact Hcache. }
  by rewrite E.
Qed.

(** A request to another host, in the later worker, with only the
    current cache in place: an answer with an OK status is stored, a
    later answer with another status is handed on but not stored, and
    when the network then fails the stored answer is served. *)
Theorem SwV3_api_last_good_answer (request : Request) (cs : CacheStorage)
  (net1 net2 net3 : SwNetwork) (r1 r2 : Response) :
  is_http request = true -> same_origin location request = false ->
  only_cache SwV3.CACHE_NAME cs ->
  net1 request = Some r1 -> ok r1 = true ->
  net2 request = Some r2 -> ok r2 = false ->
  net3 request = None ->
  let cs1 := caches_after (SwV3.onfetch location net1 request cs) in
  let cs2 := caches_after (SwV3.onfetch location net2 request cs1) in
  outcome_of (SwV3.onfetch location net1 request cs) = Responded (Some r1)
  /\ outcome_of (SwV3.onfetch location net2 request cs1) = Responded (Some r2)
  /\ cs2 = cs1
  /\ outcome_of (SwV3.onfetch location net3 request cs2) = Responded (Some r1).
Proof.
  intros Hhttp Hcross Honly H1 Hok1 H2 Hok2 H3 cs1 cs2.
  unfold cs2, cs1, SwV3.onfetch, network_first, outcome_of, caches_after.
  rewrite Hhttp, Hcross. cbn [negb]. rewrite H1, Hok1. cbn [fst snd].
  rewrite H2, Hok2. cbn [fst snd]. rewrite H3. cbn [fst snd].
  repeat split. f_equal. by apply caches_match_put_only.
Qed.

(** In the earlier worker, for a request to another host over [http] or
    [https], every answer that [cache.put] takes is stored, with an OK
    status or without: after two answers the second, stored over the
    first, is what is served when the network fails. *)
Theorem SwV1_api_last_answer (request : Request) (cs : CacheStorage)
  (net1 net2 net3 : SwNetwork) (r1 r2 : Response) :
  same_origin location request = false ->
  only_cache SwV1.CACHE_NAME cs ->
  net1 request = Some r1 -> net2 request = Some r2 -> net3 request = None ->
  cache_put_accepts request r1 -> cache_put_accepts request r2 ->
  let cs1 := caches_after (SwV1.onfetch location net1 request cs) in
  let cs2 := caches_after (SwV1.onfetch location net2 request cs1) in
  outcome_of (SwV1.onfetch location net2 request cs1) = Responded (Some r2)
  /\ outcome_of (SwV1.onfetch location net3 request cs2) = Responded (Some r2).
Proof.
  intros Hcross Honly H1 H2 H3 _ _ cs1 cs2.
  unfold cs2, cs1, SwV1.onfetch, network_first, outcome_of, caches_after.
  rewrite Hcross. cbn [negb]. rewrite H1. cbn [fst snd].
  rewrite H2. cbn [fst snd]. rewrite H3. cbn [fst snd].
  split; [done|]. f_equal. apply caches_match_put_only. by apply only_cache_put.
Qed.

(** Neither worker's fetch handler removes a cache, and neither changes
    what the caches hold for a request with another URL. *)
Theorem onfetch_frame (net : SwNetwork) (request other : Request) (cs : CacheStorage) :
  href other <> href request ->
  let cs1 := caches_after (SwV1.onfetch location net request cs) in
  let cs3 := caches_after (SwV3.onfetch location net request cs) in
  caches_match other cs1 = caches_match other cs
  /\ caches_match other cs3 = caches_match other cs
  /\ (forall key, key ∈ caches_keys cs -> key ∈ caches_keys cs1 /\ key ∈ caches_keys cs3).
Proof.
  intros Hne cs1 cs3.
  assert (K : forall name key response, key ∈ caches_keys cs ->
                key ∈ caches_keys (cache_put name request response cs)).
  { intros name key response Hkey. rewrite caches_keys_put, caches_keys_open.
    destruct (bool_decide _); [done|]. apply elem_of_app. by left. }
  unfold cs1, cs3, SwV1.onfetch, SwV3.onfetch, network_first, cache_first, caches_after.
  destruct (is_http request), (same_origin location request), (net request) as [r|],
    (caches_match request cs); cbn [negb fst snd];
    try destruct (ok r); cbn [fst snd];
    rewrite ?caches_match_put_ne by done; repeat split; auto.
Qed.

End FetchHandlers.

(** ** The model at work

    The statements above, applied to the sample inputs, and the inputs on
    which the behaviour differs from what the specification says. *)

Section Examples.
#[local] Existing Instance Ref.runtime.
#[local] Existing Instance Ref.renderer.
#[local] Existing Instance Ref.dom.
Import Sample.

(** A text from a feed in ["ru"] comes back as it is. *)
Lemma translateText_fast_path_witness :
  translateText offline "Dobry den" "ru" w0
  = ("Dobry den", w0).
Proof.
  apply (translateText_fast_path offline "Dobry den" "ru" w0).
  by left.
Defined.

(** With the network down, ["Ahoj"] comes back untranslated, the memo
    stays empty and the one request is on the log. *)
Lemma translateText_failure_not_cached_witness :
  exists w',
    translateText offline "Ahoj" "cs" w0 = ("Ahoj", w')
    /\ translationCache w' = ∅
    /\ requests w'
       = ["https://translate.googleapis.com/translate_a/single?client=gtx&sl=cs&tl=ru&dt=t&q=Ahoj"].
Proof.
  destruct (translateText_failure_not_cached (rt := Ref.runtime)
              offline "Ahoj" "cs" w0) as (w' & H1 & H2 & H3 & _).
  - discriminate.
  - discriminate.
  - reflexivity.
  - constructor.
  - exists w'. split; [exact H1|]. split; [exact H2|exact H3].
Defined.

(** The translation service answers with [[["Privet","Ahoj"]]], which is
    not of the shape of its answers: the first member holds strings where
    segments belong.  Reading the translation takes the first character
    of each string; the result ["PA"] is returned and memoised, and a
    later call for the same text gets it from the memo without a
    request. *)
Lemma translateText_malformed_memoised :
  let malformed := JArr [ JArr [ JStr "Privet"; JStr "Ahoj" ] ] in
  let net := serving [ (translate_url "Ahoj" "cs", ok_response malformed) ] in
  ~ translation_answer malformed
  /\ translationCache w0 !! translate_cacheKey "Ahoj" "cs" = None
  /\ exists w',
       translateText net "Ahoj" "cs" w0 = ("PA", w')
       /\ translationCache w' <> translationCache w0
       /\ translationCache w' !! translate_cacheKey "Ahoj" "cs" = Some "PA"
       /\ translateText net "Ahoj" "cs" w' = ("PA", w').
Proof.
  intros malformed net. split; [|split; [reflexivity|]].
  - intros (segments & rest & H). injection H as H _.
    destruct segments as [|[[t|] others] segments]; discriminate H.
  - eexists. split; [vm_compute; reflexivity|].
    split; [|split; [vm_compute; reflexivity|vm_compute; reflexivity]].
    intros H. apply (f_equal (fun m => m !! translate_cacheKey "Ahoj" "cs")) in H.
    vm_compute in H. discriminate H.
Defined.

(** With the network down, [fetchFeed] gives the empty list. *)
Lemma fetchFeed_never_throws_witness :
  fst (fetchFeed offline radio w0) = Return [].
Proof.
  destruct (fetchFeed_never_throws offline radio w0) as (items & Hitems & Hfail).
  rewrite Hitems. f_equal. apply Hfail. apply feed_network_error.
Defined.

(** A Russian feed with two entries: two items, the first with the link
    ["#"] that an entry without a link gets. *)
Lemma fetchFeed_items_witness :
  exists items,
    fst (fetchFeed (radio_only [undated_entry; dated_entry]) radio w0) = Return items
    /\ List.length items <= MAX_ITEMS_PER_FEED
    /\ Forall2 (delivered (radio_only [undated_entry; dated_entry]) radio w0)
               [undated_entry; dated_entry] items.
Proof.
  destruct (fetchFeed_items (radio_only [undated_entry; dated_entry]) radio w0)
    as (items & Hitems & Hlen & _ & Hanswer).
  exists items. split; [exact Hitems|]. split; [exact Hlen|].
  apply Hanswer.
  destruct (radio_only [undated_entry; dated_entry] (proxyUrl radio)) as [r|] eqn:E;
    [|vm_compute in E; discriminate E].
  destruct (json_body r) as [data|] eqn:Ebody;
    [|vm_compute in E; injection E as <-; discriminate Ebody].
  exists r, data, [undated_entry; dated_entry].
  vm_compute in E. injection E as <-. injection Ebody as <-.
  split; [reflexivity|]. split; [reflexivity|]. split; [reflexivity|].
  split; [reflexivity|]. split; [reflexivity|]. split; [reflexivity|].
  repeat constructor; eexists; vm_compute; reflexivity.
Defined.

(** A Czech feed whose one entry is translated into a text of 301
    characters: the description that [fetchFeed] returns has 301
    characters. *)
Lemma fetchFeed_translated_description_long :
  exists item,
    fst (fetchFeed novinky_translated novinky w0) = Return [item]
    /\ String.length (description item) = 301
    /\ ~ String.length (description item) <= 300.
Proof.
  eexists. split; [vm_compute; reflexivity|]. split; [vm_compute; reflexivity|].
  vm_compute. lia.
Qed.

(** C1.  [fetchSection] on feeds with an entry that has no [pubDate].
    With the undated entry ahead of a dated one the result keeps it
    ahead, where the specification wants it last; with the undated entry
    between an older and a newer one the result keeps all three in place,
    the older dated item ahead of the newer.  The comparator gives [NaN],
    read as [0], whenever the undated item is one of the two.  Neither
    result is sorted by [pubDate] descending with the undated item
    counted as the epoch. *)
Lemma fetchSection_undated_first :
  fst (fetchSection (radio_only [undated_entry; dated_entry]) "czech" w0)
  = Return [undated_item; dated_item]
  /\ fst (fetchSection (radio_only [dated_entry; undated_entry; later_entry]) "czech" w0)
     = Return [dated_item; undated_item; later_item]
  /\ Date_new (pubDate undated_item) = Return None
  /\ Date_new (pubDate dated_item) = Return (Some 1704067200000%Z)
  /\ Date_new (pubDate later_item) = Return (Some 1704153600000%Z)
  /\ SortCompare comparefn undated_item dated_item = Return 0%Z
  /\ SortCompare comparefn dated_item undated_item = Return 0%Z
  /\ ~ sorted_with_undated_as_epoch [undated_item; dated_item]
  /\ ~ sorted_with_undated_as_epoch [dated_item; undated_item; later_item].
Proof.
  do 7 (split; [vm_compute; reflexivity|]). split.
  - intros H. apply StronglySorted_inv in H as [_ H].
    apply Forall_cons in H as [H _]. vm_compute in H. by apply H.
  - intros H. apply StronglySorted_inv in H as [_ H].
    apply Forall_cons in H as [_ H]. apply Forall_cons in H as [H _].
    vm_compute in H. by apply H.
Qed.

(** Two dated entries, the older first in the feed, come out most
    recent first. *)
Lemma fetchSection_sorted_witness :
  exists items,
    fst (fetchSection (radio_only [dated_entry; later_entry]) "czech" w0) = Return items
    /\ StronglySorted newer_or_same items.
Proof.
  eapply (proj2 (fetchSection_sorted (radio_only [dated_entry; later_entry]) "czech" _ w0
                   eq_refl)).
  assert (E : merged_items (radio_only [dated_entry; later_entry])
                (default [] (alist_get "czech" FEEDS)) w0 = [dated_item; later_item])
    by (vm_compute; reflexivity).
  change (Forall dated (merged_items (radio_only [dated_entry; later_entry])
                (default [] (alist_get "czech" FEEDS)) w0)).
  rewrite E.
  repeat constructor; eexists; vm_compute; reflexivity.
Defined.

(** An entry without a [timestamp] is malformed, yet [getCachedData]
    returns it; and when [localStorage] has no room, what [setCachedData]
    was given is not there one second later. *)
Lemma getCachedData_without_timestamp :
  claimed_miss now "czech" (storage_with (JObj [("items", JArr [])]))
  /\ getCachedData now "czech" (storage_with (JObj [("items", JArr [])]))
     = Some (JObj [("items", JArr [])])
  /\ getCachedData (now + 1000) "czech"
       (setCachedData now "czech" [dated_item] full_storage) = None.
Proof.
  split; [|split; vm_compute; reflexivity].
  unfold claimed_miss.
  replace (stored_entry _ _) with (Some (JSON_stringify (JObj [("items", JArr [])])))
    by (vm_compute; reflexivity).
  replace (JSON_parse _) with (Some (JObj [("items", JArr [])])) by (vm_compute; reflexivity).
  left. intros (t & items & Ht & _). discriminate Ht.
Qed.

(** One second after [setCachedData], [getCachedData] returns the entry
    written. *)
Lemma getCachedData_spec_witness :
  getCachedData (now + 1000) "czech" (setCachedData now "czech" [dated_item] empty_storage)
  = Some (CacheEntry now [dated_item]).
Proof.
  apply (proj2 (proj2 (getCachedData_spec (now + 1000) "czech" empty_storage))
           now [dated_item]).
  - reflexivity.
  - vm_compute. lia.
  - vm_compute. discriminate.
  - vm_compute. reflexivity.
  - vm_compute. discriminate.
Defined.

(** A [timestamp] of [null] is not a number, but it converts to [0]:
    the entry is as old as the epoch and [getCachedData] returns [null].
    So it does for a stored [null], on which reading [timestamp] throws. *)
Lemma getCachedData_null_timestamp :
  JSON_parse (JSON_stringify (JObj [("timestamp", JNull); ("items", JArr [])]))
  = Some (JObj [("timestamp", JNull); ("items", JArr [])])
  /\ timestamp_missing_or_non_numeric (JObj [("timestamp", JNull); ("items", JArr [])])
  /\ getCachedData now "czech"
       (storage_with (JObj [("timestamp", JNull); ("items", JArr [])])) = None
  /\ JSON_parse (JSON_stringify JNull) = Some JNull
  /\ timestamp_missing_or_non_numeric JNull
  /\ getCachedData now "czech" (storage_with JNull) = None.
Proof. repeat split; vm_compute; reflexivity. Qed.

(** An entry without a [timestamp] is returned whatever the time. *)
Lemma getCachedData_NaN_timestamp_witness :
  getCachedData now "czech" (storage_with (JObj [("items", JArr [])]))
  = Some (JObj [("items", JArr [])]).
Proof.
  apply (getCachedData_NaN_timestamp now "czech" _
           (JSON_stringify (JObj [("items", JArr [])])) _ VUndefined).
  - vm_compute. reflexivity.
  - vm_compute. discriminate.
  - vm_compute. reflexivity.
  - reflexivity.
  - reflexivity.
Defined.

(** A second call of [refreshAll] while the first is waiting changes
    nothing. *)
Lemma refreshAll_single_flight_witness :
  step (CallRefreshAll (now + 1)) (run [DOMContentLoaded now; CallRefreshAll now] fresh_system)
  = run [DOMContentLoaded now; CallRefreshAll now] fresh_system.
Proof.
  apply (refreshAll_single_flight [DOMContentLoaded now; CallRefreshAll now] fresh_system
           eq_refl eq_refl).
  intros H. vm_compute in H. discriminate H.
Defined.

(** The later worker installed where only the cache of the earlier one
    exists, then activated: its own cache is the one that is left. *)
Lemma activate_keeps_current_only_witness :
  caches_keys (snd (install SwV3.CACHE_NAME origin online [(SwV1.CACHE_NAME, ∅)]))
  = [SwV1.CACHE_NAME; SwV3.CACHE_NAME]
  /\ caches_keys
       (activate SwV3.CACHE_NAME
          (snd (install SwV3.CACHE_NAME origin online [(SwV1.CACHE_NAME, ∅)])))
     = [SwV3.CACHE_NAME].
Proof.
  split; [vm_compute; reflexivity|].
  apply (activate_keeps_current_only SwV3.CACHE_NAME origin [(SwV1.CACHE_NAME, ∅)]).
  apply NoDup_singleton.
Defined.

(** The style sheet is fetched, handed back and cached. *)
Lemma SwV3_same_origin_network_first_witness :
  exists cs',
    SwV3.onfetch origin online style_request []
    = (Responded (Some style_response), cs',
       [OpFetch style_request; OpCachePut SwV3.CACHE_NAME style_request style_response])
    /\ caches_match style_request cs' = Some style_response.
Proof.
  destruct (SwV3_same_origin_network_first origin online style_request [] eq_refl eq_refl)
    as (outcome & cs' & ops & E & _ & Hresp & _).
  destruct (Hresp style_response eq_refl) as (-> & -> & -> & _).
  eexists. split; [exact E|]. vm_compute. reflexivity.
Defined.

(** The earlier worker answers the style sheet from its cache and does
    not go to the network. *)
Lemma SwV1_same_origin_cache_first_witness :
  SwV1.onfetch origin online style_request
    [(SwV1.CACHE_NAME, {[ href style_request := style_response ]})]
  = (Responded (Some style_response),
     [(SwV1.CACHE_NAME, {[ href style_request := style_response ]})],
     [OpCacheMatch style_request]).
Proof.
  apply (SwV1_same_origin_cache_first origin online style_request _ style_response).
  - reflexivity.
  - vm_compute. reflexivity.
Defined.

(** With the network down every feed of the Czech section fails and the
    section is empty. *)
Lemma fetchSection_all_feeds_fail_witness :
  fst (fetchSection offline "czech" w0) = Return [].
Proof.
  eapply (fetchSection_all_feeds_fail offline "czech" _ w0 eq_refl).
  repeat constructor.
Defined.

(** The page with an entry for [czech] written thirty minutes ago. *)
Lemma loadSection_cached_witness :
  exists html,
    loadSection_begin now "czech" false
      (set_storage (storage_with (CacheEntry (now - 30 * 60 * 1000) [dated_item])) fresh_page)
    = (Return LDone,
       set_container "czech" (Items html)
         (set_storage (storage_with (CacheEntry (now - 30 * 60 * 1000) [dated_item]))
            fresh_page)).
Proof.
  eexists.
  eapply (proj1 (loadSection_cached now "czech" _ Untouched
                   (CacheEntry (now - 30 * 60 * 1000) [dated_item]) _ _ _ _ _ _ _)).
  Unshelve.
  all: try (vm_compute; reflexivity).
Defined.

(** ["Ahoj"] is translated once; after that the memo answers, also with
    the network down. *)
Lemma translateText_memoised_witness :
  exists w',
    translateText novinky_translated "Ahoj" "cs" w0 = (long_text, w')
    /\ translateText offline "Ahoj" "cs" w' = (long_text, w').
Proof.
  destruct (translateText_memoised novinky_translated "Ahoj" "cs" w0
              (ok_response (JArr [ JArr [ JArr [ JStr long_text; JStr "Ahoj" ] ] ]))
              (JArr [ JArr [ JArr [ JStr long_text; JStr "Ahoj" ] ] ]) long_text)
    as (w' & H1 & _ & _ & H4).
  - discriminate.
  - discriminate.
  - reflexivity.
  - vm_compute. reflexivity.
  - reflexivity.
  - reflexivity.
  - vm_compute. reflexivity.
  - exists w'. split; [exact H1|]. apply H4; [discriminate|reflexivity].
Defined.

(** Writing the entry of [estonia] does not touch the entry of [czech]. *)
Lemma setCachedData_other_section_witness :
  getCachedData now "czech"
    (setCachedData now "estonia" [dated_item] (storage_with (CacheEntry now [later_item])))
  = getCachedData now "czech" (storage_with (CacheEntry now [later_item])).
Proof.
  apply (setCachedData_other_section now now "estonia" "czech" [dated_item]
           (storage_with (CacheEntry now [later_item]))).
  discriminate.
Defined.


(** Two entries of one and the same date stay in the order of the feed. *)
Lemma fetchSection_stable_witness :
  exists items,
    fst (fetchSection (radio_only [dated_entry; later_entry; same_day_entry]) "czech" w0)
    = Return items
    /\ List.filter (dated_at 1704067200000) items = [dated_item; same_day_item].
Proof.
  exists [later_item; dated_item; same_day_item].
  split; [vm_compute; reflexivity|].
  rewrite (fetchSection_stable (radio_only [dated_entry; later_entry; same_day_entry])
             "czech" _ w0 [later_item; dated_item; same_day_item] eq_refl).
  - vm_compute. reflexivity.
  - repeat constructor; eexists; vm_compute; reflexivity.
  - vm_compute. reflexivity.
Defined.

(** The five characters in one string. *)
Lemma escapeAttr_spec_witness :
  escapeAttr (VJson (JStr "a&b<c>'")) = Return "a&amp;b&lt;c&gt;&#39;"
  /\ escapeAttr (VJson (JNum 5)) = Throw TypeError.
Proof.
  split.
  - exact (proj1 (escapeAttr_spec (VJson (JStr "a&b<c>'")))).
  - exact (escapeAttr_spec (VJson (JNum 5))).
Defined.

(** Two hours and a bit after the new year. *)
Lemma timeAgo_elapsed_witness :
  timeAgo (1704067200000 + 7300000) (VJson (JStr "2024-01-01T00:00:00Z"))
  = Return "2 ч назад".
Proof.
  refine (eq_trans (proj2 (proj2 (timeAgo_elapsed (1704067200000 + 7300000)
                                    (VJson (JStr "2024-01-01T00:00:00Z"))))
                      1704067200000%Z _ _) _).
  - reflexivity.
  - vm_compute. reflexivity.
  - vm_compute. reflexivity.
Defined.

(** A stored entry whose [items] is [null] shows the block for an empty
    section. *)
Lemma renderItems_empty_state_witness :
  renderItems_markup now (StoredItems (VJson JNull)) "estonia"
  = Return (empty_state "estonia").
Proof.
  apply (renderItems_empty_state now (StoredItems (VJson JNull)) "estonia").
  by left.
Defined.

(** A list with [numbered_item] in it is not rendered. *)
Lemma renderItems_fresh_witness :
  (exists html, renderItems_markup now (FreshItems [dated_item]) "czech" = Return html)
  /\ ~ exists html,
         renderItems_markup now (FreshItems [dated_item; numbered_item]) "czech" = Return html.
Proof.
  split.
  - apply (renderItems_fresh now [dated_item] "czech").
    repeat constructor.
    + by eexists.
    + intros _. eexists. vm_compute. reflexivity.
  - intros H. apply (renderItems_fresh now [dated_item; numbered_item] "czech") in H.
    apply Forall_cons in H as [_ H]. apply Forall_cons in H as [[[s H] _] _].
    discriminate H.
Defined.

(** With the network down, a forced load of the Czech section stores an
    entry without items and shows the block for an empty section. *)
Lemma loadSection_all_feeds_fail_witness :
  exists task p1,
    loadSection_begin (rd := markup_renderer) now "czech" true fresh_page = (Return task, p1)
    /\ let p' := loadSection_resume (rd := markup_renderer) offline now task p1 in
       containers p' !! "czech" = Some (Items (empty_state "czech"))
       /\ stored_entry "czech" (storage p') = Some (JSON_stringify (CacheEntry now [])).
Proof.
  destruct (loadSection_all_feeds_fail (rd := markup_renderer) offline now "czech" _
              fresh_page Untouched (empty_state "czech") eq_refl eq_refl)
    as (task & p1 & H1 & _ & H2 & _ & H3).
  - repeat constructor.
  - reflexivity.
  - exists task, p1. split; [exact H1|]. split; [exact H2|]. apply H3.
    + reflexivity.
    + vm_compute. lia.
Defined.

(** Radio Prague delivers one entry whose [link] is the number [5]: the
    section shows the error message, and one second later a load that is
    content with the cache throws. *)
Lemma loadSection_unrenderable_item_witness :
  let p' := loadSection_resume (rd := markup_renderer) (radio_only [numbered_entry]) now
              (LAwait "czech" (section_feeds "czech")) fresh_page in
  containers p' !! "czech" = Some ErrorMsg
  /\ exists e, loadSection_begin (rd := markup_renderer) (now + 1000) "czech" false p'
               = (Throw e, p').
Proof.
  destruct (loadSection_unrenderable_item (radio_only [numbered_entry]) now "czech"
              (section_feeds "czech") fresh_page [numbered_item]
              (world fresh_page)) as (H1 & _ & H3).
  - vm_compute. reflexivity.
  - apply Exists_cons_hd. intros [s H]. discriminate H.
  - reflexivity.
  - vm_compute. lia.
  - vm_compute. discriminate.
  - vm_compute. reflexivity.
  - split; [exact H1|]. apply H3. vm_compute. discriminate.
Defined.

(** After the document is ready and the button is pressed, the button
    spins. *)
Lemma refresh_button_spins_while_refreshing_witness :
  refresh_btn (page (run [DOMContentLoaded now; CallRefreshAll now] fresh_system))
  = Some true.
Proof.
  apply (refresh_button_spins_while_refreshing
           [DOMContentLoaded now; CallRefreshAll now] fresh_system eq_refl eq_refl eq_refl).
  intros H. vm_compute in H. discriminate H.
Defined.

(** The style sheet, installed and then asked for, under its URL, with
    the network down. *)
Lemma SwV3_assets_offline_witness :
  resolve origin "./style.css" = "https://news.example/style.css"
  /\ outcome_of
       (SwV3.onfetch origin unreachable style_request
          (activate SwV3.CACHE_NAME (snd (install SwV3.CACHE_NAME origin online []))))
     = Responded (Some style_response).
Proof.
  split; [reflexivity|].
  destruct (SwV3_assets_offline origin online [] "./style.css" style_request)
    as (r & Hr & H).
  - constructor.
  - reflexivity.
  - repeat constructor.
  - reflexivity.
  - reflexivity.
  - reflexivity.
  - injection Hr as <-. by rewrite (H unreachable eq_refl).
Defined.

(** The style sheet, installed by the earlier worker: it is answered from
    the cache even when the network has something else. *)
Lemma SwV1_assets_pinned_witness :
  SwV1.onfetch origin (answering bad_gateway) style_request
    (activate SwV1.CACHE_NAME (snd (install SwV1.CACHE_NAME origin online [])))
  = (Responded (Some style_response),
     activate SwV1.CACHE_NAME (snd (install SwV1.CACHE_NAME origin online [])),
     [OpCacheMatch style_request]).
Proof.
  destruct (SwV1_assets_pinned origin online [] "./style.css" style_request)
    as (r & Hr & H).
  - constructor.
  - reflexivity.
  - repeat constructor.
  - reflexivity.
  - reflexivity.
  - injection Hr as <-. apply H.
Defined.

(** The proxy answers, then refuses, then cannot be reached: the later
    worker serves the answer. *)
Lemma SwV3_api_last_good_answer_witness :
  let cs1 := caches_after (SwV3.onfetch origin (answering api_response) api_request []) in
  let cs2 := caches_after (SwV3.onfetch origin (answering bad_gateway) api_request cs1) in
  outcome_of (SwV3.onfetch origin unreachable api_request cs2)
  = Responded (Some api_response).
Proof.
  apply (SwV3_api_last_good_answer origin api_request [] (answering api_response)
           (answering bad_gateway) unreachable api_response bad_gateway);
    try reflexivity.
  intros key H. by apply elem_of_nil in H.
Defined.

(** The same with the earlier worker: it serves the refusal. *)
Lemma SwV1_api_last_answer_witness :
  let cs1 := caches_after (SwV1.onfetch origin (answering api_response) api_request []) in
  let cs2 := caches_after (SwV1.onfetch origin (answering bad_gateway) api_request cs1) in
  outcome_of (SwV1.onfetch origin unreachable api_request cs2)
  = Responded (Some bad_gateway).
Proof.
  apply (SwV1_api_last_answer origin api_request [] (answering api_response)
           (answering bad_gateway) unreachable api_response bad_gateway);
    try reflexivity.
  - intros key H. by apply elem_of_nil in H.
  - split; [by right|discriminate].
  - split; [by right|discriminate].
Defined.

(** Fetching the feed leaves the cached style sheet where it is. *)
Lemma onfetch_frame_witness :
  caches_match style_request
    (caches_after (SwV3.onfetch origin (answering api_response) api_request
                     [(SwV3.CACHE_NAME, {[ href style_request := style_response ]})]))
  = Some style_response.
Proof.
  rewrite (proj1 (proj2 (onfetch_frame origin (answering api_response) api_request
                           style_request
                           [(SwV3.CACHE_NAME, {[ href style_request := style_response ]})]
                           ltac:(discriminate)))).
  vm_compute. reflexivity.
Defined.

(** Two segments and one without a text. *)
Lemma decode_translation_segments_witness :
  decode_translation
    (JArr [ JArr [ JArr [ JStr "Dobry "; JStr "Good " ]; JArr [ JNull ];
                   JArr [ JStr "den"; JStr "day" ] ];
            JNull; JStr "en" ])
  = Return "Dobry den".
Proof.
  exact (decode_translation_segments
           [ (Some "Dobry ", [JStr "Good "]); (None, []); (Some "den", [JStr "day"]) ]
           [ JNull; JStr "en" ]).
Defined.

(** No feeds under [sports]; no list under [constructor]. *)
Lemma fetchSection_unknown_section_witness :
  fetchSection offline "sports" w0 = (Return [], w0)
  /\ fetchSection offline "constructor" w0 = (Throw TypeError, w0).
Proof.
  split.
  - exact (fetchSection_unknown_section offline "sports" w0 eq_refl).
  - exact (fetchSection_unknown_section offline "constructor" w0 eq_refl).
Defined.

(** One text as title and as description: the same request twice. *)
Lemma translateItem_both_requests_witness :
  requests (snd (translateItem novinky_translated ahoj_item "cs" w0))
  = [ translate_url "Ahoj" "cs"; translate_url "Ahoj" "cs" ].
Proof.
  apply (translateItem_both_requests novinky_translated ahoj_item "cs" w0);
    (discriminate || reflexivity).
Defined.

(** The sort throws on the odd date; the entry stored two hours ago is
    shown. *)
Lemma loadSection_stale_fallback_witness :
  let old := storage_with (CacheEntry (now - 2 * 60 * 60 * 1000) [dated_item]) in
  getCachedData now "czech" old = None
  /\ exists html,
       containers
         (loadSection_resume (rd := markup_renderer)
            (radio_only [odd_date_entry; dated_entry]) now
            (LAwait "czech" (section_feeds "czech")) (set_storage old fresh_page))
       !! "czech" = Some (Items html).
Proof.
  intros old. split; [vm_compute; reflexivity|].
  destruct (loadSection_stale_fallback (rd := markup_renderer)
              (radio_only [odd_date_entry; dated_entry]) now "czech"
              (section_feeds "czech") (set_storage old fresh_page) TypeError
              (world fresh_page)) as (_ & _ & H).
  - vm_compute. reflexivity.
  - eexists. eapply (H (JSON_stringify (CacheEntry (now - 2 * 60 * 60 * 1000) [dated_item]))
                       (CacheEntry (now - 2 * 60 * 60 * 1000) [dated_item])).
    + vm_compute. reflexivity.
    + vm_compute. discriminate.
    + vm_compute. reflexivity.
    + reflexivity.
    + vm_compute. reflexivity.
Defined.


(** An entry written two hours ago is not returned now, nor a
    millisecond later. *)
Lemma getCachedData_stays_expired_witness :
  getCachedData (now + 1) "czech"
    (storage_with (CacheEntry (now - 2 * 60 * 60 * 1000) [dated_item])) = None.
Proof.
  apply (getCachedData_stays_expired now (now + 1) "czech").
  - vm_compute. discriminate.
  - vm_compute. reflexivity.
Defined.

(** With no room in [localStorage] the item that was fetched is shown
    all the same. *)
Lemma loadSection_without_storage_witness :
  exists html,
    containers
      (loadSection_resume (rd := markup_renderer) (radio_only [dated_entry]) now
         (LAwait "czech" (section_feeds "czech")) (set_storage full_storage fresh_page))
    !! "czech" = Some (Items html).
Proof.
  eexists.
  eapply (loadSection_without_storage (rd := markup_renderer) (radio_only [dated_entry]) now
            "czech" (section_feeds "czech") (set_storage full_storage fresh_page)
            [dated_item] (world fresh_page)).
  - vm_compute. reflexivity.
  - right. vm_compute. lia.
  - vm_compute. reflexivity.
Defined.

End Examples.
